(** * Kanoon Ki Pechaan: client-side managers

    A shallow embedding of the browser scripts of the legal-services
    application: the API helper ([API.request]), the document manager
    (documents.js), the chat manager ([ChatBot]) and the lawyer directory
    ([LawyerNetwork.canConnect]), followed by the properties of the design
    document that can be stated over them.

    Conventions of the embedding.
    - JavaScript strings are [string]; the builtins [toLowerCase] and [trim]
      are given for the ASCII range.
    - An [async] method is split at its [await]: the part that runs when the
      method is called issues the request and records what is awaiting it;
      the part named [..._done] runs when the request settles.  Requests that
      were issued and have not settled are kept in the [inflight] field.
    - [Utils.showAlert] prepends to the alert container, so the newest alert
      is the head of [alerts].  Console output is not part of the model. *)

From Stdlib Require Import ZArith String Ascii List Bool Lia DecimalString.
From stdpp Require Import base decidable option list gmap strings.

#[local] Set Warnings "-register-all".
#[local] Open Scope string_scope.
#[local] Open Scope list_scope.

(** ** JavaScript values and string builtins *)

Module JS.

(** Primitive values, as they occur in record fields read by the scripts. *)
Inductive value :=
| Undefined
| Null
| Bool (b : bool)
| Num (n : Z)
| Str (s : string).

#[global] Instance value_eq_dec : EqDecision value.
Proof. solve_decision. Defined.

Definition nonempty (s : string) : bool :=
  match s with EmptyString => false | String _ _ => true end.

(** ToBoolean. *)
Definition truthy (v : value) : bool :=
  match v with
  | Undefined | Null => false
  | Bool b => b
  | Num n => negb (n =? 0)%Z
  | Str s => nonempty s
  end.

(** [a === b] on primitives. *)
Definition strict_eq (a b : value) : bool := bool_decide (a = b).

(** A variable that holds [undefined], [null] or an object. *)
Inductive ref (A : Type) :=
| RUndefined
| RNull
| RObject (a : A).
Arguments RUndefined {A}.
Arguments RNull {A}.
Arguments RObject {A} a.

(** The outcome of evaluating code that may throw. *)
Inductive Outcome (E A : Type) :=
| Returns (a : A)
| Throws (e : E).
Arguments Returns {E A} a.
Arguments Throws {E A} e.

(** [opt || dflt] for an optional string: the default is taken when the
    string is missing or empty. *)
Definition or_default (opt : option string) (dflt : string) : string :=
  match opt with
  | Some s => if nonempty s then s else dflt
  | None => dflt
  end.

Definition dquote : string := String (ascii_of_nat 34) EmptyString.

(** Number to string, for integers that are printed with all their digits
    (magnitude below 10^21; larger numbers are printed with an exponent). *)
Definition string_of_Z (n : Z) : string := NilZero.string_of_int (Z.to_int n).

(** [String.prototype.toLowerCase] on ASCII characters: A-Z go to a-z and
    every other character stays.  Outside ASCII the method follows
    Unicode; strings are taken to be ASCII. *)
Definition lower_ascii (c : ascii) : ascii :=
  let n := nat_of_ascii c in
  if (65 <=? n)%nat && (n <=? 90)%nat then ascii_of_nat (n + 32) else c.

Fixpoint toLowerCase (s : string) : string :=
  match s with
  | EmptyString => EmptyString
  | String c rest => String (lower_ascii c) (toLowerCase rest)
  end.

(** [s.includes(sub)]. *)
Fixpoint includes (s sub : string) : bool :=
  String.prefix sub s ||
  match s with
  | EmptyString => false
  | String _ rest => includes rest sub
  end.

(** [String.prototype.trim]: the ASCII white space and line terminators,
    codes 9 to 13 and 32.  The method also strips the Unicode spaces
    (U+00A0, U+FEFF and the like); strings are taken to be ASCII. *)
Definition is_space (c : ascii) : bool :=
  let n := nat_of_ascii c in
  ((9 <=? n)%nat && (n <=? 13)%nat) || (n =? 32)%nat.

Fixpoint trimStart (s : string) : string :=
  match s with
  | EmptyString => EmptyString
  | String c rest => if is_space c then trimStart rest else s
  end.

Fixpoint trimEnd (s : string) : string :=
  match s with
  | EmptyString => EmptyString
  | String c rest =>
      match trimEnd rest with
      | EmptyString => if is_space c then EmptyString else String c EmptyString
      | t => String c t
      end
  end.

Definition trim (s : string) : string := trimEnd (trimStart s).

End JS.

(** ** Alerts (Utils.showAlert) *)

Module Utils.

Record Alert := { alert_message : string; alert_type : string }.

(** [showAlert(message, type)]: the new alert goes in front of the ones
    already in the container. *)
Definition showAlert (message type : string) (alerts : list Alert) : list Alert :=
  {| alert_message := message; alert_type := type |} :: alerts.

(** [truncateText(text, maxLength)]. *)
Definition truncateText (text : string) (maxLength : nat) : string :=
  if (String.length text <=? maxLength)%nat then text
  else substring 0 maxLength text +:+ "...".

(** The object returned by [validatePassword]. *)
Record PasswordCheck := { is_valid : bool; validation_message : string }.

Definition validatePassword (password : string) : PasswordCheck :=
  if (String.length password <? 6)%nat then
    {| is_valid := false;
       validation_message := "Password must be at least 6 characters long" |}
  else {| is_valid := true; validation_message := "Password is valid" |}.

(** [validateEmail]: the test of [/^[^\s@]+@[^\s@]+\.[^\s@]+$/].  The
    character class is [email_char]; a run of the class is [email_run];
    the alternatives of the match are the ways of cutting the string. *)
Definition email_char (c : ascii) : bool :=
  negb (JS.is_space c) && negb (Ascii.eqb c "@"%char).

Fixpoint every (p : ascii -> bool) (s : string) : bool :=
  match s with
  | EmptyString => true
  | String c rest => p c && every p rest
  end.

Definition email_run (s : string) : bool := JS.nonempty s && every email_char s.

(** All the ways of cutting a string in two. *)
Fixpoint cuts (s : string) : list (string * string) :=
  (EmptyString, s) ::
  match s with
  | EmptyString => []
  | String c rest => map (fun cut => (String c (fst cut), snd cut)) (cuts rest)
  end.

Definition validateEmail (email : string) : bool :=
  existsb
    (fun cut =>
       email_run (fst cut) &&
       match snd cut with
       | String at_sign domain =>
           Ascii.eqb at_sign "@"%char &&
           existsb
             (fun cut' =>
                email_run (fst cut') &&
                match snd cut' with
                | String dot tld => Ascii.eqb dot "."%char && email_run tld
                | EmptyString => false
                end)
             (cuts domain)
       | EmptyString => false
       end)
    (cuts email).

End Utils.

(** ** API helper *)

Module API.
Import JS.

(** Parsed JSON. *)
Inductive Json :=
| JNull
| JBool (b : bool)
| JNum (n : Z)
| JStr (s : string)
| JArray (items : list Json)
| JObject (fields : gmap string Json).

Definition json_truthy (j : Json) : bool :=
  match j with
  | JNull => false
  | JBool b => b
  | JNum n => negb (n =? 0)%Z
  | JStr s => nonempty s
  | JArray _ | JObject _ => true
  end.

(** ToString, as applied by [new Error(v)] to its argument.  A number is
    an integer printed with all its digits, see [string_of_Z]. *)
Fixpoint json_to_string (j : Json) : string :=
  match j with
  | JNull => "null"
  | JBool b => if b then "true" else "false"
  | JNum n => string_of_Z n
  | JStr s => s
  | JArray items =>
      let element (x : Json) : string :=
        match x with JNull => EmptyString | _ => json_to_string x end in
      (fix join (xs : list Json) : string :=
         match xs with
         | [] => EmptyString
         | [x] => element x
         | x :: rest => element x +:+ "," +:+ join rest
         end) items
  | JObject _ => "[object Object]"
  end.

Inductive Exception :=
| Error (message : string)
| SyntaxError
| TypeError.

(** [data.message]: a property read throws on [null]; on any other value a
    missing property reads as [undefined] ([None]). *)
Definition get_message (data : Json) : Outcome Exception (option Json) :=
  match data with
  | JNull => Throws TypeError
  | JObject fields => Returns (fields !! "message")
  | _ => Returns None
  end.

(** The [options] argument of [request] as its callers build it. *)
Record Options := { method : option string; data : option Json }.

(** What [fetch] is called with.  The body is [JSON.stringify(options.data)],
    kept as the value that is serialised. *)
Record FetchInit := {
  init_method : option string;
  init_headers : list (string * string);
  init_credentials : string;
  init_body : option Json
}.

(** What [fetch] followed by [response.json()] produces: a rejected fetch,
    or a response with its status and its body, [None] when the body is not
    JSON. *)
Inductive FetchResult :=
| FetchRejected (e : Exception)
| FetchResponse (status : Z) (body : option Json).

(** [response.ok]. *)
Definition ok (status : Z) : bool := (200 <=? status)%Z && (status <=? 299)%Z.

Section Request.
Variable API_BASE_URL : string.
Variable fetch : string -> FetchInit -> FetchResult.

Definition requestOptions (options : Options) : FetchInit :=
  {| init_method := method options;
     init_headers := [("Content-Type", "application/json")];
     init_credentials := "include";
     init_body :=
       match data options with
       | Some d => if json_truthy d then Some d else None
       | None => None
       end |}.

Definition request (endpoint : string) (options : Options) : Outcome Exception Json :=
  let url := API_BASE_URL +:+ endpoint in
  match fetch url (requestOptions options) with
  | FetchRejected e => Throws e
  | FetchResponse status None => Throws SyntaxError
  | FetchResponse status (Some data) =>
      if negb (ok status) then
        match get_message data with
        | Throws e => Throws e
        | Returns (Some m) =>
            if json_truthy m then Throws (Error (json_to_string m))
            else Throws (Error ("HTTP error! status: " +:+ string_of_Z status))
        | Returns None =>
            Throws (Error ("HTTP error! status: " +:+ string_of_Z status))
        end
      else Returns data
  end.

Definition get (endpoint : string) : Outcome Exception Json :=
  request endpoint {| method := Some "GET"; data := None |}.

Definition post (endpoint : string) (d : option Json) : Outcome Exception Json :=
  request endpoint {| method := Some "POST"; data := d |}.

Definition put (endpoint : string) (d : option Json) : Outcome Exception Json :=
  request endpoint {| method := Some "PUT"; data := d |}.

Definition delete (endpoint : string) : Outcome Exception Json :=
  request endpoint {| method := Some "DELETE"; data := None |}.

End Request.

(** How an awaited API call settles for the manager that issued it: the
    promise resolves with a body whose [success] is truthy, carrying the
    payload of the endpoint; it resolves with a body whose [success] is
    falsy, with the optional [message] of the body; or it rejects with an
    error whose [message] is given. *)
Inductive Settled (A : Type) :=
| Succeeded (payload : A)
| Unsuccessful (message : option string)
| Failed (message : string).
Arguments Succeeded {A} payload.
Arguments Unsuccessful {A} message.
Arguments Failed {A} message.

(** What the [XMLHttpRequest] of [uploadDocument] ends with: the [error]
    event, or the [load] event with the status and the response text,
    [None] when the text is not JSON. *)
Inductive XhrResult :=
| XhrError
| XhrLoad (status : Z) (responseText : option Json).

(** [uploadDocument]: how its promise settles. *)
Definition uploadDocument (x : XhrResult) : Outcome Exception Json :=
  match x with
  | XhrError => Throws (Error "Upload failed")
  | XhrLoad status None => Throws SyntaxError
  | XhrLoad status (Some data) =>
      if (200 <=? status)%Z && (status <? 300)%Z then Returns data
      else
        match get_message data with
        | Throws e => Throws e
        | Returns (Some m) =>
            if json_truthy m then Throws (Error (json_to_string m))
            else Throws (Error ("HTTP error! status: " +:+ string_of_Z status))
        | Returns None =>
            Throws (Error ("HTTP error! status: " +:+ string_of_Z status))
        end
  end.

End API.

(** ** Lawyer directory: connection eligibility *)

Module LawyerNetwork.
Import JS.

Record User := { user_id : value }.

Record Lawyer := { lawyer_id : value; connection_status : value }.

(** [!lawyer.connection_status && window.currentUser &&
     window.currentUser.id !== lawyer.id]: the value of the first falsy
    operand, or of the last one. *)
Definition canConnect (currentUser : ref User) (lawyer : Lawyer) : value :=
  let no_connection := negb (truthy (connection_status lawyer)) in
  if negb no_connection then Bool no_connection
  else
    match currentUser with
    | RUndefined => Undefined
    | RNull => Null
    | RObject u => Bool (negb (strict_eq (user_id u) (lawyer_id lawyer)))
    end.

(** The id of the viewer: an anonymous viewer has none. *)
Definition current_user_id (currentUser : ref User) : value :=
  match currentUser with
  | RObject u => user_id u
  | _ => Undefined
  end.

(** The rule as the design document words it: no existing connection status,
    and the current user's id differs from the lawyer's id. *)
Definition eligible_by_two_conditions (currentUser : ref User) (lawyer : Lawyer) : bool :=
  negb (truthy (connection_status lawyer))
  && negb (strict_eq (current_user_id currentUser) (lawyer_id lawyer)).

(** *** Specialization badges and initials *)

(** [formatSpecializations(qualifications)]: the labels of the badges, in
    the order they are rendered. *)
Definition formatSpecializations (qualifications : option string) : list string :=
  match qualifications with
  | None => ["General Practice"]
  | Some q =>
      if negb (nonempty q) then ["General Practice"]
      else
        let specs := toLowerCase q in
        let specializations : list string := [] in
        let specializations :=
          if includes specs "criminal"
          then specializations ++ ["Criminal Law"] else specializations in
        let specializations :=
          if includes specs "civil"
          then specializations ++ ["Civil Law"] else specializations in
        let specializations :=
          if includes specs "family"
          then specializations ++ ["Family Law"] else specializations in
        let specializations :=
          if includes specs "corporate"
          then specializations ++ ["Corporate Law"] else specializations in
        let specializations :=
          if includes specs "tax"
          then specializations ++ ["Tax Law"] else specializations in
        let specializations :=
          if includes specs "property" || includes specs "real estate"
          then specializations ++ ["Property Law"] else specializations in
        let specializations :=
          match specializations with
          | [] => ["General Practice"]
          | _ :: _ => specializations
          end in
        take 3 specializations
  end.

(** [s.split(sep)] for a one-character separator. *)
Fixpoint split_on (sep : ascii) (s : string) : list string :=
  match s with
  | EmptyString => [EmptyString]
  | String c rest =>
      if Ascii.eqb c sep then EmptyString :: split_on sep rest
      else
        match split_on sep rest with
        | word :: words => String c word :: words
        | [] => [String c EmptyString]
        end
  end.

(** [c.toUpperCase()] for an ASCII character [c] (code below 128): the
    letters a-z go to A-Z and every other character stays.  Outside ASCII
    the method follows Unicode and can give more than one character; the
    embedding of [getInitials] is for names of ASCII characters. *)
Definition upper_ascii (c : ascii) : ascii :=
  let n := nat_of_ascii c in
  if (97 <=? n)%nat && (n <=? 122)%nat then ascii_of_nat (n - 32) else c.

(** [word.charAt(0).toUpperCase()], for an ASCII first character. *)
Definition initial (word : string) : string :=
  match word with
  | EmptyString => EmptyString
  | String c _ => String (upper_ascii c) EmptyString
  end.

Fixpoint join (words : list string) : string :=
  match words with
  | [] => EmptyString
  | w :: rest => w +:+ join rest
  end.

Definition getInitials (name : string) : string :=
  join (take 2 (map initial (split_on " "%char name))).

(** *** The directory as a transition system *)

(** The search controls of the page, each of them optional. *)
Record Controls := {
  searchQuery : option string;
  specializationFilter : option string;
  locationFilter : option string;
  experienceFilter : option string;
  sortBy : option string
}.

Record SearchParams := {
  query : string;
  specialization : string;
  location : string;
  experience : string;
  sort_by : string;
  per_page : Z;
  page : option Z
}.

Definition buildSearchParams (c : Controls) : SearchParams :=
  {| query := or_default (searchQuery c) EmptyString;
     specialization := or_default (specializationFilter c) EmptyString;
     location := or_default (locationFilter c) EmptyString;
     experience := or_default (experienceFilter c) EmptyString;
     sort_by := or_default (sortBy c) "name";
     per_page := 12;
     page := None |}.

Definition with_page (p : Z) (params : SearchParams) : SearchParams :=
  {| query := query params; specialization := specialization params;
     location := location params; experience := experience params;
     sort_by := sort_by params; per_page := per_page params; page := Some p |}.

(** The [pagination] object of a search response. *)
Record Pagination := { pg_page : Z; pg_pages : Z; pg_total : Z }.

Record SearchResponse := { lawyers : list Lawyer; pagination : Pagination }.

(** The items of the pagination bar: the previous and next arrows with the
    page they point to, the page links, and the dots. *)
Inductive PageItem :=
| Previous (disabled : bool) (target : Z)
| PageLink (target : Z) (active : bool)
| Ellipsis
| Next (disabled : bool) (target : Z).

(** The content of [#lawyersGrid]: emptied while loading, the
    no-lawyers panel, or the cards, each with or without its connect
    button. *)
Inductive LawyersGrid :=
| GridCleared
| NoLawyersFound
| LawyerCards (cards : list (Lawyer * bool)).

(** The connection form as submitted. *)
Record ConnectionForm := {
  form_lawyer_id : string;
  form_case_description : string;
  form_urgent : bool
}.

(** A request that was issued.  [PConnect] keeps the [lawyer_id] field as
    it is in the form; the script sends [parseInt] of it. *)
Inductive Pending :=
| PSearch (params : SearchParams)
| PConnect (lawyer_id : string) (case_description : string) (urgent : bool)
| PProfile (lawyerId : string).

Definition is_search (p : Pending) : bool :=
  match p with PSearch _ => true | _ => false end.

Record State := {
  currentLawyers : list Lawyer;
  currentPage : Z;
  totalPages : Z;
  isLoading : bool;
  (* window.currentUser *)
  currentUser : ref User;
  (* the page *)
  controls : Controls;
  lawyersGrid : LawyersGrid;
  paginationItems : list PageItem;
  paginationListeners : nat;
  resultsCount : option (Z * Z * Z);
  loadingSpinner : bool;
  connectButton : bool;
  alerts : list Utils.Alert;
  (* the network *)
  requests : list Pending;
  inflight : list Pending
}.

Definition set_search_result (ls : list Lawyer) (p t : Z) (st : State) : State :=
  {| currentLawyers := ls; currentPage := p; totalPages := t;
     isLoading := isLoading st; currentUser := currentUser st;
     controls := controls st; lawyersGrid := lawyersGrid st;
     paginationItems := paginationItems st;
     paginationListeners := paginationListeners st;
     resultsCount := resultsCount st; loadingSpinner := loadingSpinner st;
     connectButton := connectButton st; alerts := alerts st;
     requests := requests st; inflight := inflight st |}.

Definition set_currentPage (p : Z) (st : State) : State :=
  set_search_result (currentLawyers st) p (totalPages st) st.

Definition set_isLoading (v : bool) (st : State) : State :=
  {| currentLawyers := currentLawyers st; currentPage := currentPage st;
     totalPages := totalPages st;
     isLoading := v; currentUser := currentUser st;
     controls := controls st; lawyersGrid := lawyersGrid st;
     paginationItems := paginationItems st;
     paginationListeners := paginationListeners st;
     resultsCount := resultsCount st; loadingSpinner := loadingSpinner st;
     connectButton := connectButton st; alerts := alerts st;
     requests := requests st; inflight := inflight st |}.

Definition set_currentUser (u : ref User) (st : State) : State :=
  {| currentLawyers := currentLawyers st; currentPage := currentPage st;
     totalPages := totalPages st;
     isLoading := isLoading st; currentUser := u;
     controls := controls st; lawyersGrid := lawyersGrid st;
     paginationItems := paginationItems st;
     paginationListeners := paginationListeners st;
     resultsCount := resultsCount st; loadingSpinner := loadingSpinner st;
     connectButton := connectButton st; alerts := alerts st;
     requests := requests st; inflight := inflight st |}.

Definition set_controls (c : Controls) (st : State) : State :=
  {| currentLawyers := currentLawyers st; currentPage := currentPage st;
     totalPages := totalPages st;
     isLoading := isLoading st; currentUser := currentUser st;
     controls := c; lawyersGrid := lawyersGrid st;
     paginationItems := paginationItems st;
     paginationListeners := paginationListeners st;
     resultsCount := resultsCount st; loadingSpinner := loadingSpinner st;
     connectButton := connectButton st; alerts := alerts st;
     requests := requests st; inflight := inflight st |}.

Definition set_lawyersGrid (g : LawyersGrid) (st : State) : State :=
  {| currentLawyers := currentLawyers st; currentPage := currentPage st;
     totalPages := totalPages st;
     isLoading := isLoading st; currentUser := currentUser st;
     controls := controls st; lawyersGrid := g;
     paginationItems := paginationItems st;
     paginationListeners := paginationListeners st;
     resultsCount := resultsCount st; loadingSpinner := loadingSpinner st;
     connectButton := connectButton st; alerts := alerts st;
     requests := requests st; inflight := inflight st |}.

Definition set_pagination (items : list PageItem) (listeners : nat) (st : State) : State :=
  {| currentLawyers := currentLawyers st; currentPage := currentPage st;
     totalPages := totalPages st;
     isLoading := isLoading st; currentUser := currentUser st;
     controls := controls st; lawyersGrid := lawyersGrid st;
     paginationItems := items;
     paginationListeners := listeners;
     resultsCount := resultsCount st; loadingSpinner := loadingSpinner st;
     connectButton := connectButton st; alerts := alerts st;
     requests := requests st; inflight := inflight st |}.

Definition set_resultsCount (v : option (Z * Z * Z)) (st : State) : State :=
  {| currentLawyers := currentLawyers st; currentPage := currentPage st;
     totalPages := totalPages st;
     isLoading := isLoading st; currentUser := currentUser st;
     controls := controls st; lawyersGrid := lawyersGrid st;
     paginationItems := paginationItems st;
     paginationListeners := paginationListeners st;
     resultsCount := v; loadingSpinner := loadingSpinner st;
     connectButton := connectButton st; alerts := alerts st;
     requests := requests st; inflight := inflight st |}.

Definition set_loadingSpinner (v : bool) (st : State) : State :=
  {| currentLawyers := currentLawyers st; currentPage := currentPage st;
     totalPages := totalPages st;
     isLoading := isLoading st; currentUser := currentUser st;
     controls := controls st; lawyersGrid := lawyersGrid st;
     paginationItems := paginationItems st;
     paginationListeners := paginationListeners st;
     resultsCount := resultsCount st; loadingSpinner := v;
     connectButton := connectButton st; alerts := alerts st;
     requests := requests st; inflight := inflight st |}.

Definition set_connectButton (v : bool) (st : State) : State :=
  {| currentLawyers := currentLawyers st; currentPage := currentPage st;
     totalPages := totalPages st;
     isLoading := isLoading st; currentUser := currentUser st;
     controls := controls st; lawyersGrid := lawyersGrid st;
     paginationItems := paginationItems st;
     paginationListeners := paginationListeners st;
     resultsCount := resultsCount st; loadingSpinner := loadingSpinner st;
     connectButton := v; alerts := alerts st;
     requests := requests st; inflight := inflight st |}.

Definition set_alerts (v : list Utils.Alert) (st : State) : State :=
  {| currentLawyers := currentLawyers st; currentPage := currentPage st;
     totalPages := totalPages st;
     isLoading := isLoading st; currentUser := currentUser st;
     controls := controls st; lawyersGrid := lawyersGrid st;
     paginationItems := paginationItems st;
     paginationListeners := paginationListeners st;
     resultsCount := resultsCount st; loadingSpinner := loadingSpinner st;
     connectButton := connectButton st; alerts := v;
     requests := requests st; inflight := inflight st |}.

Definition set_network (reqs fl : list Pending) (st : State) : State :=
  {| currentLawyers := currentLawyers st; currentPage := currentPage st;
     totalPages := totalPages st;
     isLoading := isLoading st; currentUser := currentUser st;
     controls := controls st; lawyersGrid := lawyersGrid st;
     paginationItems := paginationItems st;
     paginationListeners := paginationListeners st;
     resultsCount := resultsCount st; loadingSpinner := loadingSpinner st;
     connectButton := connectButton st; alerts := alerts st;
     requests := reqs; inflight := fl |}.

Definition send (p : Pending) (st : State) : State :=
  set_network (requests st ++ [p]) (inflight st ++ [p]) st.

Definition settle (i : nat) (st : State) : State :=
  set_network (requests st) (base.delete i (inflight st)) st.

Definition alert (message type : string) (st : State) : State :=
  set_alerts (Utils.showAlert message type (alerts st)) st.

(** [showLoading(show)]: the spinner, and the grid emptied when the
    loading starts. *)
Definition showLoading (show : bool) (st : State) : State :=
  let st := set_loadingSpinner show st in
  if show then set_lawyersGrid GridCleared st else st.

(** [renderLawyers(lawyers)]: a card per lawyer, with the connect button
    where [canConnect] holds for the user of the moment. *)
Definition renderLawyers (ls : list Lawyer) (st : State) : State :=
  match ls with
  | [] => set_lawyersGrid NoLawyersFound st
  | _ :: _ =>
      set_lawyersGrid
        (LawyerCards (map (fun l => (l, truthy (canConnect (currentUser st) l))) ls))
        st
  end.

(** The items [renderPagination] writes for a current page and a number
    of pages. *)
Definition pagination_items (current total : Z) : list PageItem :=
  let startPage := Z.max 1 (current - 2) in
  let endPage := Z.min total (current + 2) in
  [Previous (current <=? 1)%Z (current - 1)]
  ++ (if (1 <? startPage)%Z
      then PageLink 1 false :: (if (2 <? startPage)%Z then [Ellipsis] else [])
      else [])
  ++ map (fun i => PageLink i (i =? current)%Z) (seqZ startPage (endPage - startPage + 1))
  ++ (if (endPage <? total)%Z
      then (if (endPage <? total - 1)%Z then [Ellipsis] else [])
           ++ [PageLink total false]
      else [])
  ++ [Next (total <=? current)%Z (current + 1)].

(** [renderPagination]: with one page or none the bar is emptied;
    otherwise the items are written and one more click listener is added
    to the container. *)
Definition renderPagination (st : State) : State :=
  if (totalPages st <=? 1)%Z then set_pagination [] (paginationListeners st) st
  else
    set_pagination (pagination_items (currentPage st) (totalPages st))
      (S (paginationListeners st)) st.

Definition updateResultsCount (total : Z) (st : State) : State :=
  set_resultsCount (Some (total, currentPage st, totalPages st)) st.

Definition loadLawyers (p : Z) (st : State) : State :=
  if isLoading st then st
  else
    let st := set_isLoading true st in
    let st := showLoading true st in
    send (PSearch (with_page p (buildSearchParams (controls st)))) st.

Definition loadLawyers_done (r : API.Settled SearchResponse) (st : State) : State :=
  let attempt : Outcome string State :=
    match r with
    | API.Failed e => Throws e
    | API.Succeeded response =>
        let st := set_search_result (lawyers response)
                    (pg_page (pagination response))
                    (pg_pages (pagination response)) st in
        let st := renderLawyers (currentLawyers st) st in
        let st := renderPagination st in
        Returns (updateResultsCount (pg_total (pagination response)) st)
    | API.Unsuccessful m => Throws (or_default m "Failed to load lawyers")
    end in
  let st :=
    match attempt with
    | Returns st' => st'
    | Throws e =>
        renderLawyers [] (alert ("Failed to load lawyers: " +:+ e) "error" st)
    end in
  showLoading false (set_isLoading false st).

Definition performSearch (st : State) : State :=
  loadLawyers 1 (set_currentPage 1 st).

(** [setViewMode(mode)] redraws the cards; the layout itself is not part
    of the model. *)
Definition setViewMode (st : State) : State :=
  renderLawyers (currentLawyers st) st.

(** One click listener of the pagination container, for a click on an
    item of the bar. *)
Definition page_listener (item : PageItem) (st : State) : State :=
  let go (target : Z) :=
    if (1 <=? target)%Z && (target <=? totalPages st)%Z
    then loadLawyers target st else st in
  match item with
  | Ellipsis => st
  | Previous disabled target | Next disabled target =>
      if disabled then st else go target
  | PageLink target _ => go target
  end.

(** A click on an item: every listener that was added runs. *)
Definition page_click (item : PageItem) (st : State) : State :=
  Nat.iter (paginationListeners st) (page_listener item) st.

Definition handleConnectionRequest (form : ConnectionForm) (st : State) : State :=
  let case_description := trim (form_case_description form) in
  if negb (nonempty case_description) then
    alert "Please provide a case description." "warning" st
  else send (PConnect (form_lawyer_id form) case_description (form_urgent form)) st.

Definition handleConnectionRequest_done (r : API.Settled unit) (st : State) : State :=
  let attempt : Outcome string State :=
    match r with
    | API.Failed e => Throws e
    | API.Succeeded _ =>
        let st := alert "Connection request sent successfully!" "success" st in
        Returns (loadLawyers (currentPage st) st)
    | API.Unsuccessful m => Throws (or_default m "Failed to send connection request")
    end in
  match attempt with
  | Returns st' => st'
  | Throws e => alert ("Failed to send request: " +:+ e) "error" st
  end.

Definition viewLawyerProfile (lawyerId : string) (st : State) : State :=
  send (PProfile lawyerId) st.

(** [showLawyerProfileModal]: the connect button of the modal. *)
Definition showLawyerProfileModal (lawyer : Lawyer) (connectionStatus : value)
    (st : State) : State :=
  set_connectButton
    (truthy (canConnect (currentUser st) lawyer) && negb (truthy connectionStatus)) st.

Definition viewLawyerProfile_done (r : API.Settled (Lawyer * value)) (st : State) : State :=
  let attempt : Outcome string State :=
    match r with
    | API.Failed e => Throws e
    | API.Succeeded (lawyer, connectionStatus) =>
        Returns (showLawyerProfileModal lawyer connectionStatus st)
    | API.Unsuccessful m => Throws (or_default m "Failed to load profile")
    end in
  match attempt with
  | Returns st' => st'
  | Throws e => alert ("Failed to load profile: " +:+ e) "error" st
  end.

(** [Session.checkAuth], when its request settles: the new value of
    [window.currentUser] and the value returned.  The payload of a
    successful body is its [authenticated] flag and its [user]. *)
Definition checkAuth_done (r : API.Settled (bool * ref User)) : ref User * bool :=
  match r with
  | API.Succeeded (true, user) => (user, true)
  | API.Succeeded (false, _) => (RNull, false)
  | API.Unsuccessful _ => (RNull, false)
  | API.Failed _ => (RNull, false)
  end.

(** The constructor: [init] loads the first page (the list of
    specializations it also asks for is outside this model).
    [window.currentUser] starts as [null]; the page has the grid, the
    pagination bar and the connect button of the modal. *)
Definition constructor (c : Controls) : State :=
  loadLawyers 1
    {| currentLawyers := []; currentPage := 1; totalPages := 1;
       isLoading := false; currentUser := RNull;
       controls := c; lawyersGrid := GridCleared;
       paginationItems := []; paginationListeners := 0;
       resultsCount := None; loadingSpinner := false;
       connectButton := false; alerts := [];
       requests := []; inflight := [] |}.

Inductive Event :=
| EditControls (c : Controls)
| Search
| ToggleView
| ClickPageItem (k : nat)
| SubmitConnection (form : ConnectionForm)
| ClickViewProfile (lawyerId : string)
| AuthSettles (r : API.Settled (bool * ref User))
| SearchSettles (i : nat) (r : API.Settled SearchResponse)
| ConnectSettles (i : nat) (r : API.Settled unit)
| ProfileSettles (i : nat) (r : API.Settled (Lawyer * value)).

Definition step (e : Event) (st : State) : option State :=
  match e with
  | EditControls c => Some (set_controls c st)
  | Search => Some (performSearch st)
  | ToggleView => Some (setViewMode st)
  | ClickPageItem k =>
      match paginationItems st !! k with
      | Some item => Some (page_click item st)
      | None => None
      end
  | SubmitConnection form => Some (handleConnectionRequest form st)
  | ClickViewProfile lawyerId => Some (viewLawyerProfile lawyerId st)
  | AuthSettles r => Some (set_currentUser (fst (checkAuth_done r)) st)
  | SearchSettles i r =>
      match inflight st !! i with
      | Some (PSearch _) => Some (loadLawyers_done r (settle i st))
      | _ => None
      end
  | ConnectSettles i r =>
      match inflight st !! i with
      | Some (PConnect _ _ _) => Some (handleConnectionRequest_done r (settle i st))
      | _ => None
      end
  | ProfileSettles i r =>
      match inflight st !! i with
      | Some (PProfile _) => Some (viewLawyerProfile_done r (settle i st))
      | _ => None
      end
  end.

Fixpoint run (events : list Event) (st : State) : option State :=
  match events with
  | [] => Some st
  | e :: rest =>
      match step e st with
      | Some st' => run rest st'
      | None => None
      end
  end.

Definition searches_in_flight (st : State) : nat :=
  length (List.filter is_search (inflight st)).

End LawyerNetwork.

(** ** Document manager (documents.js) *)

Module DocumentManager.
Import JS Utils API.

Record File := { file_name : string; file_size : Z; file_type : string }.

Record Document := {
  doc_id : Z;
  doc_title : string;
  doc_summary : option string;
  doc_analysis_status : option string
}.

#[global] Instance File_eq_dec : EqDecision File.
Proof. solve_decision. Defined.

#[global] Instance Document_eq_dec : EqDecision Document.
Proof. solve_decision. Defined.

(** The content of [#documentsGrid]: the spinner, the empty-state panel, or
    one card per document.  The manager is only constructed on a page that
    has this element, and the progress bar and the file input are taken to
    be on the page too; the two controls the script reads with [?.] are
    optional ([typeFilter], [documentSearch] below). *)
Inductive Grid :=
| GridLoading
| GridEmpty
| GridCards (docs : list Document).

(** A request that was issued, with what awaits it. *)
Inductive Pending :=
| PUpload (file : File) (title : string)
| PLoadDocuments
| PAnalyze (docId : string)
| PView (docId : string)
| PDelete (docId : string).

Definition is_upload (p : Pending) : bool :=
  match p with PUpload _ _ => true | _ => false end.

Record State := {
  currentDocuments : list Document;
  uploadInProgress : bool;
  (* the page *)
  alerts : list Alert;
  documentsGrid : Grid;
  uploadProgress : bool;
  typeFilter : option string;
  documentSearch : option string;
  documentFile : list File;
  documentModal : option Document;
  (* the network *)
  requests : list Pending;
  inflight : list Pending
}.

Definition set_currentDocuments (v : list Document) (st : State) : State :=
  {| currentDocuments := v; uploadInProgress := uploadInProgress st;
     alerts := alerts st; documentsGrid := documentsGrid st;
     uploadProgress := uploadProgress st; typeFilter := typeFilter st;
     documentSearch := documentSearch st; documentFile := documentFile st;
     documentModal := documentModal st;
     requests := requests st; inflight := inflight st |}.

Definition set_uploadInProgress (v : bool) (st : State) : State :=
  {| currentDocuments := currentDocuments st; uploadInProgress := v;
     alerts := alerts st; documentsGrid := documentsGrid st;
     uploadProgress := uploadProgress st; typeFilter := typeFilter st;
     documentSearch := documentSearch st; documentFile := documentFile st;
     documentModal := documentModal st;
     requests := requests st; inflight := inflight st |}.

Definition set_alerts (v : list Alert) (st : State) : State :=
  {| currentDocuments := currentDocuments st; uploadInProgress := uploadInProgress st;
     alerts := v; documentsGrid := documentsGrid st;
     uploadProgress := uploadProgress st; typeFilter := typeFilter st;
     documentSearch := documentSearch st; documentFile := documentFile st;
     documentModal := documentModal st;
     requests := requests st; inflight := inflight st |}.

Definition set_documentsGrid (v : Grid) (st : State) : State :=
  {| currentDocuments := currentDocuments st; uploadInProgress := uploadInProgress st;
     alerts := alerts st; documentsGrid := v;
     uploadProgress := uploadProgress st; typeFilter := typeFilter st;
     documentSearch := documentSearch st; documentFile := documentFile st;
     documentModal := documentModal st;
     requests := requests st; inflight := inflight st |}.

Definition set_uploadProgress (v : bool) (st : State) : State :=
  {| currentDocuments := currentDocuments st; uploadInProgress := uploadInProgress st;
     alerts := alerts st; documentsGrid := documentsGrid st;
     uploadProgress := v; typeFilter := typeFilter st;
     documentSearch := documentSearch st; documentFile := documentFile st;
     documentModal := documentModal st;
     requests := requests st; inflight := inflight st |}.

Definition set_typeFilter (v : option string) (st : State) : State :=
  {| currentDocuments := currentDocuments st; uploadInProgress := uploadInProgress st;
     alerts := alerts st; documentsGrid := documentsGrid st;
     uploadProgress := uploadProgress st; typeFilter := v;
     documentSearch := documentSearch st; documentFile := documentFile st;
     documentModal := documentModal st;
     requests := requests st; inflight := inflight st |}.

Definition set_documentSearch (v : option string) (st : State) : State :=
  {| currentDocuments := currentDocuments st; uploadInProgress := uploadInProgress st;
     alerts := alerts st; documentsGrid := documentsGrid st;
     uploadProgress := uploadProgress st; typeFilter := typeFilter st;
     documentSearch := v; documentFile := documentFile st;
     documentModal := documentModal st;
     requests := requests st; inflight := inflight st |}.

Definition set_documentFile (v : list File) (st : State) : State :=
  {| currentDocuments := currentDocuments st; uploadInProgress := uploadInProgress st;
     alerts := alerts st; documentsGrid := documentsGrid st;
     uploadProgress := uploadProgress st; typeFilter := typeFilter st;
     documentSearch := documentSearch st; documentFile := v;
     documentModal := documentModal st;
     requests := requests st; inflight := inflight st |}.

Definition set_documentModal (v : option Document) (st : State) : State :=
  {| currentDocuments := currentDocuments st; uploadInProgress := uploadInProgress st;
     alerts := alerts st; documentsGrid := documentsGrid st;
     uploadProgress := uploadProgress st; typeFilter := typeFilter st;
     documentSearch := documentSearch st; documentFile := documentFile st;
     documentModal := v;
     requests := requests st; inflight := inflight st |}.

Definition set_network (reqs fl : list Pending) (st : State) : State :=
  {| currentDocuments := currentDocuments st; uploadInProgress := uploadInProgress st;
     alerts := alerts st; documentsGrid := documentsGrid st;
     uploadProgress := uploadProgress st; typeFilter := typeFilter st;
     documentSearch := documentSearch st; documentFile := documentFile st;
     documentModal := documentModal st;
     requests := reqs; inflight := fl |}.

(** Issuing a request: it is logged and stays in flight until it settles. *)
Definition send (p : Pending) (st : State) : State :=
  set_network (requests st ++ [p]) (inflight st ++ [p]) st.

(** The request at position [i] of [inflight] settles. *)
Definition settle (i : nat) (st : State) : State :=
  set_network (requests st) (base.delete i (inflight st)) st.

Definition alert (message type : string) (st : State) : State :=
  set_alerts (showAlert message type (alerts st)) st.

(** *** The constructor's constants *)

Definition maxFileSize : Z := 50 * 1024 * 1024.

Definition allowedTypes : list string :=
  [ "application/pdf";
    "application/msword";
    "application/vnd.openxmlformats-officedocument.wordprocessingml.document";
    "text/plain" ].

(** *** Validation and upload *)

Definition validateFile (file : File) (st : State) : bool * State :=
  if (maxFileSize <? file_size file)%Z then
    (false,
     alert ("File " +:+ dquote +:+ file_name file +:+ dquote
            +:+ " is too large. Maximum size is 50MB.") "error" st)
  else if negb (bool_decide (file_type file ∈ allowedTypes)) then
    (false,
     alert ("File " +:+ dquote +:+ file_name file +:+ dquote
            +:+ " type is not supported. Please upload PDF, DOC, DOCX, or TXT files.")
           "error" st)
  else (true, st).

(** [name.replace(/\.[^/.]+$/, "")]: drops a final extension, that is a dot
    followed to the end of the name by one or more characters other than
    a dot and a slash. *)
Definition extension_char (c : ascii) : bool :=
  negb (Ascii.eqb c "."%char || Ascii.eqb c "/"%char).

Fixpoint all_chars (p : ascii -> bool) (s : string) : bool :=
  match s with
  | EmptyString => true
  | String c rest => p c && all_chars p rest
  end.

Fixpoint strip_extension (name : string) : string :=
  match name with
  | EmptyString => EmptyString
  | String c rest =>
      if Ascii.eqb c "."%char && nonempty rest && all_chars extension_char rest
      then EmptyString
      else String c (strip_extension rest)
  end.

Definition showUploadProgress (show : bool) (st : State) : State :=
  set_uploadProgress show st.

Definition uploadFile (file : File) (st : State) : State :=
  if uploadInProgress st then
    alert "Another upload is in progress. Please wait." "warning" st
  else
    let st := set_uploadInProgress true st in
    let st := showUploadProgress true st in
    send (PUpload file (strip_extension (file_name file))) st.

Definition processFiles (files : list File) (st : State) : State :=
  fold_left
    (fun st file =>
       let '(valid, st) := validateFile file st in
       if valid then uploadFile file st else st)
    files st.

Definition handleDrop (files : list File) (st : State) : State :=
  match files with
  | [] => st
  | _ :: _ => processFiles files st
  end.

Definition handleFileSelect (files : list File) (st : State) : State :=
  match files with
  | [] => st
  | _ :: _ => processFiles files st
  end.

Definition handleUpload (st : State) : State :=
  match documentFile st with
  | [] => alert "Please select a file to upload." "warning" st
  | file :: _ => uploadFile file st
  end.

(** *** Loading and rendering the collection *)

Definition renderDocuments (documents : list Document) (st : State) : State :=
  match documents with
  | [] => set_documentsGrid GridEmpty st
  | _ :: _ => set_documentsGrid (GridCards documents) st
  end.

Definition showDocumentsLoading (show : bool) (st : State) : State :=
  if show then set_documentsGrid GridLoading st else st.

Definition loadDocuments (st : State) : State :=
  send PLoadDocuments (showDocumentsLoading true st).

Definition loadDocuments_done (r : Settled (list Document)) (st : State) : State :=
  let attempt : Outcome string State :=
    match r with
    | Failed e => Throws e
    | Succeeded documents =>
        Returns (renderDocuments documents (set_currentDocuments documents st))
    | Unsuccessful m => Throws (or_default m "Failed to load documents")
    end in
  let st :=
    match attempt with
    | Returns st' => st'
    | Throws e =>
        renderDocuments [] (alert ("Failed to load documents: " +:+ e) "error" st)
    end in
  showDocumentsLoading false st.

Definition clearUploadForm (st : State) : State := set_documentFile [] st.

Definition uploadFile_done (r : Settled unit) (st : State) : State :=
  let attempt : Outcome string State :=
    match r with
    | Failed e => Throws e
    | Succeeded _ =>
        let st := alert "Document uploaded and analyzed successfully!" "success" st in
        let st := loadDocuments st in
        Returns (clearUploadForm st)
    | Unsuccessful m => Throws (or_default m "Upload failed")
    end in
  let st :=
    match attempt with
    | Returns st' => st'
    | Throws e => alert ("Upload failed: " +:+ e) "error" st
    end in
  showUploadProgress false (set_uploadInProgress false st).

Definition analyzeDocument (docId : string) (st : State) : State :=
  send (PAnalyze docId) st.

Definition analyzeDocument_done (r : Settled unit) (st : State) : State :=
  let attempt : Outcome string State :=
    match r with
    | Failed e => Throws e
    | Succeeded _ =>
        Returns (loadDocuments
                   (alert "Document analysis started successfully!" "success" st))
    | Unsuccessful m => Throws (or_default m "Analysis failed")
    end in
  match attempt with
  | Returns st' => st'
  | Throws e => alert ("Analysis failed: " +:+ e) "error" st
  end.

Definition viewDocument (docId : string) (st : State) : State :=
  send (PView docId) st.

(** [showDocumentModal(document)]: the parameter shadows the global
    [document], so [document.getElementById] is looked up on the document
    record of the response, which has no such method, and the call throws
    a [TypeError] before any element is touched.  [typeError] is the
    message the engine gives that error. *)
Definition showDocumentModal (typeError : string) (document : Document) (st : State)
    : Outcome string State :=
  Throws typeError.

(** [viewDocument], when its request settles: the call of
    [showDocumentModal] is inside the [try], so its [TypeError] is caught
    like a failure of the request. *)
Definition viewDocument_done (typeError : string) (r : Settled Document) (st : State)
    : State :=
  let attempt : Outcome string State :=
    match r with
    | Failed e => Throws e
    | Succeeded document => showDocumentModal typeError document st
    | Unsuccessful m => Throws (or_default m "Failed to load document")
    end in
  match attempt with
  | Returns st' => st'
  | Throws e => alert ("Failed to load document: " +:+ e) "error" st
  end.

Definition deleteDocument (docId : string) (confirmed : bool) (st : State) : State :=
  if negb confirmed then st else send (PDelete docId) st.

Definition deleteDocument_done (r : Settled unit) (st : State) : State :=
  let attempt : Outcome string State :=
    match r with
    | Failed e => Throws e
    | Succeeded _ =>
        Returns (loadDocuments (alert "Document deleted successfully!" "success" st))
    | Unsuccessful m => Throws (or_default m "Delete failed")
    end in
  match attempt with
  | Returns st' => st'
  | Throws e => alert ("Delete failed: " +:+ e) "error" st
  end.

(** *** Search and type filter *)

Definition matches_search (searchInput : string) (doc : Document) : bool :=
  includes (toLowerCase (doc_title doc)) (toLowerCase searchInput)
  || match doc_summary doc with
     | Some s => nonempty s && includes (toLowerCase s) (toLowerCase searchInput)
     | None => false
     end.

Definition matches_type (typeFilter : string) (doc : Document) : bool :=
  bool_decide (doc_analysis_status doc = Some typeFilter).

Definition filterDocuments (searchTerm : string) (st : State) : State :=
  let typeFilter := or_default (typeFilter st) EmptyString in
  let searchInput := or_default (documentSearch st) searchTerm in
  let filteredDocs := currentDocuments st in
  let filteredDocs :=
    if nonempty searchInput
    then List.filter (matches_search searchInput) filteredDocs
    else filteredDocs in
  let filteredDocs :=
    if nonempty typeFilter
    then List.filter (matches_type typeFilter) filteredDocs
    else filteredDocs in
  renderDocuments filteredDocs st.

(** *** The manager as a transition system *)

(** The elements of the page that the script looks up and tolerates the
    absence of. *)
Record Page := { page_typeFilter : option string; page_documentSearch : option string }.

Definition constructor (page : Page) : State :=
  loadDocuments
    {| currentDocuments := []; uploadInProgress := false;
       alerts := []; documentsGrid := GridLoading; uploadProgress := false;
       typeFilter := page_typeFilter page;
       documentSearch := page_documentSearch page;
       documentFile := []; documentModal := None;
       requests := []; inflight := [] |}.

(** What can happen next: the user acts on the page, or one of the requests
    in flight settles. *)
Inductive Event :=
| FileSelect (files : list File)
| Drop (files : list File)
| Submit
| ClickAnalyze (docId : string)
| ClickView (docId : string)
| ClickDelete (docId : string) (confirmed : bool)
| SearchInput (text : string)
| TypeFilterChange (selected : string)
| UploadSettles (i : nat) (r : Settled unit)
| DocumentsSettle (i : nat) (r : Settled (list Document))
| AnalyzeSettles (i : nat) (r : Settled unit)
| ViewSettles (i : nat) (r : Settled Document) (typeError : string)
| DeleteSettles (i : nat) (r : Settled unit).

(** [None]: the event cannot happen in this state (the element is not on
    the page, or no such request is in flight). *)
Definition step (e : Event) (st : State) : option State :=
  match e with
  | FileSelect files => Some (handleFileSelect files (set_documentFile files st))
  | Drop files => Some (handleDrop files st)
  | Submit => Some (handleUpload st)
  | ClickAnalyze docId => Some (analyzeDocument docId st)
  | ClickView docId => Some (viewDocument docId st)
  | ClickDelete docId confirmed => Some (deleteDocument docId confirmed st)
  | SearchInput text =>
      match documentSearch st with
      | Some _ => Some (filterDocuments text (set_documentSearch (Some text) st))
      | None => None
      end
  | TypeFilterChange selected =>
      match typeFilter st with
      | Some _ => Some (filterDocuments EmptyString (set_typeFilter (Some selected) st))
      | None => None
      end
  | UploadSettles i r =>
      match inflight st !! i with
      | Some (PUpload _ _) => Some (uploadFile_done r (settle i st))
      | _ => None
      end
  | DocumentsSettle i r =>
      match inflight st !! i with
      | Some PLoadDocuments => Some (loadDocuments_done r (settle i st))
      | _ => None
      end
  | AnalyzeSettles i r =>
      match inflight st !! i with
      | Some (PAnalyze _) => Some (analyzeDocument_done r (settle i st))
      | _ => None
      end
  | ViewSettles i r typeError =>
      match inflight st !! i with
      | Some (PView _) => Some (viewDocument_done typeError r (settle i st))
      | _ => None
      end
  | DeleteSettles i r =>
      match inflight st !! i with
      | Some (PDelete _) => Some (deleteDocument_done r (settle i st))
      | _ => None
      end
  end.

Fixpoint run (events : list Event) (st : State) : option State :=
  match events with
  | [] => Some st
  | e :: rest =>
      match step e st with
      | Some st' => run rest st'
      | None => None
      end
  end.

(** Upload requests that were issued and have not settled. *)
Definition uploads_in_flight (st : State) : nat :=
  length (List.filter is_upload (inflight st)).

(** The documents shown as cards. *)
Definition rendered (g : Grid) : list Document :=
  match g with
  | GridCards docs => docs
  | _ => []
  end.

(** [text] contains [term] up to letter case: some segment of [text] equals
    [term] once both are lower-cased. *)
Definition contains_ignoring_case (text term : string) : Prop :=
  exists before segment after,
    text = before +:+ segment +:+ after /\ toLowerCase segment = toLowerCase term.

(** *** Status badge *)

Definition getStatusClass (status : option string) : string :=
  match status with
  | Some s =>
      if String.eqb s "completed" then "bg-success"
      else if String.eqb s "processing" then "bg-warning"
      else if String.eqb s "failed" then "bg-danger"
      else "bg-secondary"
  | None => "bg-secondary"
  end.

Definition getStatusIcon (status : option string) : string :=
  match status with
  | Some s =>
      if String.eqb s "completed" then "fas fa-check"
      else if String.eqb s "processing" then "fas fa-spinner fa-spin"
      else if String.eqb s "failed" then "fas fa-exclamation-triangle"
      else "fas fa-clock"
  | None => "fas fa-clock"
  end.

End DocumentManager.

(** ** Chat manager *)

Module ChatBot.
Import JS Utils API.

Record Session := {
  session_id : Z;
  session_title : string;
  updated_at : string;
  message_count : option Z
}.

Record Message := {
  message_type : string;
  content : string;
  created_at : string;
  sources : option (list string)
}.

#[global] Instance Session_eq_dec : EqDecision Session.
Proof. solve_decision. Defined.

#[global] Instance Message_eq_dec : EqDecision Message.
Proof. solve_decision. Defined.

(** The content of [#chatSessions]: what the template put there, the
    failure panel, the empty-state panel, or the list with its active
    entry. *)
Inductive SessionsPanel :=
| SessionsTemplate
| SessionsFailed
| SessionsEmpty
| SessionsList (items : list Session) (active : option Z).

(** The children of [#chatMessages]: the welcome block (class
    [welcome-message]), the start-the-conversation block, or a message. *)
Inductive Node :=
| WelcomeMessage
| StartConversation
| MessageNode (m : Message).

(** A request that was issued, with what awaits it.  [PCreate] remembers the
    message of a [sendMessage] that is awaiting the new session. *)
Inductive Pending :=
| PSessions
| PCreate (title : string) (awaiting : option string)
| PMessages (sessionId : Z)
| PChat (sessionId : option Z) (message : string)
| PDelete (sessionId : Z).

Definition is_chat (p : Pending) : bool :=
  match p with PChat _ _ => true | _ => false end.

(** The two readings of the clock the script takes. *)
Record Clock := { toISOString : string; toLocaleString : string }.

Record State := {
  currentSessionId : option Z;
  sessions : list Session;
  isTyping : bool;
  (* the page *)
  chatSessions : SessionsPanel;
  chatMessages : list Node;
  chatTitle : string;
  chatSubtitle : string;
  chatActions : bool;
  messageInput : string;
  typingIndicator : bool;
  sendButtonDisabled : bool;
  loadingOverlay : bool;
  alerts : list Alert;
  (* the network *)
  requests : list Pending;
  inflight : list Pending
}.

Definition set_currentSessionId (v : option Z) (st : State) : State :=
  {| currentSessionId := v; sessions := sessions st; isTyping := isTyping st;
     chatSessions := chatSessions st; chatMessages := chatMessages st;
     chatTitle := chatTitle st; chatSubtitle := chatSubtitle st;
     chatActions := chatActions st; messageInput := messageInput st;
     typingIndicator := typingIndicator st;
     sendButtonDisabled := sendButtonDisabled st;
     loadingOverlay := loadingOverlay st; alerts := alerts st;
     requests := requests st; inflight := inflight st |}.

Definition set_sessions (v : list Session) (st : State) : State :=
  {| currentSessionId := currentSessionId st; sessions := v; isTyping := isTyping st;
     chatSessions := chatSessions st; chatMessages := chatMessages st;
     chatTitle := chatTitle st; chatSubtitle := chatSubtitle st;
     chatActions := chatActions st; messageInput := messageInput st;
     typingIndicator := typingIndicator st;
     sendButtonDisabled := sendButtonDisabled st;
     loadingOverlay := loadingOverlay st; alerts := alerts st;
     requests := requests st; inflight := inflight st |}.

Definition set_typing (v : bool) (st : State) : State :=
  {| currentSessionId := currentSessionId st; sessions := sessions st; isTyping := v;
     chatSessions := chatSessions st; chatMessages := chatMessages st;
     chatTitle := chatTitle st; chatSubtitle := chatSubtitle st;
     chatActions := chatActions st; messageInput := messageInput st;
     typingIndicator := v;
     sendButtonDisabled := v;
     loadingOverlay := loadingOverlay st; alerts := alerts st;
     requests := requests st; inflight := inflight st |}.

Definition set_chatSessions (v : SessionsPanel) (st : State) : State :=
  {| currentSessionId := currentSessionId st; sessions := sessions st;
     isTyping := isTyping st;
     chatSessions := v; chatMessages := chatMessages st;
     chatTitle := chatTitle st; chatSubtitle := chatSubtitle st;
     chatActions := chatActions st; messageInput := messageInput st;
     typingIndicator := typingIndicator st;
     sendButtonDisabled := sendButtonDisabled st;
     loadingOverlay := loadingOverlay st; alerts := alerts st;
     requests := requests st; inflight := inflight st |}.

Definition set_chatMessages (v : list Node) (st : State) : State :=
  {| currentSessionId := currentSessionId st; sessions := sessions st;
     isTyping := isTyping st;
     chatSessions := chatSessions st; chatMessages := v;
     chatTitle := chatTitle st; chatSubtitle := chatSubtitle st;
     chatActions := chatActions st; messageInput := messageInput st;
     typingIndicator := typingIndicator st;
     sendButtonDisabled := sendButtonDisabled st;
     loadingOverlay := loadingOverlay st; alerts := alerts st;
     requests := requests st; inflight := inflight st |}.

Definition set_header (title subtitle : string) (actions : bool) (st : State) : State :=
  {| currentSessionId := currentSessionId st; sessions := sessions st;
     isTyping := isTyping st;
     chatSessions := chatSessions st; chatMessages := chatMessages st;
     chatTitle := title; chatSubtitle := subtitle;
     chatActions := actions; messageInput := messageInput st;
     typingIndicator := typingIndicator st;
     sendButtonDisabled := sendButtonDisabled st;
     loadingOverlay := loadingOverlay st; alerts := alerts st;
     requests := requests st; inflight := inflight st |}.

Definition set_messageInput (v : string) (st : State) : State :=
  {| currentSessionId := currentSessionId st; sessions := sessions st;
     isTyping := isTyping st;
     chatSessions := chatSessions st; chatMessages := chatMessages st;
     chatTitle := chatTitle st; chatSubtitle := chatSubtitle st;
     chatActions := chatActions st; messageInput := v;
     typingIndicator := typingIndicator st;
     sendButtonDisabled := sendButtonDisabled st;
     loadingOverlay := loadingOverlay st; alerts := alerts st;
     requests := requests st; inflight := inflight st |}.

Definition set_loadingOverlay (v : bool) (st : State) : State :=
  {| currentSessionId := currentSessionId st; sessions := sessions st;
     isTyping := isTyping st;
     chatSessions := chatSessions st; chatMessages := chatMessages st;
     chatTitle := chatTitle st; chatSubtitle := chatSubtitle st;
     chatActions := chatActions st; messageInput := messageInput st;
     typingIndicator := typingIndicator st;
     sendButtonDisabled := sendButtonDisabled st;
     loadingOverlay := v; alerts := alerts st;
     requests := requests st; inflight := inflight st |}.

Definition set_alerts (v : list Alert) (st : State) : State :=
  {| currentSessionId := currentSessionId st; sessions := sessions st;
     isTyping := isTyping st;
     chatSessions := chatSessions st; chatMessages := chatMessages st;
     chatTitle := chatTitle st; chatSubtitle := chatSubtitle st;
     chatActions := chatActions st; messageInput := messageInput st;
     typingIndicator := typingIndicator st;
     sendButtonDisabled := sendButtonDisabled st;
     loadingOverlay := loadingOverlay st; alerts := v;
     requests := requests st; inflight := inflight st |}.

Definition set_network (reqs fl : list Pending) (st : State) : State :=
  {| currentSessionId := currentSessionId st; sessions := sessions st;
     isTyping := isTyping st;
     chatSessions := chatSessions st; chatMessages := chatMessages st;
     chatTitle := chatTitle st; chatSubtitle := chatSubtitle st;
     chatActions := chatActions st; messageInput := messageInput st;
     typingIndicator := typingIndicator st;
     sendButtonDisabled := sendButtonDisabled st;
     loadingOverlay := loadingOverlay st; alerts := alerts st;
     requests := reqs; inflight := fl |}.

Definition send (p : Pending) (st : State) : State :=
  set_network (requests st ++ [p]) (inflight st ++ [p]) st.

Definition settle (i : nat) (st : State) : State :=
  set_network (requests st) (base.delete i (inflight st)) st.

Definition alert (message type : string) (st : State) : State :=
  set_alerts (showAlert message type (alerts st)) st.

(** ToBoolean of [this.currentSessionId]. *)
Definition session_selected (id : option Z) : bool :=
  match id with
  | Some n => negb (n =? 0)%Z
  | None => false
  end.

(** *** Session list *)

Definition renderSessions (st : State) : State :=
  match sessions st with
  | [] => set_chatSessions SessionsEmpty st
  | _ :: _ => set_chatSessions (SessionsList (sessions st) (currentSessionId st)) st
  end.

Definition loadSessions (st : State) : State := send PSessions st.

Definition loadSessions_done (r : Settled (list Session)) (st : State) : State :=
  match r with
  | Failed _ => set_chatSessions SessionsFailed st
  | Succeeded loaded => renderSessions (set_sessions loaded st)
  | Unsuccessful _ => st
  end.

(** *** Messages of a session *)

Definition count_messages (nodes : list Node) : nat :=
  length (List.filter (fun n => match n with MessageNode _ => true | _ => false end) nodes).

Definition messages_label (n : nat) : string :=
  string_of_Z (Z.of_nat n) +:+ " messages".

Definition renderMessages (messages : list Message) (st : State) : State :=
  match messages with
  | [] => set_chatMessages [StartConversation] st
  | _ :: _ => set_chatMessages (map MessageNode messages) st
  end.

Definition loadSession (sessionId : Z) (st : State) : State :=
  let st := set_currentSessionId (Some sessionId) st in
  let st := renderSessions st in
  send (PMessages sessionId) st.

Definition loadSession_done (r : Settled (Session * list Message)) (st : State) : State :=
  match r with
  | Failed _ => alert "Failed to load chat session" "danger" st
  | Succeeded (session, messages) =>
      let st := renderMessages messages st in
      set_header (session_title session) (messages_label (length messages)) true st
  | Unsuccessful _ => st
  end.

(** [container.querySelector('.welcome-message')?.remove()]. *)
Fixpoint remove_welcome (nodes : list Node) : list Node :=
  match nodes with
  | [] => []
  | WelcomeMessage :: rest => rest
  | n :: rest => n :: remove_welcome rest
  end.

Definition addMessageToUI (m : Message) (st : State) : State :=
  let nodes := remove_welcome (chatMessages st) ++ [MessageNode m] in
  let st := set_chatMessages nodes st in
  set_header (chatTitle st) (messages_label (count_messages nodes)) (chatActions st) st.

Definition showTypingIndicator (st : State) : State := set_typing true st.

Definition hideTypingIndicator (st : State) : State := set_typing false st.

(** *** Creating a session and sending a message *)

Definition userMessage (text : string) (clock : Clock) : Message :=
  {| message_type := "user"; content := text;
     created_at := toISOString clock; sources := None |}.

Definition processingApology (clock : Clock) : Message :=
  {| message_type := "assistant";
     content := "I apologize, but I encountered an error processing your request. Please try again.";
     created_at := toISOString clock; sources := None |}.

Definition connectionApology (clock : Clock) : Message :=
  {| message_type := "assistant";
     content := "I apologize, but I'm having trouble connecting right now. Please try again in a moment.";
     created_at := toISOString clock; sources := None |}.

(** [sendMessage] from the point where a session is selected: the input is
    cleared, the user's message is shown, and the chat request is issued
    for [this.currentSessionId]. *)
Definition sendMessage_post (message : string) (clock : Clock) (st : State) : State :=
  let st := set_messageInput EmptyString st in
  let st := addMessageToUI (userMessage message clock) st in
  let st := showTypingIndicator st in
  send (PChat (currentSessionId st) message) st.

(** [createNewSession], called on its own ([awaiting = None]) or awaited by
    [sendMessage] ([awaiting = Some message]). *)
Definition createNewSession (awaiting : option string) (clock : Clock) (st : State) : State :=
  let st := set_loadingOverlay true st in
  send (PCreate ("Chat Session " +:+ toLocaleString clock) awaiting) st.

Definition createNewSession_done (r : Settled Session) (awaiting : option string)
    (clock : Clock) (st : State) : State :=
  let st :=
    match r with
    | Failed _ => alert "Failed to create new session" "danger" st
    | Succeeded session =>
        let st := set_sessions (session :: sessions st) st in
        let st := renderSessions st in
        let st := loadSession (session_id session) st in
        alert "New chat session created!" "success" st
    | Unsuccessful _ => st
    end in
  let st := set_loadingOverlay false st in
  match awaiting with
  | None => st
  | Some message =>
      if negb (session_selected (currentSessionId st)) then st
      else sendMessage_post message clock st
  end.

Definition sendMessage (clock : Clock) (st : State) : State :=
  let message := trim (messageInput st) in
  if negb (nonempty message) || isTyping st then st
  else if negb (session_selected (currentSessionId st)) then
    createNewSession (Some message) clock st
  else sendMessage_post message clock st.

Definition sendMessage_done (r : Settled Message) (clock : Clock) (st : State) : State :=
  match r with
  | Failed _ =>
      let st := hideTypingIndicator st in
      addMessageToUI (connectionApology clock) st
  | Succeeded ai_response =>
      let st := hideTypingIndicator st in
      let st := addMessageToUI ai_response st in
      loadSessions st
  | Unsuccessful _ =>
      let st := hideTypingIndicator st in
      addMessageToUI (processingApology clock) st
  end.

(** *** Deleting a session *)

Definition deleteSession (sessionId : Z) (confirmed : bool) (st : State) : State :=
  if negb confirmed then st else send (PDelete sessionId) st.

Definition deleteSession_done (sessionId : Z) (r : Settled unit) (st : State) : State :=
  match r with
  | Failed _ => alert "Failed to delete session" "danger" st
  | Succeeded _ | Unsuccessful _ =>
      let st := set_sessions (filter (fun s => session_id s <> sessionId) (sessions st)) st in
      let st := renderSessions st in
      let st :=
        if bool_decide (currentSessionId st = Some sessionId) then
          let st := set_currentSessionId None st in
          let st := set_chatMessages [WelcomeMessage] st in
          set_header "AI Legal Assistant" "Ask me anything about Indian law" false st
        else st in
      alert "Chat session deleted" "success" st
  end.

(** *** The manager as a transition system *)

(** The constructor; [init] starts by loading the session list.  The page
    comes from the template with the welcome block in the message area. *)
Definition constructor : State :=
  loadSessions
    {| currentSessionId := None; sessions := []; isTyping := false;
       chatSessions := SessionsTemplate; chatMessages := [WelcomeMessage];
       chatTitle := "AI Legal Assistant";
       chatSubtitle := "Ask me anything about Indian law";
       chatActions := false; messageInput := EmptyString;
       typingIndicator := false; sendButtonDisabled := false;
       loadingOverlay := false; alerts := [];
       requests := []; inflight := [] |}.

Inductive Event :=
| TypeText (text : string)
| PressSend (clock : Clock)
| ClickNewChat (clock : Clock)
| ClickSession (sessionId : Z)
| ClickDelete (sessionId : Z) (confirmed : bool)
| SessionsSettle (i : nat) (r : Settled (list Session))
| CreateSettles (i : nat) (r : Settled Session) (clock : Clock)
| MessagesSettle (i : nat) (r : Settled (Session * list Message))
| ChatSettles (i : nat) (r : Settled Message) (clock : Clock)
| DeleteSettles (i : nat) (r : Settled unit).

Definition step (e : Event) (st : State) : option State :=
  match e with
  | TypeText text => Some (set_messageInput text st)
  | PressSend clock => Some (sendMessage clock st)
  | ClickNewChat clock => Some (createNewSession None clock st)
  | ClickSession sessionId => Some (loadSession sessionId st)
  | ClickDelete sessionId confirmed => Some (deleteSession sessionId confirmed st)
  | SessionsSettle i r =>
      match inflight st !! i with
      | Some PSessions => Some (loadSessions_done r (settle i st))
      | _ => None
      end
  | CreateSettles i r clock =>
      match inflight st !! i with
      | Some (PCreate _ awaiting) =>
          Some (createNewSession_done r awaiting clock (settle i st))
      | _ => None
      end
  | MessagesSettle i r =>
      match inflight st !! i with
      | Some (PMessages _) => Some (loadSession_done r (settle i st))
      | _ => None
      end
  | ChatSettles i r clock =>
      match inflight st !! i with
      | Some (PChat _ _) => Some (sendMessage_done r clock (settle i st))
      | _ => None
      end
  | DeleteSettles i r =>
      match inflight st !! i with
      | Some (PDelete sessionId) => Some (deleteSession_done sessionId r (settle i st))
      | _ => None
      end
  end.

Fixpoint run (events : list Event) (st : State) : option State :=
  match events with
  | [] => Some st
  | e :: rest =>
      match step e st with
      | Some st' => run rest st'
      | None => None
      end
  end.

(** The requests issued between two states. *)
Definition issued_since (before after : State) : list Pending :=
  drop (length (requests before)) (requests after).

End ChatBot.

(** ** Login, registration and password forms *)

Module Auth.
Import JS Utils.

(** A value read with [formData.get(name)]: [None] when the form has no
    such field.  [filled] is its truthiness. *)
Definition filled (v : option string) : bool :=
  match v with
  | Some s => nonempty s
  | None => false
  end.

Inductive Field :=
| NameField
| EmailField
| PasswordField
| ConfirmPasswordField
| CurrentPasswordField
| NewPasswordField.

(** A call of [FormHelpers.showFieldError(input, message)].  The form is
    taken to have the input elements its handler names ([this.email],
    [this.password], ...); a field can still be absent from the form data
    (a disabled input, a box that is not ticked). *)
Record FieldError := { on_field : Field; shown : string }.

Definition showFieldError (f : Field) (message : string)
    (errors : list FieldError) : list FieldError :=
  errors ++ [{| on_field := f; shown := message |}].

(** *** The login form *)

Record LoginForm := { login_email : option string; login_password : option string }.

(** The submit handler of [#loginForm]: the field errors it shows and the
    credentials it passes to [Auth.login], if it does. *)
Definition loginSubmit (form : LoginForm)
    : list FieldError * option (option string * option string) :=
  let email := login_email form in
  let password := login_password form in
  let isValid := true in
  let errors : list FieldError := [] in
  let '(isValid, errors) :=
    if negb (filled email) then
      (false, showFieldError EmailField "Email is required" errors)
    else if negb (validateEmail (default EmptyString email)) then
      (false, showFieldError EmailField "Please enter a valid email" errors)
    else (isValid, errors) in
  let '(isValid, errors) :=
    if negb (filled password) then
      (false, showFieldError PasswordField "Password is required" errors)
    else (isValid, errors) in
  (errors, if isValid then Some (email, password) else None).

(** *** The registration form *)

Record RegisterForm := {
  reg_name : option string;
  reg_email : option string;
  reg_password : option string;
  reg_confirm_password : option string;
  reg_user_type : option string;
  reg_phone_no : option string;
  reg_degree : option string;
  reg_college : option string;
  reg_qualifications : option string;
  (* the terms checkbox: absent, or present and checked or not *)
  reg_terms : option bool
}.

(** The [userData] object passed to [Auth.register]. *)
Record UserData := {
  name : option string;
  email : option string;
  password : option string;
  user_type : string;
  phone_no : option string;
  degree : option string;
  college : option string;
  qualifications : option string
}.

Definition userData_of (form : RegisterForm) : UserData :=
  {| name := reg_name form;
     email := reg_email form;
     password := reg_password form;
     user_type := or_default (reg_user_type form) "user";
     phone_no := reg_phone_no form;
     degree := reg_degree form;
     college := reg_college form;
     qualifications := reg_qualifications form |}.

Record RegisterOutcome := {
  field_errors : list FieldError;
  terms_alert : bool;
  registered : option UserData
}.

(** The submit handler of [#registerForm]. *)
Definition registerSubmit (form : RegisterForm) : RegisterOutcome :=
  let userData := userData_of form in
  let confirmPassword := reg_confirm_password form in
  let isValid := true in
  let errors : list FieldError := [] in
  let '(isValid, errors) :=
    if negb (filled (name userData)) then
      (false, showFieldError NameField "Name is required" errors)
    else (isValid, errors) in
  let '(isValid, errors) :=
    if negb (filled (email userData)) then
      (false, showFieldError EmailField "Email is required" errors)
    else if negb (validateEmail (default EmptyString (email userData))) then
      (false, showFieldError EmailField "Please enter a valid email" errors)
    else (isValid, errors) in
  let '(isValid, errors) :=
    if negb (filled (password userData)) then
      (false, showFieldError PasswordField "Password is required" errors)
    else
      let passwordValidation :=
        validatePassword (default EmptyString (password userData)) in
      if negb (is_valid passwordValidation) then
        (false,
         showFieldError PasswordField (validation_message passwordValidation) errors)
      else (isValid, errors) in
  let '(isValid, errors) :=
    if negb (bool_decide (password userData = confirmPassword)) then
      (false, showFieldError ConfirmPasswordField "Passwords do not match" errors)
    else (isValid, errors) in
  let '(isValid, alerted) :=
    match reg_terms form with
    | Some false => (false, true)
    | _ => (isValid, false)
    end in
  {| field_errors := errors;
     terms_alert := alerted;
     registered := if isValid then Some userData else None |}.

(** *** The change-password form *)

Record PasswordForm := {
  current_password : option string;
  new_password : option string;
  confirm_password : option string
}.

(** The submit handler of [#changePasswordForm] in the authentication
    script: the field errors, and the two passwords passed to
    [Auth.changePassword], if it is called. *)
Definition changePasswordSubmit (form : PasswordForm)
    : list FieldError * option (option string * option string) :=
  let currentPassword := current_password form in
  let newPassword := new_password form in
  let confirmPassword := confirm_password form in
  let isValid := true in
  let errors : list FieldError := [] in
  let '(isValid, errors) :=
    if negb (filled currentPassword) then
      (false,
       showFieldError CurrentPasswordField "Current password is required" errors)
    else (isValid, errors) in
  let '(isValid, errors) :=
    if negb (filled newPassword) then
      (false, showFieldError NewPasswordField "New password is required" errors)
    else
      let passwordValidation := validatePassword (default EmptyString newPassword) in
      if negb (is_valid passwordValidation) then
        (false,
         showFieldError NewPasswordField (validation_message passwordValidation) errors)
      else (isValid, errors) in
  let '(isValid, errors) :=
    if negb (bool_decide (newPassword = confirmPassword)) then
      (false, showFieldError ConfirmPasswordField "Passwords do not match" errors)
    else (isValid, errors) in
  (errors, if isValid then Some (currentPassword, newPassword) else None).

End Auth.

(** ** Profile manager (profile.js) *)

Module ProfileManager.
Import JS Utils.

(** [validatePasswordForm(data)]: the verdict and the warning it shows, if
    any.  The fields of [data] come from the form entries; a missing entry
    reads as [undefined] ([None]). *)
Definition validatePasswordForm (data : Auth.PasswordForm) : bool * option string :=
  if negb (Auth.filled (Auth.current_password data)) then
    (false, Some "Current password is required")
  else if negb (Auth.filled (Auth.new_password data))
          || (String.length (default EmptyString (Auth.new_password data)) <? 6)%nat then
    (false, Some "New password must be at least 6 characters")
  else if negb (bool_decide (Auth.new_password data = Auth.confirm_password data)) then
    (false, Some "Password confirmation does not match")
  else (true, None).

(** [validatePasswordMatch]: whether the confirmation field is marked
    invalid, from the values of the two fields. *)
Definition validatePasswordMatch (newPassword confirmPassword : string) : bool :=
  nonempty confirmPassword && negb (bool_decide (newPassword = confirmPassword)).

(** [getAnalysisStatusClass(status)]. *)
Definition getAnalysisStatusClass (status : option string) : string :=
  match status with
  | Some s =>
      if String.eqb s "completed" then "bg-success"
      else if String.eqb s "processing" then "bg-warning"
      else if String.eqb s "failed" then "bg-danger"
      else "bg-secondary"
  | None => "bg-secondary"
  end.

End ProfileManager.

(** ** Form field validation (FormHelpers) *)

Module FormHelpers.
Import JS.

(** An input: its name and value, whether it carries the classes
    [is-invalid] and [is-valid], and the texts of the [.invalid-feedback]
    elements of its parent, in document order. *)
Record Input := {
  input_name : string;
  input_value : string;
  marked_invalid : bool;
  marked_valid : bool;
  feedback : list string
}.

(** [showFieldError(input, message)]: the first feedback element of the
    parent, if any, is removed, and the new one is appended. *)
Definition showFieldError (input : Input) (message : string) : Input :=
  {| input_name := input_name input;
     input_value := input_value input;
     marked_invalid := true;
     marked_valid := marked_valid input;
     feedback := tail (feedback input) ++ [message] |}.

Definition showFieldSuccess (input : Input) : Input :=
  {| input_name := input_name input;
     input_value := input_value input;
     marked_invalid := false;
     marked_valid := true;
     feedback := tail (feedback input) |}.

(** The [rules] object.  A length rule is [None] when the property is
    absent; [custom] is [Some f] when the property is a function, and
    [f value] is [None] when the function returns [true] and the text of
    the returned value otherwise. *)
Record Rules := {
  required : bool;
  email : bool;
  password : bool;
  minLength : option nat;
  maxLength : option nat;
  custom : option (string -> option string)
}.

Definition string_of_nat (n : nat) : string := string_of_Z (Z.of_nat n).

(** The checks of [validateField] return as soon as one fails: the
    message of the first check that fails, if any. *)
Fixpoint first_failure (checks : list (option string)) : option string :=
  match checks with
  | [] => None
  | Some message :: _ => Some message
  | None :: rest => first_failure rest
  end.

(** [validateField(input, rules)]: the input afterwards and the value
    returned.  In [rules.minLength && ...] an absent rule and a rule of 0
    are both falsy. *)
Definition validateField (input : Input) (rules : Rules) : Input * bool :=
  let value := trim (input_value input) in
  let validation := Utils.validatePassword value in
  let checks :=
    [ if required rules && negb (nonempty value) then
        Some ((if nonempty (input_name input) then input_name input
               else "This field") +:+ " is required")
      else None;
      if email rules && nonempty value && negb (Utils.validateEmail value) then
        Some "Please enter a valid email address"
      else None;
      if password rules && nonempty value && negb (Utils.is_valid validation) then
        Some (Utils.validation_message validation)
      else None;
      match minLength rules with
      | Some n =>
          if negb (n =? 0)%nat && (String.length value <? n)%nat then
            Some ("Minimum " +:+ string_of_nat n +:+ " characters required")
          else None
      | None => None
      end;
      match maxLength rules with
      | Some n =>
          if negb (n =? 0)%nat && (n <? String.length value)%nat then
            Some ("Maximum " +:+ string_of_nat n +:+ " characters allowed")
          else None
      | None => None
      end;
      match custom rules with
      | Some f => f value
      | None => None
      end ] in
  match first_failure checks with
  | Some message => (showFieldError input message, false)
  | None => (showFieldSuccess input, true)
  end.

End FormHelpers.

(** * Properties *)

(** ** Connection eligibility *)

Module LawyerNetworkProps.
Import JS LawyerNetwork.

Lemma strict_eq_true (a b : value) : strict_eq a b = true <-> a = b.
Proof. unfold strict_eq. apply bool_decide_eq_true. Qed.

Lemma strict_eq_false (a b : value) : strict_eq a b = false <-> a <> b.
Proof. unfold strict_eq. apply bool_decide_eq_false. Qed.

(** With a connection status on the record the first operand decides. *)
Lemma canConnect_with_status (currentUser : ref User) (lawyer : Lawyer) :
  truthy (connection_status lawyer) = true ->
  canConnect currentUser lawyer = Bool false.
Proof. intros Hs. unfold canConnect. rewrite Hs. reflexivity. Qed.

(** Without one, the answer for a logged-in viewer is the comparison of
    the ids. *)
Lemma canConnect_logged_in (u : User) (lawyer : Lawyer) :
  truthy (connection_status lawyer) = false ->
  canConnect (RObject u) lawyer = Bool (negb (strict_eq (user_id u) (lawyer_id lawyer))).
Proof. intros Hs. unfold canConnect. rewrite Hs. reflexivity. Qed.

(** An anonymous viewer looking at a lawyer without connection status. *)
Definition unconnected_lawyer : Lawyer :=
  {| lawyer_id := Num 7; connection_status := Null |}.

(** C3, as stated, fails: for an anonymous viewer and a lawyer without a
    connection status both conditions of the rule hold (there is no status,
    and the viewer's id, which is absent, differs from the lawyer's id 7),
    yet [canConnect] answers [null], which is not eligible. *)
Lemma canConnect_not_two_conditions :
  eligible_by_two_conditions RNull unconnected_lawyer = true
  /\ canConnect RNull unconnected_lawyer = Null
  /\ truthy (canConnect RNull unconnected_lawyer)
     <> eligible_by_two_conditions RNull unconnected_lawyer.
Proof. repeat split. discriminate. Qed.

(** C3, amended: [canConnect] is [true] exactly when the lawyer record has
    no connection status, a user is logged in, and that user's id differs
    from the lawyer's id: its truth is a function of those three
    conditions, and [true] is the only truthy value it takes.  In
    particular it is [false] whenever a connection status is set, and
    whenever the viewer is the lawyer. *)
Theorem canConnect_three_conditions (currentUser : ref User) (lawyer : Lawyer) :
  (canConnect currentUser lawyer = Bool true <->
     truthy (connection_status lawyer) = false
     /\ exists u, currentUser = RObject u /\ user_id u <> lawyer_id lawyer)
  /\ (truthy (canConnect currentUser lawyer) = true <->
      canConnect currentUser lawyer = Bool true)
  /\ (truthy (connection_status lawyer) = true ->
      canConnect currentUser lawyer = Bool false)
  /\ (forall u, currentUser = RObject u -> user_id u = lawyer_id lawyer ->
      canConnect currentUser lawyer = Bool false).
Proof.
  split; [| split; [| split]].
  - unfold canConnect.
    destruct (truthy (connection_status lawyer)) eqn:Hs; simpl.
    + split; [discriminate | intros [? _]; discriminate].
    + destruct currentUser as [| | u]; simpl.
      * split; [discriminate | intros [_ (u & Hu & _)]; discriminate].
      * split; [discriminate | intros [_ (u & Hu & _)]; discriminate].
      * split.
        -- intros [= Hne]. apply negb_true_iff, strict_eq_false in Hne.
           split; [reflexivity | exists u; split; [reflexivity | exact Hne]].
        -- intros [_ (u' & Hu & Hne)]. injection Hu as ->.
           apply strict_eq_false in Hne. rewrite Hne. reflexivity.
  - unfold canConnect.
    destruct (truthy (connection_status lawyer)); simpl;
      [split; discriminate |].
    destruct currentUser as [| | u]; simpl; try (split; discriminate).
    destruct (strict_eq (user_id u) (lawyer_id lawyer)); simpl;
      split; congruence.
  - exact (canConnect_with_status currentUser lawyer).
  - intros u -> Hid. unfold canConnect.
    destruct (truthy (connection_status lawyer)); simpl; [reflexivity |].
    apply strict_eq_true in Hid. rewrite Hid. reflexivity.
Qed.

(** C9, as stated, fails: for a lawyer without a connection status and
    nobody logged in, [canConnect] does not return [false]; it returns
    [window.currentUser] itself, [null] or [undefined]. *)
Lemma canConnect_anonymous_not_false :
  canConnect RNull unconnected_lawyer = Null
  /\ canConnect RNull unconnected_lawyer <> Bool false
  /\ canConnect RUndefined unconnected_lawyer = Undefined
  /\ canConnect RUndefined unconnected_lawyer <> Bool false.
Proof. repeat split; discriminate. Qed.

(** C9, amended: when nobody is logged in ([window.currentUser] is [null]
    or [undefined]) [canConnect] returns a falsy value for every lawyer
    record: [false] when the record has a connection status, and
    [window.currentUser] itself, [null] or [undefined], when it has none.
    An anonymous viewer is never eligible. *)
Theorem canConnect_anonymous (currentUser : ref User) (lawyer : Lawyer) :
  currentUser = RNull \/ currentUser = RUndefined ->
  truthy (canConnect currentUser lawyer) = false
  /\ (truthy (connection_status lawyer) = true ->
      canConnect currentUser lawyer = Bool false)
  /\ (truthy (connection_status lawyer) = false ->
      (currentUser = RNull -> canConnect currentUser lawyer = Null)
      /\ (currentUser = RUndefined -> canConnect currentUser lawyer = Undefined)).
Proof.
  intros [-> | ->]; unfold canConnect;
    destruct (truthy (connection_status lawyer)); simpl;
    repeat split; intros; try reflexivity; discriminate.
Qed.

Lemma canConnect_anonymous_witness :
  (@RNull User = RNull \/ @RNull User = RUndefined)
  /\ truthy (canConnect RNull unconnected_lawyer) = false
  /\ canConnect RNull unconnected_lawyer = Null.
Proof.
  split; [left; reflexivity |].
  destruct (canConnect_anonymous RNull unconnected_lawyer (or_introl eq_refl))
    as (Hfalsy & _ & Hnone).
  split; [exact Hfalsy |].
  exact (proj1 (Hnone eq_refl) eq_refl).
Defined.

End LawyerNetworkProps.

(** ** The request helper *)

Module APIProps.
Import JS API.

Lemma ok_iff (status : Z) : ok status = true <-> (200 <= status <= 299)%Z.
Proof. unfold ok. rewrite andb_true_iff, !Z.leb_le. reflexivity. Qed.

Lemma ok_false_iff (status : Z) : ok status = false <-> ~ (200 <= status <= 299)%Z.
Proof. rewrite <- ok_iff. destruct (ok status); split; congruence. Qed.

(** A rejected [fetch] is rethrown as it is. *)
Lemma request_fetch_rejected base fetch endpoint options e :
  fetch (base +:+ endpoint) (requestOptions options) = FetchRejected e ->
  request base fetch endpoint options = Throws e.
Proof. intros H. unfold request. rewrite H. reflexivity. Qed.

(** A body that is not JSON makes [response.json()] throw, whatever the
    status. *)
Lemma request_body_not_json base fetch endpoint options status :
  fetch (base +:+ endpoint) (requestOptions options) = FetchResponse status None ->
  request base fetch endpoint options = Throws SyntaxError.
Proof. intros H. unfold request. rewrite H. reflexivity. Qed.

(** The [message] property of a body that is not [null]: only an object
    can have one. *)
Definition message_of (body : Json) : option Json :=
  match body with
  | JObject fields => fields !! "message"
  | _ => None
  end.

(** A gateway that answers 502 with an HTML page, a server that answers
    204 with an empty body, and one that answers 500 with [null]. *)
Definition bad_gateway (url : string) (init : FetchInit) : FetchResult :=
  FetchResponse 502 None.

Definition no_content (url : string) (init : FetchInit) : FetchResult :=
  FetchResponse 204 None.

Definition null_body (url : string) (init : FetchInit) : FetchResult :=
  FetchResponse 500 (Some JNull).

(** C6, as stated, fails: [request] parses the body before it looks at
    the status.  A 204 without a body is in the 2xx range and [request]
    throws instead of returning; a 502 with an HTML page makes it throw the
    parse error, which carries neither a message of the server nor the
    status text; and a 500 with the body [null] makes it throw a
    [TypeError]. *)
Lemma request_not_always_message :
  ((200 <= 204 <= 299)%Z
   /\ request "/api" no_content "/documents/3"
        {| method := Some "DELETE"; data := None |} = Throws SyntaxError)
  /\ (~ (200 <= 502 <= 299)%Z
      /\ request "/api" bad_gateway "/documents"
           {| method := Some "GET"; data := None |} = Throws SyntaxError
      /\ forall m, request "/api" bad_gateway "/documents"
                     {| method := Some "GET"; data := None |} <> Throws (Error m))
  /\ (~ (200 <= 500 <= 299)%Z
      /\ request "/api" null_body "/documents"
           {| method := Some "GET"; data := None |} = Throws TypeError).
Proof.
  split; [split; [lia | reflexivity] |].
  split; [split; [lia | split; [reflexivity | discriminate]] |].
  split; [lia | reflexivity].
Qed.

(** C6, amended: for every endpoint and options, when the body of the
    response parses as JSON, [request] returns the parsed body if the
    status is in 200..299; if it is not, it throws: for a body other than
    [null] an error that carries the body's [message] when that is a
    non-empty string, and the text [HTTP error! status: N] when the
    message is absent or falsy; for the body [null] the [TypeError] of
    reading its [message].  When the body does not parse as JSON,
    [request] throws the parse error, whatever the status. *)
Theorem request_contract (API_BASE_URL : string)
    (fetch : string -> FetchInit -> FetchResult)
    (endpoint : string) (options : Options) (status : Z) (parsed : option Json) :
  fetch (API_BASE_URL +:+ endpoint) (requestOptions options)
    = FetchResponse status parsed ->
  let result := request API_BASE_URL fetch endpoint options in
  (parsed = None -> result = Throws SyntaxError)
  /\ (forall body, parsed = Some body ->
      ((200 <= status <= 299)%Z -> result = Returns body)
      /\ (~ (200 <= status <= 299)%Z ->
          (body = JNull -> result = Throws TypeError)
          /\ (body <> JNull ->
              (forall m, message_of body = Some (JStr m) -> m <> EmptyString ->
                         result = Throws (Error m))
              /\ ((forall m, message_of body = Some m -> json_truthy m = false) ->
                  result
                  = Throws (Error ("HTTP error! status: " +:+ string_of_Z status)))))).
Proof.
  intros Hfetch result. subst result. unfold request. rewrite Hfetch.
  split; [intros ->; reflexivity |].
  intros body ->. split.
  - intros Hok. apply ok_iff in Hok. rewrite Hok. reflexivity.
  - intros Hno. apply ok_false_iff in Hno. rewrite Hno. simpl.
    split; [intros ->; reflexivity |].
    intros Hnull.
    assert (Hget : get_message body = Returns (message_of body)).
    { destruct body; try reflexivity. contradiction. }
    rewrite Hget. split.
    + intros m Hm Hne. rewrite Hm. simpl.
      destruct m; [congruence | reflexivity].
    + intros Hfalsy. destruct (message_of body) as [m |]; [| reflexivity].
      rewrite (Hfalsy m eq_refl). reflexivity.
Qed.

(** A message that is present but falsy (empty, [null], [false], 0) is
    passed over for the status text as well. *)
Lemma request_falsy_message base fetch endpoint options status fields m :
  fetch (base +:+ endpoint) (requestOptions options)
    = FetchResponse status (Some (JObject fields)) ->
  ok status = false ->
  fields !! "message" = Some m -> json_truthy m = false ->
  request base fetch endpoint options
  = Throws (Error ("HTTP error! status: " +:+ string_of_Z status)).
Proof.
  intros Hfetch Hno Hm Hfalsy. unfold request.
  rewrite Hfetch, Hno. simpl. rewrite Hm, Hfalsy. reflexivity.
Qed.

(** A server that answers 404 with a message. *)
Definition not_found (url : string) (init : FetchInit) : FetchResult :=
  FetchResponse 404 (Some (JObject {[ "message" := JStr "Session not found" ]})).

Example request_not_found :
  get "/api" not_found "/chatbot/sessions/9/messages"
  = Throws (Error "Session not found").
Proof. reflexivity. Qed.

(** A server that answers 500 with an object without message. *)
Definition internal_error (url : string) (init : FetchInit) : FetchResult :=
  FetchResponse 500 (Some (JObject {[ "success" := JBool false ]})).

Example request_internal_error :
  get "/api" internal_error "/documents"
  = Throws (Error "HTTP error! status: 500").
Proof. reflexivity. Qed.

Lemma request_contract_witness :
  not_found ("/api" +:+ "/documents")
    (requestOptions {| method := Some "GET"; data := None |})
  = FetchResponse 404
      (Some (JObject {[ "message" := JStr "Session not found" ]}))
  /\ request "/api" not_found "/documents" {| method := Some "GET"; data := None |}
     = Throws (Error "Session not found").
Proof.
  split; [reflexivity |].
  pose proof (request_contract "/api" not_found "/documents"
                {| method := Some "GET"; data := None |} 404
                (Some (JObject {[ "message" := JStr "Session not found" ]}))
                eq_refl) as [_ Hbody].
  destruct (Hbody _ eq_refl) as [_ Hno].
  destruct Hno as [_ Hobject]; [lia |].
  destruct Hobject as (Hstr & _); [discriminate |].
  apply Hstr; [reflexivity | discriminate].
Defined.

End APIProps.

(** ** Strings: containment up to letter case *)

Module StringProps.
Import JS.

Lemma append_nil (b : string) : EmptyString +:+ b = b.
Proof. reflexivity. Qed.

Lemma append_cons (c : ascii) (a b : string) :
  String c a +:+ b = String c (a +:+ b).
Proof. reflexivity. Qed.

Lemma append_assoc (a b c : string) : (a +:+ b) +:+ c = a +:+ (b +:+ c).
Proof.
  induction a as [| x a IH]; [reflexivity |].
  rewrite !append_cons. now rewrite IH.
Qed.

Lemma append_eq_empty (a b : string) :
  a +:+ b = EmptyString -> a = EmptyString /\ b = EmptyString.
Proof.
  destruct a; [rewrite append_nil; auto | rewrite append_cons; discriminate].
Qed.

Lemma nonempty_true (s : string) : nonempty s = true <-> s <> EmptyString.
Proof. destruct s; simpl; split; congruence. Qed.

Lemma nonempty_false (s : string) : nonempty s = false <-> s = EmptyString.
Proof. destruct s; simpl; split; congruence. Qed.

Lemma prefix_spec (a s : string) :
  String.prefix a s = true <-> exists rest, s = a +:+ rest.
Proof.
  revert s. induction a as [| x a IH]; intros s.
  - split; [intros _; exists s; reflexivity | intros _; destruct s; reflexivity].
  - destruct s as [| y s]; simpl.
    + split; [discriminate | intros [rest H]; discriminate].
    + destruct (ascii_dec x y) as [-> | Hxy].
      * rewrite IH. split; intros [rest H]; exists rest;
          rewrite append_cons in *; congruence.
      * split; [discriminate |].
        intros [rest H]. rewrite append_cons in H. congruence.
Qed.

Lemma includes_unfold (s sub : string) :
  includes s sub =
  String.prefix sub s
  || match s with EmptyString => false | String _ rest => includes rest sub end.
Proof. destruct s; reflexivity. Qed.

Lemma includes_spec (s sub : string) :
  includes s sub = true <-> exists before after, s = before +:+ (sub +:+ after).
Proof.
  split.
  - induction s as [| c s IH]; rewrite includes_unfold, orb_true_iff.
    + intros [H | H]; [| discriminate].
      apply prefix_spec in H as [rest H]. exists EmptyString, rest. exact H.
    + intros [H | H].
      * apply prefix_spec in H as [rest H]. exists EmptyString, rest. exact H.
      * destruct (IH H) as (before & after & ->).
        exists (String c before), after. reflexivity.
  - intros (before & after & ->).
    induction before as [| c before IH]; rewrite includes_unfold, orb_true_iff.
    + left. apply prefix_spec. exists after. reflexivity.
    + right. exact IH.
Qed.

Lemma toLowerCase_app (a b : string) :
  toLowerCase (a +:+ b) = toLowerCase a +:+ toLowerCase b.
Proof.
  induction a as [| x a IH]; [reflexivity |].
  rewrite !append_cons. simpl. now rewrite IH.
Qed.

Lemma toLowerCase_split (s a b : string) :
  toLowerCase s = a +:+ b ->
  exists a' b', s = a' +:+ b' /\ toLowerCase a' = a /\ toLowerCase b' = b.
Proof.
  revert s. induction a as [| x a IH]; intros s H.
  - exists EmptyString, s. auto.
  - rewrite append_cons in H.
    destruct s as [| c s]; simpl in H; [discriminate |].
    injection H as Hx Hrest.
    destruct (IH _ Hrest) as (a' & b' & -> & Ha & Hb).
    exists (String c a'), b'. simpl. rewrite Hx, Ha. auto.
Qed.


End StringProps.

(** ** Document manager *)

Module DocumentManagerProps.
Import JS Utils API DocumentManager StringProps.

(** *** Validation *)

Definition valid (file : File) : Prop :=
  (file_size file <= maxFileSize)%Z /\ file_type file ∈ allowedTypes.

Lemma validateFile_accepts (file : File) (st : State) :
  fst (validateFile file st) = true <-> valid file.
Proof.
  unfold validateFile, valid.
  destruct (Z.ltb_spec maxFileSize (file_size file)) as [Hbig | Hsmall]; simpl.
  - split; [discriminate | intros [H _]; lia].
  - destruct (bool_decide_reflect (file_type file ∈ allowedTypes)) as [Hin | Hout]; simpl.
    + split; auto.
    + split; [discriminate | intros [_ H]; contradiction].
Qed.

(** A file that fails a check is answered by an error alert and by nothing
    else: the state is otherwise unchanged. *)
Lemma validateFile_rejects (file : File) (st : State) :
  ~ valid file ->
  exists message,
    validateFile file st = (false, alert message "error" st).
Proof.
  intros Hbad. pose proof (validateFile_accepts file st) as Hacc.
  unfold validateFile in *.
  destruct (maxFileSize <? file_size file)%Z; [eauto |].
  destruct (negb (bool_decide (file_type file ∈ allowedTypes))); [eauto |].
  exfalso. apply Hbad, Hacc. reflexivity.
Qed.

Lemma validateFile_state (file : File) (st : State) :
  requests (snd (validateFile file st)) = requests st
  /\ inflight (snd (validateFile file st)) = inflight st
  /\ uploadInProgress (snd (validateFile file st)) = uploadInProgress st.
Proof.
  unfold validateFile.
  destruct (maxFileSize <? file_size file)%Z; [repeat split |].
  destruct (negb (bool_decide (file_type file ∈ allowedTypes))); repeat split.
Qed.

Lemma uploadFile_requests (file : File) (st : State) :
  requests (uploadFile file st) = requests st
  \/ requests (uploadFile file st)
     = requests st ++ [PUpload file (strip_extension (file_name file))].
Proof. unfold uploadFile. destruct (uploadInProgress st); [left | right]; reflexivity. Qed.

(** The requests that [processFiles] issues are uploads of files that
    passed both checks. *)
Lemma processFiles_requests (files : list File) (st : State) :
  exists issued,
    requests (processFiles files st) = requests st ++ issued
    /\ Forall (fun p => exists file,
                 p = PUpload file (strip_extension (file_name file))
                 /\ file ∈ files /\ valid file) issued.
Proof.
  unfold processFiles. revert st.
  induction files as [| file files IH]; intros st; simpl.
  - exists []. rewrite app_nil_r. split; [reflexivity | constructor].
  - pose proof (validateFile_accepts file st) as Hacc.
    pose proof (validateFile_state file st) as (Hreq & _ & _).
    destruct (validateFile file st) as [accepted st1]. simpl in *.
    destruct accepted.
    + destruct (IH (uploadFile file st1)) as (issued & Heq & Hall).
      rewrite Heq.
      assert (Hlater : Forall (fun p => exists f,
                 p = PUpload f (strip_extension (file_name f))
                 /\ f ∈ file :: files /\ valid f) issued).
      { eapply Forall_impl; [exact Hall |].
        intros p (f & -> & Hin & Hv). exists f. repeat split; try apply Hv.
        right. exact Hin. }
      destruct (uploadFile_requests file st1) as [-> | ->]; rewrite Hreq.
      * exists issued. split; [reflexivity | exact Hlater].
      * exists (PUpload file (strip_extension (file_name file)) :: issued).
        split; [now rewrite <- List.app_assoc |].
        constructor; [| exact Hlater].
        exists file. split; [reflexivity |]. split; [left | apply Hacc; reflexivity].
    + destruct (IH st1) as (issued & Heq & Hall).
      rewrite Heq, Hreq. exists issued. split; [reflexivity |].
      eapply Forall_impl; [exact Hall |].
      intros p (f & -> & Hin & Hv). exists f. repeat split; try apply Hv.
      right. exact Hin.
Qed.

(** *** Uploads in flight *)

Definition count_uploads (l : list Pending) : nat :=
  length (List.filter is_upload l).

Lemma count_uploads_app (l1 l2 : list Pending) :
  count_uploads (l1 ++ l2) = (count_uploads l1 + count_uploads l2)%nat.
Proof. unfold count_uploads. now rewrite List.filter_app, length_app. Qed.

Lemma count_uploads_delete (l : list Pending) (i : nat) (p : Pending) :
  l !! i = Some p ->
  count_uploads l
  = (count_uploads (base.delete i l) + (if is_upload p then 1 else 0))%nat.
Proof.
  unfold count_uploads. revert i.
  induction l as [| q l IH]; intros [| i] H; simpl in *; try discriminate.
  - injection H as ->. destruct (is_upload p); simpl; lia.
  - specialize (IH _ H). destruct (is_upload q); simpl; lia.
Qed.

(** The flag is raised exactly while an upload request is in flight, and
    then there is one such request. *)
Definition flag_tracks_upload (st : State) : Prop :=
  uploads_in_flight st = if uploadInProgress st then 1%nat else 0%nat.

Lemma uploads_send (p : Pending) (st : State) :
  uploads_in_flight (send p st)
  = (uploads_in_flight st + (if is_upload p then 1 else 0))%nat.
Proof.
  unfold uploads_in_flight, send. simpl.
  fold (count_uploads (inflight st ++ [p])). rewrite count_uploads_app.
  unfold count_uploads. simpl. destruct (is_upload p); reflexivity.
Qed.

Lemma uploads_settle (i : nat) (p : Pending) (st : State) :
  inflight st !! i = Some p ->
  uploads_in_flight st
  = (uploads_in_flight (settle i st) + (if is_upload p then 1 else 0))%nat.
Proof. intros H. apply (count_uploads_delete _ _ _ H). Qed.

Lemma tracks_alert (message type : string) (st : State) :
  flag_tracks_upload st -> flag_tracks_upload (alert message type st).
Proof. exact id. Qed.

Lemma tracks_loadDocuments (st : State) :
  flag_tracks_upload st -> flag_tracks_upload (loadDocuments st).
Proof.
  unfold flag_tracks_upload, loadDocuments. rewrite uploads_send. simpl.
  intros H. unfold uploads_in_flight in *. simpl. lia.
Qed.

Lemma tracks_renderDocuments (docs : list Document) (st : State) :
  flag_tracks_upload st -> flag_tracks_upload (renderDocuments docs st).
Proof. destruct docs; exact id. Qed.

Lemma tracks_uploadFile (file : File) (st : State) :
  flag_tracks_upload st -> flag_tracks_upload (uploadFile file st).
Proof.
  unfold flag_tracks_upload, uploadFile.
  destruct (uploadInProgress st) eqn:Hflag.
  - intros H. simpl. rewrite Hflag. exact H.
  - intros H. rewrite uploads_send. simpl.
    unfold uploads_in_flight in *. simpl. lia.
Qed.

Lemma tracks_validateFile (file : File) (st : State) :
  flag_tracks_upload st -> flag_tracks_upload (snd (validateFile file st)).
Proof.
  unfold validateFile.
  destruct (maxFileSize <? file_size file)%Z; [exact id |].
  destruct (negb (bool_decide (file_type file ∈ allowedTypes))); exact id.
Qed.

Lemma tracks_processFiles (files : list File) (st : State) :
  flag_tracks_upload st -> flag_tracks_upload (processFiles files st).
Proof.
  unfold processFiles. revert st.
  induction files as [| file files IH]; intros st H; simpl; [exact H |].
  apply IH. pose proof (tracks_validateFile file st H) as Hv.
  destruct (validateFile file st) as [[] st1]; simpl in Hv;
    [apply tracks_uploadFile |]; exact Hv.
Qed.

Lemma tracks_filterDocuments (term : string) (st : State) :
  flag_tracks_upload st -> flag_tracks_upload (filterDocuments term st).
Proof. unfold filterDocuments. apply tracks_renderDocuments. Qed.

Lemma tracks_settle_other (i : nat) (p : Pending) (st : State) :
  inflight st !! i = Some p -> is_upload p = false ->
  flag_tracks_upload st -> flag_tracks_upload (settle i st).
Proof.
  intros Hi Hp. unfold flag_tracks_upload.
  rewrite (uploads_settle i p st Hi), Hp. simpl uploadInProgress. lia.
Qed.

Lemma tracks_uploadFile_done (i : nat) (file : File) (title : string)
    (r : Settled unit) (st : State) :
  inflight st !! i = Some (PUpload file title) ->
  flag_tracks_upload st ->
  flag_tracks_upload (uploadFile_done r (settle i st)).
Proof.
  intros Hi. unfold flag_tracks_upload.
  rewrite (uploads_settle i _ st Hi). simpl is_upload.
  intros H.
  assert (H0 : uploads_in_flight (settle i st) = 0%nat).
  { destruct (uploadInProgress st); lia. }
  unfold uploadFile_done.
  destruct r as [[] | m | e]; simpl uploadInProgress;
    unfold uploads_in_flight in *; simpl in *; [| exact H0 | exact H0].
  fold (count_uploads (base.delete i (inflight st) ++ [PLoadDocuments])).
  rewrite count_uploads_app. unfold count_uploads at 1. rewrite H0. reflexivity.
Qed.

Lemma tracks_step (e : Event) (st st' : State) :
  step e st = Some st' -> flag_tracks_upload st -> flag_tracks_upload st'.
Proof.
  destruct e; simpl; intros Hstep Hinv.
  - injection Hstep as <-. destruct files; [exact Hinv |].
    apply tracks_processFiles. exact Hinv.
  - injection Hstep as <-. destruct files; [exact Hinv |].
    apply tracks_processFiles. exact Hinv.
  - injection Hstep as <-. unfold handleUpload.
    destruct (documentFile st); [exact Hinv | apply tracks_uploadFile; exact Hinv].
  - injection Hstep as <-. unfold analyzeDocument, flag_tracks_upload.
    rewrite uploads_send. simpl. rewrite Nat.add_0_r. exact Hinv.
  - injection Hstep as <-. unfold viewDocument, flag_tracks_upload.
    rewrite uploads_send. simpl. rewrite Nat.add_0_r. exact Hinv.
  - injection Hstep as <-. unfold deleteDocument.
    destruct confirmed; simpl; [| exact Hinv].
    unfold flag_tracks_upload. rewrite uploads_send. simpl.
    rewrite Nat.add_0_r. exact Hinv.
  - destruct (documentSearch st); [| discriminate]. injection Hstep as <-.
    apply tracks_filterDocuments. exact Hinv.
  - destruct (typeFilter st); [| discriminate]. injection Hstep as <-.
    apply tracks_filterDocuments. exact Hinv.
  - destruct (inflight st !! i) as [[] |] eqn:Hi; try discriminate.
    injection Hstep as <-. eapply tracks_uploadFile_done; eauto.
  - destruct (inflight st !! i) as [[] |] eqn:Hi; try discriminate.
    injection Hstep as <-.
    pose proof (tracks_settle_other i _ st Hi eq_refl Hinv) as Hs.
    unfold loadDocuments_done.
    destruct r as [docs | m | err]; simpl.
    + apply tracks_renderDocuments. exact Hs.
    + exact Hs.
    + exact Hs.
  - destruct (inflight st !! i) as [[] |] eqn:Hi; try discriminate.
    injection Hstep as <-.
    pose proof (tracks_settle_other i _ st Hi eq_refl Hinv) as Hs.
    unfold analyzeDocument_done.
    destruct r as [[] | m | err]; simpl; [| exact Hs | exact Hs].
    apply tracks_loadDocuments. exact Hs.
  - destruct (inflight st !! i) as [[] |] eqn:Hi; try discriminate.
    injection Hstep as <-.
    pose proof (tracks_settle_other i _ st Hi eq_refl Hinv) as Hs.
    unfold viewDocument_done, showDocumentModal.
    destruct r as [doc | m | err]; simpl; exact Hs.
  - destruct (inflight st !! i) as [[] |] eqn:Hi; try discriminate.
    injection Hstep as <-.
    pose proof (tracks_settle_other i _ st Hi eq_refl Hinv) as Hs.
    unfold deleteDocument_done.
    destruct r as [[] | m | err]; simpl; [| exact Hs | exact Hs].
    apply tracks_loadDocuments. exact Hs.
Qed.

Lemma tracks_constructor (page : Page) : flag_tracks_upload (constructor page).
Proof. reflexivity. Qed.

Lemma tracks_run (events : list Event) (st st' : State) :
  run events st = Some st' -> flag_tracks_upload st -> flag_tracks_upload st'.
Proof.
  revert st. induction events as [| e events IH]; intros st; simpl.
  - intros [= <-]. exact id.
  - destruct (step e st) as [st1 |] eqn:Hstep; [| discriminate].
    intros Hrun Hinv. apply (IH _ Hrun). eapply tracks_step; eauto.
Qed.

(** *** Serialised upload *)

Definition plain_page : Page :=
  {| page_typeFilter := None; page_documentSearch := None |}.

Definition lease_pdf : File :=
  {| file_name := "lease.pdf"; file_size := 2048; file_type := "application/pdf" |}.

Definition notes_txt : File :=
  {| file_name := "notes.txt"; file_size := 512; file_type := "text/plain" |}.

(** C2: in every state the manager can reach, at most one upload request
    is in flight, and the flag is raised exactly while there is one.  A
    call of [uploadFile] with the flag raised only shows the warning: no
    request is issued.  With the flag lowered the call raises it and then
    issues the upload request.  When an upload request settles, whatever
    the outcome, the flag is lowered and no upload request is left in
    flight. *)
Theorem upload_serialized (page : Page) (events : list Event) (st : State)
    (file : File) :
  run events (constructor page) = Some st ->
  (uploads_in_flight st <= 1)%nat
  /\ (uploadInProgress st = true <-> uploads_in_flight st = 1%nat)
  /\ (uploadInProgress st = true ->
      uploadFile file st
        = alert "Another upload is in progress. Please wait." "warning" st
      /\ requests (uploadFile file st) = requests st
      /\ inflight (uploadFile file st) = inflight st)
  /\ (uploadInProgress st = false ->
      exists raised,
        uploadInProgress raised = true
        /\ requests raised = requests st
        /\ uploadFile file st
           = send (PUpload file (strip_extension (file_name file))) raised
        /\ uploads_in_flight (uploadFile file st) = 1%nat)
  /\ (forall i r st',
        step (UploadSettles i r) st = Some st' ->
        uploadInProgress st' = false /\ uploads_in_flight st' = 0%nat).
Proof.
  intros Hrun.
  pose proof (tracks_run _ _ _ Hrun (tracks_constructor page)) as Hinv.
  unfold flag_tracks_upload in Hinv.
  split; [| split; [| split; [| split]]].
  - destruct (uploadInProgress st); lia.
  - destruct (uploadInProgress st); split; try congruence; lia.
  - intros Hflag. unfold uploadFile. rewrite Hflag. repeat split.
  - intros Hflag.
    exists (showUploadProgress true (set_uploadInProgress true st)).
    repeat split.
    + unfold uploadFile. rewrite Hflag. reflexivity.
    + pose proof (tracks_uploadFile file st) as Hup.
      unfold flag_tracks_upload in Hup. rewrite Hflag in Hinv.
      specialize (Hup ltac:(rewrite Hflag; exact Hinv)).
      unfold uploadFile in *. rewrite Hflag in *. exact Hup.
  - intros i r st' Hstep.
    pose proof (tracks_step _ _ _ Hstep) as Hnext.
    unfold flag_tracks_upload in Hnext. specialize (Hnext Hinv).
    assert (Hlow : uploadInProgress st' = false).
    { simpl in Hstep.
      destruct (inflight st !! i) as [[] |]; try discriminate.
      injection Hstep as <-. unfold uploadFile_done.
      destruct r as [[] | m | e]; reflexivity. }
    rewrite Hlow in Hnext. auto.
Qed.

Lemma upload_serialized_witness :
  run [FileSelect [lease_pdf; notes_txt]] (constructor plain_page)
  = Some (processFiles [lease_pdf; notes_txt]
            (set_documentFile [lease_pdf; notes_txt] (constructor plain_page)))
  /\ (uploads_in_flight
        (processFiles [lease_pdf; notes_txt]
           (set_documentFile [lease_pdf; notes_txt] (constructor plain_page)))
      <= 1)%nat.
Proof.
  split; [reflexivity |].
  exact (proj1 (upload_serialized plain_page
                  [FileSelect [lease_pdf; notes_txt]] _ lease_pdf eq_refl)).
Defined.

(** Two valid files dropped together: the first is uploaded, the second
    meets the raised flag and is answered by the warning. *)
Example second_upload_is_refused :
  let st := handleDrop [lease_pdf; notes_txt] (constructor plain_page) in
  requests st = [PLoadDocuments; PUpload lease_pdf "lease"]
  /\ map alert_type (alerts st) = ["warning"].
Proof. vm_compute. split; reflexivity. Qed.

(** *** Validation on the way to the upload *)

Definition oversized_pdf : File :=
  {| file_name := "judgment.pdf"; file_size := 60 * 1024 * 1024;
     file_type := "application/pdf" |}.

(** C1 at its failing input: a 60MB PDF chosen in the file input is
    rejected by [validateFile] when it is selected (error alert, nothing
    sent), but submitting the form hands the same file to [uploadFile]
    without validating it, and the upload request is issued. *)
Theorem submit_uploads_rejected_file :
  fst (validateFile oversized_pdf (constructor plain_page)) = false
  /\ (exists st,
        run [FileSelect [oversized_pdf]] (constructor plain_page) = Some st
        /\ requests st = [PLoadDocuments]
        /\ map alert_type (alerts st) = ["error"])
  /\ (exists st,
        run [FileSelect [oversized_pdf]; Submit] (constructor plain_page) = Some st
        /\ requests st = [PLoadDocuments; PUpload oversized_pdf "judgment"]
        /\ uploadInProgress st = true).
Proof.
  split; [reflexivity |].
  split; eexists; (split; [vm_compute; reflexivity |]); split; reflexivity.
Qed.

(** *** Search and type filter *)

Lemma includes_lower_spec (text term : string) :
  includes (toLowerCase text) (toLowerCase term) = true
  <-> contains_ignoring_case text term.
Proof.
  rewrite includes_spec. unfold contains_ignoring_case. split.
  - intros (before & after & H).
    apply toLowerCase_split in H as (b' & rest & -> & Hb & Hrest).
    apply toLowerCase_split in Hrest as (seg & a' & -> & Hseg & Ha).
    exists b', seg, a'. auto.
  - intros (before & seg & after & -> & Hseg).
    exists (toLowerCase before), (toLowerCase after).
    now rewrite !toLowerCase_app, Hseg.
Qed.



Lemma matches_type_spec (selected : string) (doc : Document) :
  matches_type selected doc = true <-> doc_analysis_status doc = Some selected.
Proof. unfold matches_type. apply bool_decide_eq_true. Qed.

Lemma rendered_renderDocuments (docs : list Document) (st : State) :
  rendered (documentsGrid (renderDocuments docs st)) = docs.
Proof. destruct docs; reflexivity. Qed.


Lemma elem_of_filter {A : Type} (f : A -> bool) (l : list A) (x : A) :
  x ∈ List.filter f l <-> x ∈ l /\ f x = true.
Proof. rewrite !list_elem_of_In. apply filter_In. Qed.

(** The page of the counterexample: both controls are present and empty. *)
Definition filter_page : Page :=
  {| page_typeFilter := Some EmptyString; page_documentSearch := Some EmptyString |}.

Definition lease_agreement : Document :=
  {| doc_id := 1; doc_title := "Lease Agreement"; doc_summary := None;
     doc_analysis_status := Some "completed" |}.



Definition rent_deed : Document :=
  {| doc_id := 2; doc_title := "Rent deed"; doc_summary := Some "Expired LEASE of a shop";
     doc_analysis_status := Some "failed" |}.


Example filterDocuments_lease :
  rendered (documentsGrid (filterDocuments "lease"
    (set_currentDocuments [lease_agreement; rent_deed] (constructor filter_page))))
  = [lease_agreement; rent_deed].
Proof. vm_compute. reflexivity. Qed.

End DocumentManagerProps.

(** ** Chat manager *)

Module ChatBotProps.
Import JS Utils API ChatBot StringProps.

Lemma issued_since_app (before after : State) (issued : list Pending) :
  requests after = requests before ++ issued ->
  issued_since before after = issued.
Proof. intros H. unfold issued_since. rewrite H. apply drop_app_length. Qed.

Lemma requests_sendMessage_post (message : string) (clock : Clock) (st : State) :
  requests (sendMessage_post message clock st)
  = requests st ++ [PChat (currentSessionId st) message].
Proof. reflexivity. Qed.

Lemma currentSessionId_sendMessage_post (message : string) (clock : Clock) (st : State) :
  currentSessionId (sendMessage_post message clock st) = currentSessionId st.
Proof. reflexivity. Qed.

Lemma renderSessions_fields (st : State) :
  currentSessionId (renderSessions st) = currentSessionId st
  /\ sessions (renderSessions st) = sessions st
  /\ requests (renderSessions st) = requests st
  /\ inflight (renderSessions st) = inflight st
  /\ alerts (renderSessions st) = alerts st.
Proof.
  unfold renderSessions.
  pose (agree := fun st' : State =>
    currentSessionId st' = currentSessionId st
    /\ sessions st' = sessions st
    /\ requests st' = requests st
    /\ inflight st' = inflight st
    /\ alerts st' = alerts st).
  assert (H : forall (l : list Session) (a b : State),
    agree a -> agree b -> agree (match l with [] => a | _ :: _ => b end))
    by (intros []; auto).
  apply H; repeat split.
Qed.

Lemma renderSessions_eq (st : State) :
  exists panel, renderSessions st = set_chatSessions panel st.
Proof. unfold renderSessions. destruct (sessions st); eauto. Qed.

(** *** A failed refresh of the session list *)

Definition property_dispute : Session :=
  {| session_id := 1; session_title := "Property dispute";
     updated_at := "2024-03-01T10:00:00Z"; message_count := Some 2%Z |}.

Definition noon : Clock :=
  {| toISOString := "2024-03-02T12:00:00.000Z";
     toLocaleString := "3/2/2024, 12:00:00 PM" |}.

Definition reply : Message :=
  {| message_type := "assistant"; content := "Section 5 applies.";
     created_at := "2024-03-02T12:00:01Z"; sources := None |}.





(** *** Deleting a session *)

Lemma deleteSession_confirmed (sessionId : Z) (st : State) :
  requests (deleteSession sessionId true st) = requests st ++ [PDelete sessionId]
  /\ inflight (deleteSession sessionId true st) = inflight st ++ [PDelete sessionId].
Proof. split; reflexivity. Qed.

Lemma deleteSession_declined (sessionId : Z) (st : State) :
  deleteSession sessionId false st = st.
Proof. reflexivity. Qed.

(** C10, amended: when the delete request of a confirmed
    [deleteSession(id)] resolves, at that point no session with that id is
    left in the local list, the other sessions are all still there in
    their order, and the current-session pointer does not refer to the
    deleted session: it is [null] if it did, and unchanged otherwise.
    This is what holds when the deletion completes; a list requested
    before it can bring the session back later. *)
Theorem deleteSession_removes (st st' : State) (i : nat) (sessionId : Z)
    (r : Settled unit) :
  inflight st !! i = Some (PDelete sessionId) ->
  (forall e, r <> Failed e) ->
  step (DeleteSettles i r) st = Some st' ->
  (forall s, s ∈ sessions st' -> session_id s <> sessionId)
  /\ (forall s, s ∈ sessions st -> session_id s <> sessionId -> s ∈ sessions st')
  /\ sessions st' `sublist_of` sessions st
  /\ (currentSessionId st = Some sessionId -> currentSessionId st' = None)
  /\ (currentSessionId st <> Some sessionId ->
      currentSessionId st' = currentSessionId st)
  /\ currentSessionId st' <> Some sessionId.
Proof.
  intros Hi Hr. simpl. rewrite Hi. intros [= <-].
  assert (Hsessions :
    sessions (deleteSession_done sessionId r (settle i st))
    = filter (fun s => session_id s <> sessionId) (sessions st)).
  { unfold deleteSession_done. destruct r as [[] | m | e];
      [| | exfalso; exact (Hr e eq_refl)].
    all: match goal with |- context [renderSessions ?x] =>
           destruct (renderSessions_fields x) as (Hc & Hs & _);
           destruct (bool_decide (currentSessionId (renderSessions x) = Some sessionId));
           simpl; exact Hs
         end. }
  assert (Hcurrent :
    currentSessionId (deleteSession_done sessionId r (settle i st))
    = if bool_decide (currentSessionId st = Some sessionId) then None
      else currentSessionId st).
  { unfold deleteSession_done. destruct r as [[] | m | e];
      [| | exfalso; exact (Hr e eq_refl)].
    all: match goal with |- context [renderSessions ?x] =>
           destruct (renderSessions_fields x) as (Hc & _);
           rewrite Hc; simpl;
           destruct (bool_decide (currentSessionId st = Some sessionId));
           simpl; [reflexivity | exact Hc]
         end. }
  rewrite Hsessions, Hcurrent.
  split; [| split; [| split; [| split; [| split]]]].
  - intros s Hin. apply list_elem_of_filter in Hin as [Hne _]. exact Hne.
  - intros s Hin Hne. apply list_elem_of_filter. auto.
  - apply sublist_filter.
  - intros Hcur. rewrite bool_decide_eq_true_2; auto.
  - intros Hcur. rewrite bool_decide_eq_false_2; auto.
  - destruct (bool_decide_reflect (currentSessionId st = Some sessionId));
      [discriminate | assumption].
Qed.

(** The only session gets a reply, which makes the manager ask for the
    session list again; the session is deleted before that list arrives,
    and the list, drawn up by the server before the deletion, still has
    it. *)
Definition deleted_before_refresh : list Event :=
  [ SessionsSettle 0 (Succeeded [property_dispute]);
    ClickSession 1;
    MessagesSettle 0 (Succeeded (property_dispute, []));
    TypeText "Who pays the stamp duty?";
    PressSend noon;
    ChatSettles 0 (Succeeded reply) noon;
    ClickDelete 1 true;
    DeleteSettles 1 (Succeeded tt) ].

Definition refresh_and_select : list Event :=
  [ SessionsSettle 0 (Succeeded [property_dispute]);
    ClickSession 1 ].

(** C10, as stated, fails: right after the deletion of session 1 has
    succeeded the list is empty and no session is current, but the list
    requested before the deletion then arrives and puts the session back,
    and a click on it makes it the current session: a session with the
    deleted id remains, and the pointer refers to it. *)
Lemma deleted_session_comes_back :
  exists deleted st,
    run deleted_before_refresh constructor = Some deleted
    /\ sessions deleted = []
    /\ currentSessionId deleted = None
    /\ run refresh_and_select deleted = Some st
    /\ session_id property_dispute = 1%Z
    /\ property_dispute ∈ sessions st
    /\ currentSessionId st = Some 1%Z.
Proof.
  eexists. eexists.
  split; [vm_compute; reflexivity |].
  split; [reflexivity |]. split; [reflexivity |].
  split; [vm_compute; reflexivity |].
  split; [reflexivity |]. split; [left | reflexivity].
Qed.

(** *** Sending without a selected session *)

(** A reply is awaited in the only session, the session is deleted
    meanwhile, and a second question is typed. *)
Definition deleted_while_typing : list Event :=
  [ SessionsSettle 0 (Succeeded [property_dispute]);
    ClickSession 1;
    MessagesSettle 0 (Succeeded (property_dispute, []));
    TypeText "Who pays the stamp duty?";
    PressSend noon;
    ClickDelete 1 true;
    DeleteSettles 1 (Succeeded tt);
    TypeText "And the registration fee?" ].

(** C8, as stated, fails: with no session selected and a non-empty message
    in the input, [sendMessage] does nothing at all while a reply is
    awaited ([isTyping]): no session is created and nothing is sent. *)
Lemma sendMessage_ignored_while_typing :
  exists st,
    run deleted_while_typing constructor = Some st
    /\ currentSessionId st = None
    /\ trim (messageInput st) = "And the registration fee?"
    /\ isTyping st = true
    /\ sendMessage noon st = st
    /\ issued_since st (sendMessage noon st) = [].
Proof.
  eexists. split; [vm_compute; reflexivity |].
  repeat split.
Qed.

(** C8, amended: a call of [sendMessage] with a non-empty message while no
    session is selected and no reply is awaited issues the session-creation
    request and nothing else, and waits for it.  When that request settles:
    if it succeeded with a session (of non-zero id), the session becomes
    the current one, its messages are requested, and the message is then
    posted to the chat of that session; and whenever no session is current
    at that point, no chat request is issued. *)
Theorem sendMessage_creates_session_first (st : State) (clock : Clock) :
  currentSessionId st = None ->
  isTyping st = false ->
  trim (messageInput st) <> EmptyString ->
  let message := trim (messageInput st) in
  let create := PCreate ("Chat Session " +:+ toLocaleString clock) (Some message) in
  issued_since st (sendMessage clock st) = [create]
  /\ inflight (sendMessage clock st) = inflight st ++ [create]
  /\ forall (later : State) (i : nat) (r : Settled Session) (clock' : Clock)
       (after : State),
       inflight later !! i = Some create ->
       step (CreateSettles i r clock') later = Some after ->
       (forall session,
          r = Succeeded session -> session_id session <> 0%Z ->
          currentSessionId after = Some (session_id session)
          /\ issued_since later after
             = [PMessages (session_id session);
                PChat (Some (session_id session)) message])
       /\ (session_selected (currentSessionId after) = false ->
           List.filter is_chat (issued_since later after) = [])
       /\ ((forall session, r <> Succeeded session) ->
           session_selected (currentSessionId later) = false ->
           issued_since later after = []).
Proof.
  intros Hnone Htyping Hmsg message create.
  assert (Hsend : sendMessage clock st = createNewSession (Some message) clock st).
  { unfold sendMessage. fold message.
    apply nonempty_true in Hmsg. fold message in Hmsg.
    rewrite Hmsg, Htyping, Hnone. reflexivity. }
  rewrite Hsend. split; [| split].
  - apply issued_since_app. reflexivity.
  - reflexivity.
  - intros later i r clock' after Hi. simpl. rewrite Hi. intros [= <-].
    unfold createNewSession_done, loadSession.
    destruct r as [session | m | e].
    + match goal with |- context [renderSessions (set_sessions ?l ?x)] =>
        destruct (renderSessions_eq (set_sessions l x)) as [panel1 ->] end.
      match goal with |- context [renderSessions ?x] =>
        destruct (renderSessions_eq x) as [panel2 ->] end.
      cbn [currentSessionId set_loadingOverlay alert set_alerts send set_network
           set_chatSessions set_currentSessionId].
      destruct (session_selected (Some (session_id session))) eqn:Hsel; cbn [negb].
      * split; [| split].
        -- intros s' [= <-] _. split; [reflexivity |].
           apply issued_since_app. rewrite requests_sendMessage_post.
           simpl. rewrite <- List.app_assoc. reflexivity.
        -- rewrite currentSessionId_sendMessage_post. simpl currentSessionId.
           congruence.
        -- intros Hr. exfalso. exact (Hr session eq_refl).
      * split; [| split].
        -- intros s' [= <-] Hid. simpl in Hsel.
           apply negb_false_iff, Z.eqb_eq in Hsel. contradiction.
        -- intros _.
           rewrite (issued_since_app _ _ [PMessages (session_id session)]);
             reflexivity.
        -- intros Hr. exfalso. exact (Hr session eq_refl).
    + cbn [currentSessionId set_loadingOverlay].
      destruct (session_selected (currentSessionId (settle i later))) eqn:Hsel;
        cbn [negb].
      * split; [| split].
        -- intros s' [=].
        -- rewrite currentSessionId_sendMessage_post. simpl currentSessionId.
           simpl in Hsel. congruence.
        -- intros _ Hsel'. simpl in Hsel. congruence.
      * assert (Hnothing : issued_since later (set_loadingOverlay false (settle i later)) = []).
        { apply issued_since_app. simpl. now rewrite app_nil_r. }
        rewrite Hnothing. split; [| split]; auto. intros s' [=].
    + cbn [currentSessionId set_loadingOverlay alert set_alerts].
      destruct (session_selected (currentSessionId (settle i later))) eqn:Hsel;
        cbn [negb].
      * split; [| split].
        -- intros s' [=].
        -- rewrite currentSessionId_sendMessage_post. simpl currentSessionId.
           simpl in Hsel. congruence.
        -- intros _ Hsel'. simpl in Hsel. congruence.
      * assert (Hnothing :
          issued_since later
            (set_loadingOverlay false
               (alert "Failed to create new session" "danger" (settle i later))) = []).
        { apply issued_since_app. simpl. now rewrite app_nil_r. }
        rewrite Hnothing. split; [| split]; auto. intros s' [=].
Qed.

(** The list came back empty and a question was typed. *)
Definition question_typed : State :=
  set_messageInput "  What is anticipatory bail?  "
    (loadSessions_done (Succeeded []) (settle 0 constructor)).

Lemma sendMessage_creates_session_first_witness :
  currentSessionId question_typed = None
  /\ isTyping question_typed = false
  /\ trim (messageInput question_typed) <> EmptyString
  /\ issued_since question_typed (sendMessage noon question_typed)
     = [PCreate "Chat Session 3/2/2024, 12:00:00 PM"
          (Some "What is anticipatory bail?")].
Proof.
  split; [reflexivity |]. split; [reflexivity |]. split; [discriminate |].
  refine (proj1 (sendMessage_creates_session_first question_typed noon
                   eq_refl eq_refl _)).
  discriminate.
Defined.

(** The whole exchange: the session is created, its messages are
    requested, and the question is posted to its chat. *)
Example first_message_opens_session :
  option_map requests
    (run [ SessionsSettle 0 (Succeeded []);
           TypeText "  What is anticipatory bail?  ";
           PressSend noon;
           CreateSettles 0 (Succeeded property_dispute) noon ] constructor)
  = Some [ PSessions;
           PCreate "Chat Session 3/2/2024, 12:00:00 PM"
             (Some "What is anticipatory bail?");
           PMessages 1;
           PChat (Some 1%Z) "What is anticipatory bail?" ].
Proof. vm_compute. reflexivity. Qed.

Definition tenancy_query : Session :=
  {| session_id := 2; session_title := "Tenancy query";
     updated_at := "2024-03-01T11:00:00Z"; message_count := None |}.

(** Two sessions are listed, the first is open, and its deletion was
    confirmed. *)
Definition deletion_requested : State :=
  deleteSession 1 true
    (loadSession 1
       (loadSessions_done (Succeeded [property_dispute; tenancy_query])
          (settle 0 constructor))).

Lemma deleteSession_removes_witness :
  inflight deletion_requested !! 1%nat = Some (PDelete 1)
  /\ step (DeleteSettles 1 (Succeeded tt)) deletion_requested
     = Some (deleteSession_done 1 (Succeeded tt) (settle 1 deletion_requested))
  /\ currentSessionId (deleteSession_done 1 (Succeeded tt) (settle 1 deletion_requested))
     = None.
Proof.
  split; [reflexivity |]. split; [reflexivity |].
  refine (proj1 (proj2 (proj2 (proj2
    (deleteSession_removes deletion_requested _ 1 1 (Succeeded tt)
       eq_refl _ eq_refl)))) eq_refl).
  intros e. discriminate.
Defined.

Example deleteSession_keeps_others :
  sessions (deleteSession_done 1 (Succeeded tt) (settle 1 deletion_requested))
  = [tenancy_query].
Proof. vm_compute. reflexivity. Qed.

End ChatBotProps.

(** ** A body with [success: false] against a thrown failure *)

Module ErrorHandlingProps.
Import JS Utils API.




End ErrorHandlingProps.

(** ** Text helpers and form validation *)

Module UtilsProps.
Import JS Utils StringProps.

Lemma length_append (a b : string) :
  String.length (a +:+ b) = (String.length a + String.length b)%nat.
Proof.
  induction a as [| c a IH]; [reflexivity |].
  rewrite append_cons. simpl. now rewrite IH.
Qed.

Lemma substring_prefix (n : nat) (s : string) :
  (n <= String.length s)%nat ->
  exists rest,
    s = substring 0 n s +:+ rest /\ String.length (substring 0 n s) = n.
Proof.
  revert s. induction n as [| n IH]; intros s Hn.
  - exists s. destruct s; split; reflexivity.
  - destruct s as [| c s]; simpl in Hn; [lia |].
    destruct (IH s ltac:(lia)) as (rest & Hs & Hlen).
    exists rest. simpl. rewrite append_cons, <- Hs, Hlen. split; reflexivity.
Qed.

(** X1: [truncateText] returns a short text unchanged; a longer one is cut
    to its first [maxLength] characters followed by three dots.  The result
    is never longer than [maxLength + 3]. *)
Theorem truncateText_shape (text : string) (maxLength : nat) :
  (String.length (truncateText text maxLength) <= maxLength + 3)%nat
  /\ ((String.length text <= maxLength)%nat -> truncateText text maxLength = text)
  /\ ((maxLength < String.length text)%nat ->
      exists kept dropped,
        text = kept +:+ dropped
        /\ String.length kept = maxLength
        /\ dropped <> EmptyString
        /\ truncateText text maxLength = kept +:+ "...").
Proof.
  unfold truncateText.
  destruct (Nat.leb_spec (String.length text) maxLength) as [Hshort | Hlong].
  - split; [lia |]. split; [reflexivity | lia].
  - destruct (substring_prefix maxLength text ltac:(lia)) as (rest & Htext & Hlen).
    split; [rewrite length_append, Hlen; simpl; lia |].
    split; [lia |]. intros _.
    exists (substring 0 maxLength text), rest. repeat split; auto.
    intros ->. rewrite Htext, length_append, Hlen in Hlong. simpl in Hlong. lia.
Qed.

(** *** The e-mail pattern *)

Lemma cuts_spec (s a b : string) : In (a, b) (cuts s) <-> s = a +:+ b.
Proof.
  revert a. induction s as [| c s IH]; intros a; simpl.
  - split.
    + intros [[= <- <-] | []]. reflexivity.
    + intros H. symmetry in H. apply append_eq_empty in H as [-> ->]. auto.
  - rewrite in_map_iff. split.
    + intros [[= <- <-] | ([a' b'] & [= <- <-] & Hin)]; [reflexivity |].
      apply IH in Hin. rewrite append_cons. now rewrite <- Hin.
    + destruct a as [| x a].
      * rewrite append_nil. intros <-. auto.
      * rewrite append_cons. intros [= <- Hs]. right.
        exists (a, b). split; [reflexivity | now apply IH].
Qed.

Lemma every_app (p : ascii -> bool) (a b : string) :
  every p (a +:+ b) = every p a && every p b.
Proof.
  induction a as [| c a IH]; [reflexivity |].
  rewrite append_cons. simpl. rewrite IH. now rewrite andb_assoc.
Qed.

(** The reading of the pattern: a local part, an at sign, a host, a dot and
    a final part, each a non-empty run of characters other than white space
    and the at sign. *)
Definition email_parts (email local host tld : string) : Prop :=
  email = local +:+ "@" +:+ host +:+ "." +:+ tld
  /\ email_run local = true /\ email_run host = true /\ email_run tld = true.

Lemma validateEmail_parts (email : string) :
  validateEmail email = true <-> exists local host tld, email_parts email local host tld.
Proof.
  unfold validateEmail, email_parts. rewrite existsb_exists. split.
  - intros ([local rest] & Hcut & Hok). simpl in Hok.
    apply cuts_spec in Hcut.
    apply andb_true_iff in Hok as [Hlocal Hrest].
    destruct rest as [| c domain]; [discriminate |].
    apply andb_true_iff in Hrest as [Hat Hdomain].
    apply Ascii.eqb_eq in Hat. subst c.
    apply existsb_exists in Hdomain as ([host rest'] & Hcut' & Hok').
    simpl in Hok'. apply cuts_spec in Hcut'.
    apply andb_true_iff in Hok' as [Hhost Htld].
    destruct rest' as [| d tld]; [discriminate |].
    apply andb_true_iff in Htld as [Hdot Htld].
    apply Ascii.eqb_eq in Hdot. subst d.
    exists local, host, tld. subst. auto.
  - intros (local & host & tld & -> & Hlocal & Hhost & Htld).
    exists (local, String "@"%char (host +:+ String "."%char tld)). split.
    + apply cuts_spec. reflexivity.
    + cbn [fst snd]. rewrite Hlocal, Ascii.eqb_refl. cbn [andb].
      apply existsb_exists.
      exists (host, String "."%char tld). split.
      * apply cuts_spec. reflexivity.
      * cbn [fst snd]. rewrite Hhost, Htld, Ascii.eqb_refl. reflexivity.
Qed.

Fixpoint occurrences (c : ascii) (s : string) : nat :=
  match s with
  | EmptyString => 0
  | String x rest => (if Ascii.eqb x c then 1 else 0) + occurrences c rest
  end.

Lemma occurrences_app (c : ascii) (a b : string) :
  occurrences c (a +:+ b) = (occurrences c a + occurrences c b)%nat.
Proof.
  induction a as [| x a IH]; [reflexivity |].
  rewrite append_cons. simpl. rewrite IH. lia.
Qed.

Lemma email_run_facts (s : string) :
  email_run s = true ->
  occurrences "@" s = 0%nat
  /\ every (fun c => negb (is_space c)) s = true
  /\ (1 <= String.length s)%nat.
Proof.
  unfold email_run. rewrite andb_true_iff. intros [Hne Hall].
  split; [| split].
  - clear Hne. induction s as [| c s IH]; [reflexivity |].
    simpl in *. apply andb_true_iff in Hall as [Hc Hs].
    unfold email_char in Hc. apply andb_true_iff in Hc as [_ Hc].
    apply negb_true_iff in Hc. rewrite Hc. simpl. auto.
  - clear Hne. induction s as [| c s IH]; [reflexivity |].
    simpl in *. apply andb_true_iff in Hall as [Hc Hs].
    unfold email_char in Hc. apply andb_true_iff in Hc as [Hc _].
    rewrite Hc. simpl. auto.
  - destruct s; [discriminate | simpl; lia].
Qed.

(** X2: [validateEmail] accepts exactly the addresses made of a local
    part, an at sign, a host, a dot and a final part, each non-empty and
    free of white space and at signs.  So an accepted address has exactly
    one at sign, no white space, and at least five characters. *)
Theorem validateEmail_accepts (email : string) :
  (validateEmail email = true <->
   exists local host tld, email_parts email local host tld)
  /\ (validateEmail email = true ->
      occurrences "@" email = 1%nat
      /\ every (fun c => negb (is_space c)) email = true
      /\ (5 <= String.length email)%nat).
Proof.
  split; [apply validateEmail_parts |].
  intros H. apply validateEmail_parts in H as (local & host & tld & -> & Hl & Hh & Ht).
  apply email_run_facts in Hl as (Ol & Sl & Ll).
  apply email_run_facts in Hh as (Oh & Sh & Lh).
  apply email_run_facts in Ht as (Ot & St & Lt).
  rewrite !occurrences_app, !every_app, !length_append, Ol, Oh, Ot, Sl, Sh, St.
  simpl. repeat split; lia.
Qed.

Example validateEmail_examples :
  map validateEmail
    [ "client@example.com"; "a@b"; "two@@example.com"; "with space@example.com";
      "@example.com"; "name@.com"; "name@example."; "first.last@mail.example.in" ]
  = [ true; false; false; false; false; false; false; true ].
Proof. vm_compute. reflexivity. Qed.

End UtilsProps.

Module AuthProps.
Import JS Utils Auth.

Lemma filled_iff (v : option string) :
  filled v = true <-> exists s, v = Some s /\ s <> EmptyString.
Proof.
  destruct v as [s |]; simpl.
  - rewrite StringProps.nonempty_true. split.
    + intros H. exists s. auto.
    + intros (s' & [= <-] & H). exact H.
  - split; [discriminate | intros (s & H & _); discriminate].
Qed.

Lemma validatePassword_valid (p : string) :
  is_valid (validatePassword p) = true <-> (6 <= String.length p)%nat.
Proof.
  unfold validatePassword.
  destruct (Nat.ltb_spec (String.length p) 6); simpl; split; intros; try lia;
    congruence.
Qed.

(** What the registration handler requires of a submission. *)
Definition acceptable (form : RegisterForm) : Prop :=
  filled (reg_name form) = true
  /\ (exists e, reg_email form = Some e /\ validateEmail e = true)
  /\ (exists p, reg_password form = Some p /\ (6 <= String.length p)%nat)
  /\ reg_confirm_password form = reg_password form
  /\ reg_terms form <> Some false.

Definition passes (form : RegisterForm) : bool :=
  filled (reg_name form)
  && (filled (reg_email form) && validateEmail (default EmptyString (reg_email form)))
  && (filled (reg_password form)
      && is_valid (validatePassword (default EmptyString (reg_password form))))
  && bool_decide (reg_password form = reg_confirm_password form)
  && negb (bool_decide (reg_terms form = Some false)).

Lemma registerSubmit_registered (form : RegisterForm) :
  registered (registerSubmit form)
  = if passes form then Some (userData_of form) else None.
Proof.
  destruct form as [n e p c ut ph dg cl q t].
  unfold registerSubmit, passes. simpl.
  destruct (filled n), (filled e), (validateEmail (default EmptyString e)),
    (filled p), (is_valid (validatePassword (default EmptyString p))),
    (bool_decide (p = c)), t as [[] |]; reflexivity.
Qed.

Lemma registerSubmit_quiet (form : RegisterForm) :
  field_errors (registerSubmit form) = [] /\ terms_alert (registerSubmit form) = false
  <-> passes form = true.
Proof.
  destruct form as [n e p c ut ph dg cl q t].
  unfold registerSubmit, passes. simpl.
  destruct (filled n), (filled e), (validateEmail (default EmptyString e)),
    (filled p), (is_valid (validatePassword (default EmptyString p))),
    (bool_decide (p = c)), t as [[] |]; simpl;
    (split; [intros [He Ha]; try discriminate; reflexivity
            | intros H; try discriminate; split; reflexivity]).
Qed.

Lemma validateEmail_nonempty (e : string) : validateEmail e = true -> nonempty e = true.
Proof. destruct e; [discriminate | reflexivity]. Qed.

Lemma passes_iff (form : RegisterForm) : passes form = true <-> acceptable form.
Proof.
  destruct form as [n e p c ut ph dg cl q t].
  unfold passes, acceptable. simpl.
  rewrite !andb_true_iff, bool_decide_eq_true, negb_true_iff, bool_decide_eq_false.
  rewrite validatePassword_valid. split.
  - intros ((((Hn & He & Hv) & Hp & Hlen) & Hc) & Ht).
    destruct e as [e |]; [| discriminate]. destruct p as [p |]; [| discriminate].
    simpl in *. repeat split; eauto.
  - intros (Hn & (e' & -> & Hv) & (p' & -> & Hlen) & Hc & Ht). simpl.
    repeat split; auto.
    + apply validateEmail_nonempty. exact Hv.
    + destruct p'; [simpl in Hlen; lia | reflexivity].
Qed.

(** X3: the registration handler calls [Auth.register] exactly for the
    submissions with a name, an address that [validateEmail] accepts, a
    password of six characters or more that is repeated in the
    confirmation field, and the terms box ticked when the form has one.
    It is called exactly when no field error and no terms alert was shown,
    and it is passed the form's data, with [user_type] defaulting to
    [user]. *)
Theorem registerSubmit_sends_only_valid (form : RegisterForm) :
  (registered (registerSubmit form) = Some (userData_of form) <-> acceptable form)
  /\ (registered (registerSubmit form) = None <-> ~ acceptable form)
  /\ (registered (registerSubmit form) <> None <->
      field_errors (registerSubmit form) = []
      /\ terms_alert (registerSubmit form) = false)
  /\ (filled (reg_user_type form) = false -> user_type (userData_of form) = "user").
Proof.
  rewrite registerSubmit_registered, registerSubmit_quiet, <- passes_iff.
  assert (Hut : filled (reg_user_type form) = false ->
                user_type (userData_of form) = "user").
  { simpl. destruct (reg_user_type form) as [[| c s] |]; simpl; congruence. }
  destruct (passes form); intuition congruence.
Qed.

Definition sample_registration : RegisterForm :=
  {| reg_name := Some "Asha Verma"; reg_email := Some "asha@example.in";
     reg_password := Some "secret1"; reg_confirm_password := Some "secret1";
     reg_user_type := None; reg_phone_no := None; reg_degree := None;
     reg_college := None; reg_qualifications := None; reg_terms := Some true |}.

Example registerSubmit_sample :
  registered (registerSubmit sample_registration)
  = Some (userData_of sample_registration)
  /\ registered (registerSubmit
       {| reg_name := Some "Asha Verma"; reg_email := Some "asha@example.in";
          reg_password := Some "short"; reg_confirm_password := Some "short";
          reg_user_type := None; reg_phone_no := None; reg_degree := None;
          reg_college := None; reg_qualifications := None; reg_terms := None |})
     = None.
Proof. vm_compute. split; reflexivity. Qed.

(** X4: the login handler calls [Auth.login] exactly when the address is
    one that [validateEmail] accepts and the password is not empty, and
    then with what was typed; otherwise it shows at least one field error
    and does not call it. *)
Theorem loginSubmit_sends_only_valid (form : LoginForm) :
  (snd (loginSubmit form) = Some (login_email form, login_password form) <->
   (exists e, login_email form = Some e /\ validateEmail e = true)
   /\ filled (login_password form) = true)
  /\ (snd (loginSubmit form) <> None <-> fst (loginSubmit form) = [])
  /\ (snd (loginSubmit form) = None \/
      snd (loginSubmit form) = Some (login_email form, login_password form)).
Proof.
  destruct form as [e p]. unfold loginSubmit. simpl.
  destruct (filled e) eqn:He; simpl.
  - destruct e as [e |]; [| discriminate]. simpl.
    destruct (validateEmail e) eqn:Hv; simpl;
      destruct (filled p) eqn:Hp; simpl; repeat split;
      try congruence; try discriminate; eauto;
      try (intros [(e' & [= <-] & Hv') Hp']; congruence);
      try (intros H; exfalso; apply H; reflexivity).
  - destruct (filled p) eqn:Hp; simpl; repeat split;
      try congruence; try discriminate; eauto;
      try (intros [(e' & -> & Hv') Hp'];
           apply validateEmail_nonempty in Hv'; simpl in He; congruence);
      try (intros H; exfalso; apply H; reflexivity).
Qed.

(** What both validators of the change-password form require. *)
Definition password_change_ok (form : PasswordForm) : Prop :=
  filled (current_password form) = true
  /\ (exists p, new_password form = Some p /\ (6 <= String.length p)%nat)
  /\ confirm_password form = new_password form.

Definition password_passes (form : PasswordForm) : bool :=
  filled (current_password form)
  && (filled (new_password form)
      && negb (String.length (default EmptyString (new_password form)) <? 6)%nat)
  && bool_decide (new_password form = confirm_password form).

Lemma validatePasswordForm_eq (form : PasswordForm) :
  ProfileManager.validatePasswordForm form
  = (password_passes form,
     if password_passes form then None
     else snd (ProfileManager.validatePasswordForm form))
  /\ (password_passes form = false ->
      snd (ProfileManager.validatePasswordForm form) <> None).
Proof.
  destruct form as [cur new conf].
  unfold ProfileManager.validatePasswordForm, password_passes. simpl.
  destruct (filled cur), (filled new),
    (String.length (default EmptyString new) <? 6)%nat,
    (bool_decide (new = conf)); simpl; split; try reflexivity;
    intros; discriminate.
Qed.

Lemma changePasswordSubmit_eq (form : PasswordForm) :
  snd (changePasswordSubmit form)
  = if password_passes form
    then Some (current_password form, new_password form) else None.
Proof.
  destruct form as [cur new conf].
  unfold changePasswordSubmit, password_passes, validatePassword. simpl.
  destruct (filled cur), (filled new),
    (String.length (default EmptyString new) <? 6)%nat,
    (bool_decide (new = conf)); reflexivity.
Qed.

Lemma password_passes_iff (form : PasswordForm) :
  password_passes form = true <-> password_change_ok form.
Proof.
  destruct form as [cur new conf].
  unfold password_passes, password_change_ok. simpl.
  rewrite !andb_true_iff, bool_decide_eq_true, negb_true_iff, Nat.ltb_ge.
  split.
  - intros ((Hc & Hn & Hlen) & Heq).
    destruct new as [p |]; [| discriminate]. simpl in *.
    repeat split; eauto.
  - intros (Hc & (p & -> & Hlen) & Heq). simpl. repeat split; auto.
    destruct p; [simpl in Hlen; lia | reflexivity].
Qed.

(** X5: the change-password form is checked by two handlers, the one of
    the authentication script and [ProfileManager.validatePasswordForm].
    They accept the same submissions: those with a current password, a new
    password of six characters or more, and a matching confirmation.  The
    profile manager shows a warning exactly when it refuses. *)
Theorem password_validators_agree (form : PasswordForm) :
  (fst (ProfileManager.validatePasswordForm form) = true <-> password_change_ok form)
  /\ (snd (changePasswordSubmit form)
        = Some (current_password form, new_password form)
      <-> password_change_ok form)
  /\ (snd (changePasswordSubmit form) = None <-> ~ password_change_ok form)
  /\ (fst (ProfileManager.validatePasswordForm form) = false <->
      snd (ProfileManager.validatePasswordForm form) <> None).
Proof.
  destruct (validatePasswordForm_eq form) as [Hv Hwarn].
  rewrite changePasswordSubmit_eq, <- password_passes_iff.
  rewrite Hv. cbn [fst snd].
  destruct (password_passes form); intuition congruence.
Qed.

Example password_validators_examples :
  let ok := {| current_password := Some "old-secret"; new_password := Some "new-secret";
               confirm_password := Some "new-secret" |} in
  let short := {| current_password := Some "old-secret"; new_password := Some "new";
                  confirm_password := Some "new" |} in
  ProfileManager.validatePasswordForm ok = (true, None)
  /\ ProfileManager.validatePasswordForm short
     = (false, Some "New password must be at least 6 characters")
  /\ snd (changePasswordSubmit short) = None.
Proof. vm_compute. repeat split. Qed.

End AuthProps.
(** ** The upload helper against the request helper *)

Module UploadProps.
Import JS API.

(** X6: the upload helper settles a response exactly as [request] does:
    for the same status and body, [uploadDocument] resolves with the same
    data or rejects with the same error.  Only a connection error differs:
    the upload always reports [Upload failed]. *)
Theorem uploadDocument_like_request (API_BASE_URL : string)
    (fetch : string -> FetchInit -> FetchResult)
    (endpoint : string) (options : Options) (status : Z) (parsed : option Json) :
  fetch (API_BASE_URL +:+ endpoint) (requestOptions options)
    = FetchResponse status parsed ->
  request API_BASE_URL fetch endpoint options = uploadDocument (XhrLoad status parsed)
  /\ uploadDocument XhrError = Throws (Error "Upload failed").
Proof.
  intros Hfetch. split; [| reflexivity].
  unfold request, uploadDocument, ok. rewrite Hfetch.
  destruct parsed as [data |]; [| reflexivity].
  replace (status <? 300)%Z with (status <=? 299)%Z
    by (destruct (Z.leb_spec status 299), (Z.ltb_spec status 300); lia).
  destruct ((200 <=? status)%Z && (status <=? 299)%Z); reflexivity.
Qed.

Lemma uploadDocument_like_request_witness :
  APIProps.not_found ("/api" +:+ "/documents/upload")
    (requestOptions {| method := Some "POST"; data := None |})
  = FetchResponse 404
      (Some (JObject {[ "message" := JStr "Session not found" ]}))
  /\ request "/api" APIProps.not_found "/documents/upload"
       {| method := Some "POST"; data := None |}
     = uploadDocument
         (XhrLoad 404 (Some (JObject {[ "message" := JStr "Session not found" ]}))).
Proof.
  split; [reflexivity |].
  exact (proj1 (uploadDocument_like_request "/api" APIProps.not_found
                  "/documents/upload" {| method := Some "POST"; data := None |}
                  404 _ eq_refl)).
Defined.

End UploadProps.

(** ** Document manager: beyond validation and search *)

Module DocumentManagerMore.
Import JS Utils API DocumentManager StringProps.

(** The verdict of [validateFile], which does not depend on the state. *)
Definition accepts (file : File) : bool :=
  negb (maxFileSize <? file_size file)%Z
  && bool_decide (file_type file ∈ allowedTypes).

Lemma validateFile_verdict (file : File) (st : State) :
  fst (validateFile file st) = accepts file
  /\ requests (snd (validateFile file st)) = requests st
  /\ uploadInProgress (snd (validateFile file st)) = uploadInProgress st
  /\ length (alerts (snd (validateFile file st)))
     = (length (alerts st) + if accepts file then 0 else 1)%nat.
Proof.
  unfold validateFile, accepts.
  destruct (maxFileSize <? file_size file)%Z; simpl.
  - repeat split. lia.
  - destruct (bool_decide (file_type file ∈ allowedTypes)); simpl;
      repeat split; lia.
Qed.

Lemma processFiles_nil (st : State) : processFiles [] st = st.
Proof. reflexivity. Qed.

Lemma processFiles_cons (file : File) (files : list File) (st : State) :
  processFiles (file :: files) st
  = processFiles files
      (if fst (validateFile file st)
       then uploadFile file (snd (validateFile file st))
       else snd (validateFile file st)).
Proof.
  unfold processFiles. simpl. destruct (validateFile file st) as [[] st1]; reflexivity.
Qed.

(** With the flag raised every file is answered by an alert (an error if
    it fails a check, the warning otherwise) and nothing is sent. *)
Lemma processFiles_busy (files : list File) (st : State) :
  uploadInProgress st = true ->
  requests (processFiles files st) = requests st
  /\ uploadInProgress (processFiles files st) = true
  /\ length (alerts (processFiles files st))
     = (length (alerts st) + length files)%nat.
Proof.
  revert st. induction files as [| file files IH]; intros st Hflag.
  - rewrite processFiles_nil. simpl. repeat split; [exact Hflag | lia].
  - rewrite processFiles_cons.
    destruct (validateFile_verdict file st) as (Hv & Hreq & Hfl & Hal).
    rewrite Hflag in Hfl.
    destruct (fst (validateFile file st)).
    + assert (Hup : uploadFile file (snd (validateFile file st))
                    = alert "Another upload is in progress. Please wait." "warning"
                        (snd (validateFile file st)))
        by (unfold uploadFile; rewrite Hfl; reflexivity).
      rewrite Hup.
      destruct (IH (alert "Another upload is in progress. Please wait." "warning"
                      (snd (validateFile file st))) Hfl) as (Hr & Hf & Ha).
      rewrite Hr, Hf, Ha. simpl. rewrite Hreq, Hal, <- Hv.
      repeat split. lia.
    + destruct (IH _ Hfl) as (Hr & Hf & Ha).
      rewrite Hr, Hf, Ha, Hreq, Hal, <- Hv. simpl. repeat split. lia.
Qed.

(** X7: of the files selected or dropped together, only the first one that
    passes validation is uploaded (and none while an upload is in
    progress); every other file is answered by one alert, so the number of
    alerts shown is the number of files minus the one uploaded. *)
Theorem processFiles_uploads_first_valid (files : list File) (st : State) :
  let uploaded :=
    if uploadInProgress st then None else List.find accepts files in
  requests (processFiles files st)
  = requests st
    ++ match uploaded with
       | Some file => [PUpload file (strip_extension (file_name file))]
       | None => []
       end
  /\ length (alerts (processFiles files st))
     = (length (alerts st) + length files
        - match uploaded with Some _ => 1 | None => 0 end)%nat
  /\ uploadInProgress (processFiles files st)
     = match uploaded with Some _ => true | None => uploadInProgress st end.
Proof.
  simpl. destruct (uploadInProgress st) eqn:Hflag.
  - destruct (processFiles_busy files st Hflag) as (Hr & Hf & Ha).
    rewrite Hr, Hf, Ha, app_nil_r. repeat split. lia.
  - revert st Hflag. induction files as [| file files IH]; intros st Hflag.
    + rewrite processFiles_nil. simpl. rewrite app_nil_r, Hflag. repeat split. lia.
    + rewrite processFiles_cons.
      destruct (validateFile_verdict file st) as (Hv & Hreq & Hfl & Hal).
      rewrite Hflag in Hfl. simpl List.find. rewrite <- Hv. rewrite <- Hv in Hal.
      destruct (fst (validateFile file st)).
      * assert (Hup : uploadInProgress (uploadFile file (snd (validateFile file st))) = true)
          by (unfold uploadFile; rewrite Hfl; reflexivity).
        destruct (processFiles_busy files _ Hup) as (Hr & Hf & Ha).
        rewrite Hr, Hf, Ha.
        unfold uploadFile. rewrite Hfl. simpl. rewrite Hreq, Hal.
        repeat split. lia.
      * destruct (IH _ Hfl) as (Hr & Ha & Hf).
        rewrite Hr, Ha, Hf, Hreq, Hal.
        destruct (List.find accepts files); simpl; repeat split; lia.
Qed.

Example processFiles_three_files :
  let st := processFiles
              [DocumentManagerProps.oversized_pdf; DocumentManagerProps.lease_pdf;
               DocumentManagerProps.notes_txt]
              (constructor DocumentManagerProps.plain_page) in
  requests st = [PLoadDocuments; PUpload DocumentManagerProps.lease_pdf "lease"]
  /\ map alert_type (alerts st) = ["warning"; "error"].
Proof. vm_compute. split; reflexivity. Qed.

(** X8: when loading the collection fails (the request throws or the body
    has no success), the grid shows the empty-state panel and one error
    alert is added, but the collection held by the manager is not
    touched: the next call of [filterDocuments] with no term and no type
    selected puts the documents loaded earlier back on the page. *)
Theorem loadDocuments_failure_keeps_collection (st : State) (r : Settled (list Document)) :
  (forall docs, r <> Succeeded docs) ->
  let st' := loadDocuments_done r st in
  documentsGrid st' = GridEmpty
  /\ currentDocuments st' = currentDocuments st
  /\ (exists text, alerts st' = showAlert ("Failed to load documents: " +:+ text) "error" (alerts st))
  /\ requests st' = requests st
  /\ (or_default (documentSearch st) EmptyString = EmptyString ->
      or_default (typeFilter st) EmptyString = EmptyString ->
      rendered (documentsGrid (filterDocuments EmptyString st')) = currentDocuments st).
Proof.
  intros Hr st'. subst st'. unfold loadDocuments_done.
  destruct r as [docs | m | e]; [exfalso; exact (Hr docs eq_refl) | |];
    simpl; (repeat split; eauto);
    intros Hs Ht; unfold filterDocuments; simpl; rewrite Hs, Ht; simpl;
    apply DocumentManagerProps.rendered_renderDocuments.
Qed.

Lemma loadDocuments_failure_keeps_collection_witness :
  (forall docs, @Failed (list Document) "Failed to fetch" <> Succeeded docs)
  /\ currentDocuments
       (loadDocuments_done (Failed "Failed to fetch")
          (set_currentDocuments [DocumentManagerProps.lease_agreement]
             (constructor DocumentManagerProps.plain_page)))
     = [DocumentManagerProps.lease_agreement].
Proof.
  split; [intros docs; discriminate |].
  refine (proj1 (proj2 (loadDocuments_failure_keeps_collection
    (set_currentDocuments [DocumentManagerProps.lease_agreement]
       (constructor DocumentManagerProps.plain_page))
    (Failed "Failed to fetch") _))).
  intros docs. discriminate.
Defined.

Definition succeeded {A : Type} (r : Settled A) : bool :=
  match r with Succeeded _ => true | _ => false end.

(** X9: uploading, re-analysing and deleting ask for the collection again
    when, and only when, the operation succeeded; each of them shows one
    alert, a success alert in that case and an error alert otherwise. *)
Theorem mutations_reload_on_success (st : State) (r : Settled unit) :
  let reload := if succeeded r then [PLoadDocuments] else [] in
  let kind := if succeeded r then "success" else "error" in
  (requests (uploadFile_done r st) = requests st ++ reload
   /\ map alert_type (alerts (uploadFile_done r st)) = kind :: map alert_type (alerts st))
  /\ (requests (analyzeDocument_done r st) = requests st ++ reload
      /\ map alert_type (alerts (analyzeDocument_done r st))
         = kind :: map alert_type (alerts st))
  /\ (requests (deleteDocument_done r st) = requests st ++ reload
      /\ map alert_type (alerts (deleteDocument_done r st))
         = kind :: map alert_type (alerts st)).
Proof.
  destruct r as [[] | m | e]; simpl; rewrite ?app_nil_r; repeat split.
Qed.

(** Declining the confirmation of a deletion leaves everything as it is. *)
Lemma deleteDocument_declined (docId : string) (st : State) :
  deleteDocument docId false st = st.
Proof. reflexivity. Qed.

(** X10: [filterDocuments] only redraws the grid: the collection, the
    requests and the upload flag are untouched, and filtering twice with
    the same argument shows what filtering once shows.  With no search
    term it shows the whole collection, or, when a type is selected, the
    documents with that analysis status. *)
Theorem filterDocuments_is_a_view (st : State) (searchTerm : string) :
  let st' := filterDocuments searchTerm st in
  currentDocuments st' = currentDocuments st
  /\ requests st' = requests st
  /\ inflight st' = inflight st
  /\ uploadInProgress st' = uploadInProgress st
  /\ filterDocuments searchTerm st' = st'
  /\ (or_default (documentSearch st) searchTerm = EmptyString ->
      forall doc,
        doc ∈ rendered (documentsGrid st') <->
        doc ∈ currentDocuments st
        /\ (or_default (typeFilter st) EmptyString <> EmptyString ->
            doc_analysis_status doc = Some (or_default (typeFilter st) EmptyString))).
Proof.
  unfold filterDocuments.
  set (term := or_default (documentSearch st) searchTerm).
  set (selected := or_default (typeFilter st) EmptyString).
  set (docs := if nonempty selected then _ else _).
  assert (Hfields : forall l,
    currentDocuments (renderDocuments l st) = currentDocuments st
    /\ requests (renderDocuments l st) = requests st
    /\ inflight (renderDocuments l st) = inflight st
    /\ uploadInProgress (renderDocuments l st) = uploadInProgress st
    /\ documentSearch (renderDocuments l st) = documentSearch st
    /\ typeFilter (renderDocuments l st) = typeFilter st
    /\ renderDocuments l (renderDocuments l st) = renderDocuments l st)
    by (intros []; repeat split).
  destruct (Hfields docs) as (Hc & Hr & Hi & Hu & Hs & Ht & Hidem).
  cbv zeta.
  split; [exact Hc |]. split; [exact Hr |]. split; [exact Hi |].
  split; [exact Hu |]. split.
  - rewrite Hc, Hs, Ht. fold term selected. fold docs. exact Hidem.
  - intros Hterm doc. rewrite DocumentManagerProps.rendered_renderDocuments.
    subst docs. rewrite Hterm. simpl.
    destruct (nonempty selected) eqn:Hsel.
    + rewrite DocumentManagerProps.elem_of_filter,
        DocumentManagerProps.matches_type_spec.
      apply nonempty_true in Hsel. tauto.
    + apply nonempty_false in Hsel. rewrite Hsel.
      split; [intros H; split; [exact H | congruence] | tauto].
Qed.

End DocumentManagerMore.
Module DocumentManagerView.
Import JS Utils API DocumentManager StringProps.

(** *** The title sent with an upload *)

Lemma all_chars_app (p : ascii -> bool) (a b : string) :
  all_chars p (a +:+ b) = all_chars p a && all_chars p b.
Proof.
  induction a as [| c a IH]; [reflexivity |].
  rewrite append_cons. simpl. rewrite IH. now rewrite andb_assoc.
Qed.

(** A final extension: one or more characters, none of them a dot or a
    slash. *)
Definition is_extension (ext : string) : Prop :=
  ext <> EmptyString /\ all_chars extension_char ext = true.

Lemma not_extension_with_dot (a b : string) :
  all_chars extension_char (a +:+ String "."%char b) = false.
Proof.
  rewrite all_chars_app. simpl. now rewrite andb_false_r.
Qed.

(** X11: the title sent with an upload is the file name without its final
    extension: if the name ends in a dot followed by one or more
    characters other than dot and slash, that ending is dropped; a name
    with no such ending is sent whole.  The title is always the beginning
    of the file name. *)
Theorem strip_extension_drops_final_extension (name : string) :
  (forall base ext,
     name = base +:+ String "."%char ext -> is_extension ext ->
     strip_extension name = base)
  /\ ((forall base ext, name = base +:+ String "."%char ext -> ~ is_extension ext) ->
      strip_extension name = name)
  /\ (exists dropped, name = strip_extension name +:+ dropped).
Proof.
  split; [| split].
  - intros base. revert name.
    induction base as [| c base IH]; intros name ext -> [Hne Hall].
    + rewrite append_nil. simpl.
      apply nonempty_true in Hne. rewrite Hne, Hall. reflexivity.
    + rewrite append_cons. simpl.
      rewrite not_extension_with_dot, andb_false_r.
      f_equal. apply (IH _ ext eq_refl). split; assumption.
  - induction name as [| c name IH]; intros Hnone; [reflexivity |].
    simpl.
    destruct (Ascii.eqb c "." && nonempty name && all_chars extension_char name)
      eqn:Hcond.
    + apply andb_true_iff in Hcond as [Hcond Hall].
      apply andb_true_iff in Hcond as [Hc Hne].
      apply Ascii.eqb_eq in Hc. subst c. exfalso.
      apply (Hnone EmptyString name eq_refl).
      split; [now apply nonempty_true | exact Hall].
    + f_equal. apply IH. intros base ext -> Hext.
      apply (Hnone (String c base) ext); [now rewrite append_cons | exact Hext].
  - induction name as [| c name [dropped IH]]; [exists EmptyString; reflexivity |].
    simpl.
    destruct (Ascii.eqb c "." && nonempty name && all_chars extension_char name).
    + exists (String c name). reflexivity.
    + exists dropped. rewrite append_cons. now rewrite <- IH.
Qed.

Example strip_extension_examples :
  map strip_extension
    [ "lease.pdf"; "case.notes.txt"; "README"; ".profile"; "draft."; "v1.2/final" ]
  = [ "lease"; "case.notes"; "README"; EmptyString; "draft."; "v1.2/final" ].
Proof. vm_compute. reflexivity. Qed.

(** *** The progress bar *)

Definition progress_matches (st : State) : Prop :=
  uploadProgress st = uploadInProgress st.

(** A function that touches neither the progress bar nor the flag. *)
Definition keeps_upload_state (f : State -> State) : Prop :=
  forall st, uploadProgress (f st) = uploadProgress st
             /\ uploadInProgress (f st) = uploadInProgress st.

Lemma keeps_matches (f : State -> State) (st : State) :
  keeps_upload_state f -> progress_matches st -> progress_matches (f st).
Proof.
  intros Hf H. unfold progress_matches in *. destruct (Hf st) as [-> ->]. exact H.
Qed.

Lemma keeps_compose (f g : State -> State) :
  keeps_upload_state f -> keeps_upload_state g ->
  keeps_upload_state (fun st => g (f st)).
Proof.
  intros Hf Hg st. destruct (Hf st) as [Hp Hu], (Hg (f st)) as [-> ->]. auto.
Qed.

Lemma keeps_alert message type : keeps_upload_state (alert message type).
Proof. intros st. split; reflexivity. Qed.

Lemma keeps_send p : keeps_upload_state (send p).
Proof. intros st. split; reflexivity. Qed.

Lemma keeps_settle i : keeps_upload_state (settle i).
Proof. intros st. split; reflexivity. Qed.

Lemma keeps_renderDocuments docs : keeps_upload_state (renderDocuments docs).
Proof. intros st. destruct docs; split; reflexivity. Qed.

Lemma keeps_loadDocuments : keeps_upload_state loadDocuments.
Proof. intros st. split; reflexivity. Qed.

Lemma keeps_filterDocuments term : keeps_upload_state (filterDocuments term).
Proof. intros st. unfold filterDocuments. apply keeps_renderDocuments. Qed.

Lemma keeps_validateFile file :
  keeps_upload_state (fun st => snd (validateFile file st)).
Proof.
  intros st. unfold validateFile.
  destruct (maxFileSize <? file_size file)%Z; [split; reflexivity |].
  destruct (negb (bool_decide (file_type file ∈ allowedTypes))); split; reflexivity.
Qed.

Lemma matches_uploadFile (file : File) (st : State) :
  progress_matches st -> progress_matches (uploadFile file st).
Proof.
  unfold progress_matches, uploadFile.
  destruct (uploadInProgress st) eqn:Hflag; simpl; [now rewrite Hflag | reflexivity].
Qed.

Lemma matches_processFiles (files : list File) (st : State) :
  progress_matches st -> progress_matches (processFiles files st).
Proof.
  unfold processFiles. revert st.
  induction files as [| file files IH]; intros st H; [exact H |].
  simpl. apply IH.
  pose proof (keeps_matches _ st (keeps_validateFile file) H) as Hv.
  cbv beta in Hv.
  destruct (validateFile file st) as [[] st1]; simpl in Hv;
    [apply matches_uploadFile |]; exact Hv.
Qed.

Lemma matches_step (e : Event) (st st' : State) :
  step e st = Some st' -> progress_matches st -> progress_matches st'.
Proof.
  destruct e; simpl; intros Hstep H.
  - injection Hstep as <-. destruct files; [exact H |].
    apply matches_processFiles. exact H.
  - injection Hstep as <-. destruct files; [exact H |].
    apply matches_processFiles. exact H.
  - injection Hstep as <-. unfold handleUpload.
    destruct (documentFile st); [exact H | apply matches_uploadFile; exact H].
  - injection Hstep as <-. exact H.
  - injection Hstep as <-. exact H.
  - injection Hstep as <-. destruct confirmed; exact H.
  - destruct (documentSearch st); [| discriminate]. injection Hstep as <-.
    apply (keeps_matches _ _ (keeps_filterDocuments text)). exact H.
  - destruct (typeFilter st); [| discriminate]. injection Hstep as <-.
    apply (keeps_matches _ _ (keeps_filterDocuments EmptyString)). exact H.
  - destruct (inflight st !! i) as [[] |]; try discriminate.
    injection Hstep as <-. unfold uploadFile_done.
    destruct r as [[] | m | e]; reflexivity.
  - destruct (inflight st !! i) as [[] |]; try discriminate.
    injection Hstep as <-. unfold loadDocuments_done.
    destruct r as [docs | m | e]; simpl.
    + apply (keeps_matches _ _ (keeps_renderDocuments docs)). exact H.
    + exact H.
    + exact H.
  - destruct (inflight st !! i) as [[] |]; try discriminate.
    injection Hstep as <-. unfold analyzeDocument_done.
    destruct r as [[] | m | e]; exact H.
  - destruct (inflight st !! i) as [[] |]; try discriminate.
    injection Hstep as <-. unfold viewDocument_done, showDocumentModal.
    destruct r as [doc | m | e]; exact H.
  - destruct (inflight st !! i) as [[] |]; try discriminate.
    injection Hstep as <-. unfold deleteDocument_done.
    destruct r as [[] | m | e]; exact H.
Qed.

(** X12: in every state the manager can reach, the upload progress bar is
    displayed exactly while the upload flag is raised: it appears with the
    upload request and goes when the request settles, whatever the
    outcome. *)
Theorem progress_bar_follows_upload (page : Page) (events : list Event) (st : State) :
  run events (constructor page) = Some st ->
  uploadProgress st = uploadInProgress st.
Proof.
  assert (Hrun : forall evs s s',
            run evs s = Some s' -> progress_matches s -> progress_matches s').
  { induction evs as [| e evs IH]; intros s s'; simpl.
    - intros [= <-]. exact id.
    - destruct (step e s) as [s1 |] eqn:Hstep; [| discriminate].
      intros Hr Hs. apply (IH _ _ Hr). eapply matches_step; eauto. }
  intros H. apply (Hrun _ _ _ H). reflexivity.
Qed.

Lemma progress_bar_follows_upload_witness :
  run [Drop [DocumentManagerProps.lease_pdf]; UploadSettles 1 (Failed "Upload failed")]
      (constructor DocumentManagerProps.plain_page)
  = Some (uploadFile_done (Failed "Upload failed")
            (settle 1 (handleDrop [DocumentManagerProps.lease_pdf]
                         (constructor DocumentManagerProps.plain_page))))
  /\ uploadProgress
       (uploadFile_done (Failed "Upload failed")
          (settle 1 (handleDrop [DocumentManagerProps.lease_pdf]
                       (constructor DocumentManagerProps.plain_page))))
     = uploadInProgress
         (uploadFile_done (Failed "Upload failed")
            (settle 1 (handleDrop [DocumentManagerProps.lease_pdf]
                         (constructor DocumentManagerProps.plain_page)))).
Proof.
  split; [reflexivity |].
  exact (progress_bar_follows_upload DocumentManagerProps.plain_page
           [Drop [DocumentManagerProps.lease_pdf];
            UploadSettles 1 (Failed "Upload failed")] _ eq_refl).
Defined.

(** *** Status badges *)

Definition known_statuses : list (option string) :=
  [Some "completed"; Some "processing"; Some "failed"].

(** X13: the documents page and the profile page colour every analysis
    status alike, and a status outside completed, processing and failed
    (pending, missing, or anything else) always gets the grey badge with
    the clock icon. *)
Theorem status_badges_consistent (status : option string) :
  getStatusClass status = ProfileManager.getAnalysisStatusClass status
  /\ (getStatusClass status = "bg-secondary" <-> status ∉ known_statuses)
  /\ (getStatusIcon status = "fas fa-clock" <-> status ∉ known_statuses).
Proof.
  split; [reflexivity |].
  unfold getStatusClass, getStatusIcon, known_statuses.
  destruct status as [s |].
  - destruct (String.eqb_spec s "completed") as [-> | H1].
    { split; (split; [discriminate | intros H; exfalso; apply H; left]). }
    destruct (String.eqb_spec s "processing") as [-> | H2].
    { split; (split; [discriminate | intros H; exfalso; apply H; right; left]). }
    destruct (String.eqb_spec s "failed") as [-> | H3].
    { split; (split; [discriminate | intros H; exfalso; apply H; right; right; left]). }
    split; (split; [| reflexivity]); intros _ Hin;
      repeat (apply elem_of_cons in Hin as [Hin | Hin]; [congruence |]);
      apply elem_of_nil in Hin; exact Hin.
  - split; (split; [| reflexivity]); intros _ Hin;
      repeat (apply elem_of_cons in Hin as [Hin | Hin]; [discriminate |]);
      apply elem_of_nil in Hin; exact Hin.
Qed.

End DocumentManagerView.
(** ** Chat manager: what is sent, and when *)

Module ChatBotMore.
Import JS Utils API ChatBot StringProps.

(** *** Trimmed text *)

Definition starts_clean (s : string) : Prop :=
  match s with
  | EmptyString => True
  | String c _ => is_space c = false
  end.

Fixpoint last_char (s : string) : option ascii :=
  match s with
  | EmptyString => None
  | String c rest =>
      match rest with
      | EmptyString => Some c
      | String _ _ => last_char rest
      end
  end.

Definition ends_clean (s : string) : Prop :=
  match last_char s with
  | Some c => is_space c = false
  | None => True
  end.

(** A text with something in it and no white space around it. *)
Definition trimmed (s : string) : Prop :=
  s <> EmptyString /\ starts_clean s /\ ends_clean s.

Lemma trimStart_spec (s : string) :
  starts_clean (trimStart s)
  /\ exists before, s = before +:+ trimStart s /\ every is_space before = true.
Proof.
  induction s as [| c s [IHc (before & IHs & IHb)]].
  - split; [exact I | exists EmptyString; split; reflexivity].
  - simpl. destruct (is_space c) eqn:Hc.
    + split; [exact IHc |]. exists (String c before).
      rewrite append_cons, <- IHs. simpl. rewrite Hc, IHb. split; reflexivity.
    + split; [exact Hc | exists EmptyString; split; reflexivity].
Qed.

Lemma trimEnd_spec (s : string) :
  ends_clean (trimEnd s)
  /\ (starts_clean s -> starts_clean (trimEnd s))
  /\ exists after, s = trimEnd s +:+ after /\ every is_space after = true.
Proof.
  induction s as [| c s (IHe & _ & after & IHs & IHa)].
  - split; [exact I |]. split; [auto |]. exists EmptyString. split; reflexivity.
  - simpl. destruct (trimEnd s) as [| d t] eqn:Ht.
    + rewrite append_nil in IHs. subst after.
      destruct (is_space c) eqn:Hc.
      * split; [exact I |]. split; [intros H; simpl in H; congruence |].
        exists (String c s). simpl. rewrite Hc, IHa. split; reflexivity.
      * split; [exact Hc |]. split; [auto |].
        exists s. split; [reflexivity | exact IHa].
    + split; [exact IHe |]. split; [auto |].
      exists after. rewrite append_cons, <- IHs. split; [reflexivity | exact IHa].
Qed.

Lemma trimStart_fixed (s : string) : starts_clean s -> trimStart s = s.
Proof. destruct s as [| c s]; simpl; [reflexivity | intros ->; reflexivity]. Qed.

Lemma trimEnd_fixed (s : string) : ends_clean s -> trimEnd s = s.
Proof.
  unfold ends_clean. induction s as [| c s IH]; [reflexivity |].
  simpl. destruct s as [| d t].
  - simpl. intros ->. reflexivity.
  - intros H. rewrite (IH H). reflexivity.
Qed.

(** What [trim] returns: the text between the leading and the trailing
    white space. *)
Lemma trim_spec (s : string) :
  starts_clean (trim s) /\ ends_clean (trim s)
  /\ trim (trim s) = trim s
  /\ exists before after,
       s = before +:+ trim s +:+ after
       /\ every is_space before = true /\ every is_space after = true.
Proof.
  unfold trim.
  destruct (trimStart_spec s) as (Hstart & before & Hs & Hb).
  destruct (trimEnd_spec (trimStart s)) as (Hend & Hkeep & after & Ht & Ha).
  specialize (Hkeep Hstart).
  split; [exact Hkeep |]. split; [exact Hend |]. split.
  - rewrite (trimStart_fixed _ Hkeep). apply trimEnd_fixed. exact Hend.
  - exists before, after. rewrite <- Ht. auto.
Qed.

Lemma trim_trimmed (s : string) : trim s <> EmptyString -> trimmed (trim s).
Proof.
  intros Hne. destruct (trim_spec s) as (H1 & H2 & _). split; auto.
Qed.

Lemma trim_blank (s : string) : every is_space s = true -> trim s = EmptyString.
Proof.
  intros H. unfold trim.
  assert (Hs : trimStart s = EmptyString).
  { induction s as [| c s IH]; [reflexivity |].
    simpl in *. apply andb_true_iff in H as [Hc Hrest].
    rewrite Hc. auto. }
  rewrite Hs. reflexivity.
Qed.

(** X14: a message input that holds nothing but white space (or nothing at
    all) is never sent: [sendMessage] leaves the state as it is, so no
    session is created and no request is issued. *)
Theorem sendMessage_blank_input (st : State) (clock : Clock) :
  every is_space (messageInput st) = true ->
  sendMessage clock st = st.
Proof.
  intros H. unfold sendMessage. rewrite (trim_blank _ H). reflexivity.
Qed.

Lemma sendMessage_blank_input_witness :
  every is_space (messageInput (set_messageInput "   " constructor)) = true
  /\ sendMessage ChatBotProps.noon (set_messageInput "   " constructor)
     = set_messageInput "   " constructor.
Proof.
  split; [reflexivity |].
  apply (sendMessage_blank_input (set_messageInput "   " constructor)
           ChatBotProps.noon).
  reflexivity.
Defined.

(** *** Every chat request is well formed *)

Definition well_formed (p : Pending) : Prop :=
  match p with
  | PChat sessionId message =>
      (exists id, sessionId = Some id /\ id <> 0%Z) /\ trimmed message
  | PCreate _ (Some message) => trimmed message
  | _ => True
  end.

Definition requests_well_formed (st : State) : Prop :=
  Forall well_formed (requests st) /\ Forall well_formed (inflight st).

Lemma wf_send (p : Pending) (st : State) :
  well_formed p -> requests_well_formed st -> requests_well_formed (send p st).
Proof.
  intros Hp [Hr Hi]. split; simpl; apply Forall_app; auto.
Qed.

Lemma wf_frame (st st' : State) :
  requests st' = requests st -> inflight st' = inflight st ->
  requests_well_formed st -> requests_well_formed st'.
Proof. intros Hr Hi [H1 H2]. split; congruence. Qed.

Lemma wf_settle (i : nat) (st : State) :
  requests_well_formed st -> requests_well_formed (settle i st).
Proof.
  intros [Hr Hi]. split; simpl; [exact Hr |]. apply Forall_delete. exact Hi.
Qed.

Lemma session_selected_spec (id : option Z) :
  session_selected id = true <-> exists n, id = Some n /\ n <> 0%Z.
Proof.
  destruct id as [n |]; simpl.
  - rewrite negb_true_iff, Z.eqb_neq. split.
    + intros H. exists n. auto.
    + intros (n' & [= <-] & H). exact H.
  - split; [discriminate | intros (n & H & _); discriminate].
Qed.

Lemma wf_post (message : string) (clock : Clock) (st : State) :
  trimmed message -> session_selected (currentSessionId st) = true ->
  requests_well_formed st ->
  requests_well_formed (sendMessage_post message clock st).
Proof.
  intros Hm Hsel [Hr Hi]. apply session_selected_spec in Hsel.
  split; simpl; apply Forall_app; (split; [assumption |]);
    apply Forall_singleton; (split; [exact Hsel | exact Hm]).
Qed.

Lemma wf_renderSessions (st : State) :
  requests_well_formed st -> requests_well_formed (renderSessions st).
Proof.
  destruct (ChatBotProps.renderSessions_eq st) as [panel ->]. exact id.
Qed.

Lemma wf_loadSession (sessionId : Z) (st : State) :
  requests_well_formed st -> requests_well_formed (loadSession sessionId st).
Proof.
  intros H. unfold loadSession. apply wf_send; [exact I |].
  apply wf_renderSessions. exact H.
Qed.

Lemma wf_sendMessage (clock : Clock) (st : State) :
  requests_well_formed st -> requests_well_formed (sendMessage clock st).
Proof.
  intros H. unfold sendMessage.
  destruct (nonempty (trim (messageInput st))) eqn:Hne; simpl; [| exact H].
  apply nonempty_true in Hne. apply trim_trimmed in Hne.
  destruct (isTyping st); simpl; [exact H |].
  destruct (session_selected (currentSessionId st)) eqn:Hsel; simpl.
  - apply wf_post; assumption.
  - unfold createNewSession. apply wf_send; [exact Hne | exact H].
Qed.

Lemma wf_createNewSession_done (r : Settled Session) (awaiting : option string)
    (clock : Clock) (st : State) :
  (forall m, awaiting = Some m -> trimmed m) ->
  requests_well_formed st ->
  requests_well_formed (createNewSession_done r awaiting clock st).
Proof.
  intros Haw H. unfold createNewSession_done.
  set (st1 := match r with Succeeded _ => _ | Unsuccessful _ => _ | Failed _ => _ end).
  assert (H1 : requests_well_formed st1).
  { subst st1. destruct r as [session | m | e]; [| exact H | exact H].
    apply (wf_frame (loadSession (session_id session)
                       (renderSessions (set_sessions (session :: sessions st) st))));
      [reflexivity | reflexivity |].
    apply wf_loadSession, wf_renderSessions. exact H. }
  destruct awaiting as [message |]; [| exact H1].
  destruct (session_selected (currentSessionId (set_loadingOverlay false st1))) eqn:Hsel;
    simpl; [| exact H1].
  apply wf_post; [apply Haw; reflexivity | exact Hsel | exact H1].
Qed.

Lemma wf_step (e : Event) (st st' : State) :
  step e st = Some st' -> requests_well_formed st -> requests_well_formed st'.
Proof.
  destruct e; simpl; intros Hstep H.
  - injection Hstep as <-. exact H.
  - injection Hstep as <-. apply wf_sendMessage. exact H.
  - injection Hstep as <-. unfold createNewSession. apply wf_send; [exact I | exact H].
  - injection Hstep as <-. apply wf_loadSession. exact H.
  - injection Hstep as <-. unfold deleteSession.
    destruct confirmed; simpl; [apply wf_send; [exact I | exact H] | exact H].
  - destruct (inflight st !! i) as [[] |]; try discriminate.
    injection Hstep as <-. apply (wf_settle i) in H.
    unfold loadSessions_done. destruct r as [loaded | m | e]; try exact H.
    apply wf_renderSessions. exact H.
  - destruct (inflight st !! i) as [[| title awaiting | | |] |] eqn:Hi;
      try discriminate.
    injection Hstep as <-.
    apply wf_createNewSession_done; [| apply wf_settle; exact H].
    intros m ->. destruct H as [_ Hin].
    exact (Forall_lookup_1 _ _ _ _ Hin Hi).
  - destruct (inflight st !! i) as [[] |]; try discriminate.
    injection Hstep as <-. apply (wf_settle i) in H.
    unfold loadSession_done. destruct r as [[session messages] | m | e];
      try exact H.
    destruct messages; exact H.
  - destruct (inflight st !! i) as [[] |]; try discriminate.
    injection Hstep as <-. apply (wf_settle i) in H.
    unfold sendMessage_done. destruct r as [ai | m | e]; try exact H.
    unfold loadSessions. apply wf_send; [exact I | exact H].
  - destruct (inflight st !! i) as [[] |]; try discriminate.
    injection Hstep as <-. apply (wf_settle i) in H.
    unfold deleteSession_done. destruct r as [[] | m | e]; try exact H.
    all: match goal with |- context [renderSessions ?x] =>
           destruct (ChatBotProps.renderSessions_eq x) as [panel ->] end;
         simpl;
         match goal with |- context [bool_decide ?P] => destruct (bool_decide P) end;
         exact H.
Qed.

Lemma wf_run (events : list Event) (st st' : State) :
  run events st = Some st' -> requests_well_formed st -> requests_well_formed st'.
Proof.
  revert st. induction events as [| e events IH]; intros st; simpl.
  - intros [= <-]. exact id.
  - destruct (step e st) as [st1 |] eqn:Hstep; [| discriminate].
    intros Hr Hs. apply (IH _ Hr). eapply wf_step; eauto.
Qed.

(** X15: whatever the user and the server do, every chat request the
    manager ever issues is addressed to a selected session (a non-zero
    id, never [null]) and carries a message that is not empty and has no
    white space around it: it is the trimmed content of the input. *)
Theorem chat_requests_well_formed (events : list Event) (st : State)
    (sessionId : option Z) (message : string) :
  run events constructor = Some st ->
  PChat sessionId message ∈ requests st ->
  (exists id, sessionId = Some id /\ id <> 0%Z)
  /\ message <> EmptyString
  /\ starts_clean message /\ ends_clean message
  /\ trim message = message.
Proof.
  intros Hrun Hin.
  assert (Hwf : requests_well_formed constructor).
  { split; repeat constructor. }
  destruct (wf_run _ _ _ Hrun Hwf) as [Hreq _].
  rewrite Forall_forall in Hreq. specialize (Hreq _ Hin).
  destruct Hreq as (Hid & Hne & Hs & He).
  repeat split; auto.
  unfold trim. rewrite (trimStart_fixed _ Hs). apply trimEnd_fixed. exact He.
Qed.

Definition first_exchange : list Event :=
  [ SessionsSettle 0 (Succeeded []);
    TypeText "  What is anticipatory bail?  ";
    PressSend ChatBotProps.noon;
    CreateSettles 0 (Succeeded ChatBotProps.property_dispute) ChatBotProps.noon ].

Definition after_first_exchange : State :=
  createNewSession_done (Succeeded ChatBotProps.property_dispute)
    (Some "What is anticipatory bail?") ChatBotProps.noon
    (settle 0 (sendMessage ChatBotProps.noon ChatBotProps.question_typed)).

Lemma chat_requests_well_formed_witness :
  run first_exchange constructor = Some after_first_exchange
  /\ PChat (Some 1%Z) "What is anticipatory bail?" ∈ requests after_first_exchange
  /\ trim "What is anticipatory bail?" = "What is anticipatory bail?".
Proof.
  assert (Hin : PChat (Some 1%Z) "What is anticipatory bail?"
                ∈ requests after_first_exchange).
  { vm_compute. right. right. right. left. }
  assert (Hrun : run first_exchange constructor = Some after_first_exchange).
  { vm_compute. reflexivity. }
  split; [exact Hrun |]. split; [exact Hin |].
  exact (proj2 (proj2 (proj2 (proj2
    (chat_requests_well_formed first_exchange after_first_exchange (Some 1%Z)
       "What is anticipatory bail?" Hrun Hin))))).
Defined.

(** *** The typing indicator *)

Definition typing_consistent (st : State) : Prop :=
  typingIndicator st = isTyping st
  /\ sendButtonDisabled st = isTyping st
  /\ (isTyping st = true -> exists p, p ∈ inflight st /\ is_chat p = true).

(** A function that leaves the typing state alone and takes no request
    out of flight. *)
Definition keeps_typing (f : State -> State) : Prop :=
  forall st,
    isTyping (f st) = isTyping st
    /\ typingIndicator (f st) = typingIndicator st
    /\ sendButtonDisabled (f st) = sendButtonDisabled st
    /\ exists issued, inflight (f st) = inflight st ++ issued.

Lemma keeps_typing_consistent (f : State -> State) (st : State) :
  keeps_typing f -> typing_consistent st -> typing_consistent (f st).
Proof.
  intros Hf (Hi & Hb & Hp). unfold typing_consistent.
  destruct (Hf st) as (E1 & E2 & E3 & issued & E4). rewrite E1, E2, E3, E4.
  split; [exact Hi |]. split; [exact Hb |].
  intros Ht. destruct (Hp Ht) as (p & Hin & Hc).
  exists p. split; [apply elem_of_app; left; exact Hin | exact Hc].
Qed.

Ltac keeps_typing_tac :=
  let s := fresh "st" in
  intros s;
  repeat match goal with
         | |- context [renderSessions ?x] =>
             destruct (ChatBotProps.renderSessions_eq x) as [? ->]
         end;
  simpl; repeat split;
  first [ eexists; reflexivity | exists []; now rewrite app_nil_r ].

Lemma keeps_set_messageInput text : keeps_typing (set_messageInput text).
Proof. keeps_typing_tac. Qed.

Lemma keeps_createNewSession awaiting clock :
  keeps_typing (createNewSession awaiting clock).
Proof. keeps_typing_tac. Qed.

Lemma keeps_loadSession sessionId : keeps_typing (loadSession sessionId).
Proof. unfold loadSession. keeps_typing_tac. Qed.

Lemma keeps_deleteSession sessionId confirmed :
  keeps_typing (deleteSession sessionId confirmed).
Proof. destruct confirmed; keeps_typing_tac. Qed.

Lemma keeps_loadSessions_done r : keeps_typing (loadSessions_done r).
Proof. destruct r; unfold loadSessions_done; keeps_typing_tac. Qed.

Lemma keeps_loadSession_done r : keeps_typing (loadSession_done r).
Proof.
  destruct r as [[session [| m messages]] | m | e]; unfold loadSession_done;
    keeps_typing_tac.
Qed.

Lemma keeps_deleteSession_done sessionId r :
  keeps_typing (deleteSession_done sessionId r).
Proof.
  intros st. unfold deleteSession_done.
  destruct r as [[] | m | e].
  3: revert st; keeps_typing_tac.
  all: destruct (ChatBotProps.renderSessions_eq
                   (set_sessions (filter (fun s => session_id s <> sessionId) (sessions st)) st))
         as [panel ->];
       match goal with |- context [bool_decide ?P] => destruct (bool_decide P) end;
       simpl; repeat split; exists []; now rewrite app_nil_r.
Qed.

Lemma typing_post (message : string) (clock : Clock) (st : State) :
  typing_consistent (sendMessage_post message clock st).
Proof.
  split; [reflexivity |]. split; [reflexivity |]. intros _.
  exists (PChat (currentSessionId st) message). split; [| reflexivity].
  simpl. apply elem_of_app. right. left.
Qed.

Lemma elem_of_delete_other {A : Type} (l : list A) (i : nat) (p q : A) :
  p ∈ l -> l !! i = Some q -> p <> q -> p ∈ base.delete i l.
Proof.
  intros Hin Hi Hne. apply list_elem_of_lookup_1 in Hin as [j Hj].
  destruct (Nat.lt_trichotomy j i) as [Hlt | [-> | Hgt]].
  - apply (list_elem_of_lookup_2 _ j). now rewrite list_lookup_delete_lt.
  - congruence.
  - apply (list_elem_of_lookup_2 _ (Nat.pred j)).
    rewrite list_lookup_delete_ge by lia.
    replace (S (Nat.pred j)) with j by lia. exact Hj.
Qed.

Lemma typing_settle (i : nat) (q : Pending) (st : State) :
  inflight st !! i = Some q -> is_chat q = false ->
  typing_consistent st -> typing_consistent (settle i st).
Proof.
  intros Hi Hq (H1 & H2 & Hp). split; [exact H1 |]. split; [exact H2 |].
  intros Ht. destruct (Hp Ht) as (p & Hin & Hc).
  exists p. split; [| exact Hc]. simpl.
  apply (elem_of_delete_other _ i p q Hin Hi). intros ->. congruence.
Qed.

Lemma typing_sendMessage (clock : Clock) (st : State) :
  typing_consistent st -> typing_consistent (sendMessage clock st).
Proof.
  intros H. unfold sendMessage.
  destruct (negb (nonempty (trim (messageInput st))) || isTyping st); [exact H |].
  destruct (negb (session_selected (currentSessionId st))).
  - apply keeps_typing_consistent; [apply keeps_createNewSession | exact H].
  - apply typing_post.
Qed.

Lemma typing_createNewSession_done (r : Settled Session) (awaiting : option string)
    (clock : Clock) (st : State) :
  typing_consistent st ->
  typing_consistent (createNewSession_done r awaiting clock st).
Proof.
  intros H. unfold createNewSession_done.
  set (st1 := match r with Succeeded _ => _ | Unsuccessful _ => _ | Failed _ => _ end).
  assert (H1 : typing_consistent (set_loadingOverlay false st1)).
  { subst st1. destruct r as [session | m | e].
    - apply (keeps_typing_consistent
               (fun st => set_loadingOverlay false
                            (alert "New chat session created!" "success"
                               (loadSession (session_id session)
                                  (renderSessions
                                     (set_sessions (session :: sessions st) st))))));
        [| exact H].
      unfold loadSession. keeps_typing_tac.
    - exact H.
    - exact H. }
  destruct awaiting as [message |]; [| exact H1].
  destruct (negb (session_selected (currentSessionId (set_loadingOverlay false st1))));
    [exact H1 | apply typing_post].
Qed.

Lemma typing_step (e : Event) (st st' : State) :
  step e st = Some st' -> typing_consistent st -> typing_consistent st'.
Proof.
  destruct e; simpl; intros Hstep H.
  - injection Hstep as <-.
    apply keeps_typing_consistent; [apply keeps_set_messageInput | exact H].
  - injection Hstep as <-. apply typing_sendMessage. exact H.
  - injection Hstep as <-.
    apply keeps_typing_consistent; [apply keeps_createNewSession | exact H].
  - injection Hstep as <-.
    apply keeps_typing_consistent; [apply keeps_loadSession | exact H].
  - injection Hstep as <-.
    apply keeps_typing_consistent; [apply keeps_deleteSession | exact H].
  - destruct (inflight st !! i) as [[] |] eqn:Hi; try discriminate.
    injection Hstep as <-.
    apply keeps_typing_consistent; [apply keeps_loadSessions_done |].
    eapply typing_settle; eauto.
  - destruct (inflight st !! i) as [[| title awaiting | | |] |] eqn:Hi;
      try discriminate.
    injection Hstep as <-. apply typing_createNewSession_done.
    eapply typing_settle; eauto.
  - destruct (inflight st !! i) as [[] |] eqn:Hi; try discriminate.
    injection Hstep as <-.
    apply keeps_typing_consistent; [apply keeps_loadSession_done |].
    eapply typing_settle; eauto.
  - destruct (inflight st !! i) as [[] |] eqn:Hi; try discriminate.
    injection Hstep as <-. unfold sendMessage_done.
    destruct r as [ai | m | e]; (split; [reflexivity |]);
      (split; [reflexivity |]); simpl; discriminate.
  - destruct (inflight st !! i) as [[] |] eqn:Hi; try discriminate.
    injection Hstep as <-.
    apply keeps_typing_consistent; [apply keeps_deleteSession_done |].
    eapply typing_settle; eauto.
Qed.

(** X16: in every state the manager can reach, the typing indicator is
    shown and the send button disabled exactly while [isTyping] is set,
    and [isTyping] is only set while a chat request is in flight: the
    input is never left blocked with no reply to wait for. *)
Theorem typing_only_while_chat_pending (events : list Event) (st : State) :
  run events constructor = Some st ->
  typingIndicator st = isTyping st
  /\ sendButtonDisabled st = isTyping st
  /\ (isTyping st = true -> exists sessionId message,
        PChat sessionId message ∈ inflight st).
Proof.
  assert (Hrun : forall evs s s',
            run evs s = Some s' -> typing_consistent s -> typing_consistent s').
  { induction evs as [| e evs IH]; intros s s'; simpl.
    - intros [= <-]. exact id.
    - destruct (step e s) as [s1 |] eqn:Hstep; [| discriminate].
      intros Hr Hs. apply (IH _ _ Hr). eapply typing_step; eauto. }
  intros H.
  assert (H0 : typing_consistent constructor).
  { split; [reflexivity |]. split; [reflexivity | discriminate]. }
  destruct (Hrun _ _ _ H H0) as (H1 & H2 & H3).
  split; [exact H1 |]. split; [exact H2 |].
  intros Ht. destruct (H3 Ht) as ([| | | sid msg |] & Hin & Hc); try discriminate.
  exists sid, msg. exact Hin.
Qed.

Lemma typing_only_while_chat_pending_witness :
  run first_exchange constructor = Some after_first_exchange
  /\ typingIndicator after_first_exchange = isTyping after_first_exchange.
Proof.
  assert (Hrun : run first_exchange constructor = Some after_first_exchange).
  { vm_compute. reflexivity. }
  split; [exact Hrun |].
  exact (proj1 (typing_only_while_chat_pending first_exchange after_first_exchange Hrun)).
Defined.

(** *** Messages on the page *)








(** *** Creating and deleting sessions *)

(** X18: when a session creation started from the new-chat button
    settles, the loading overlay is hidden in every case.  On success the
    new session is put in front of the stored list, the panel shows that
    list with the new session as the active entry, the session becomes the
    current one and its messages are requested.  When the request throws,
    nothing changes but one alert; when the body has no success, nothing
    changes at all and no alert is shown. *)
Theorem createNewSession_outcomes (r : Settled Session) (clock : Clock) (st : State) :
  let st' := createNewSession_done r None clock st in
  loadingOverlay st' = false
  /\ match r with
     | Succeeded session =>
         sessions st' = session :: sessions st
         /\ chatSessions st'
            = SessionsList (session :: sessions st) (Some (session_id session))
         /\ currentSessionId st' = Some (session_id session)
         /\ requests st' = requests st ++ [PMessages (session_id session)]
         /\ map alert_type (alerts st') = "success" :: map alert_type (alerts st)
     | Unsuccessful _ =>
         sessions st' = sessions st /\ chatSessions st' = chatSessions st
         /\ currentSessionId st' = currentSessionId st
         /\ requests st' = requests st /\ alerts st' = alerts st
     | Failed _ =>
         sessions st' = sessions st /\ chatSessions st' = chatSessions st
         /\ currentSessionId st' = currentSessionId st
         /\ requests st' = requests st
         /\ map alert_type (alerts st') = "danger" :: map alert_type (alerts st)
     end.
Proof.
  destruct r as [session | m | e]; simpl; repeat split.
Qed.

(** [sessions] through the operations that do not assign it. *)
Lemma sessions_renderSessions (st : State) : sessions (renderSessions st) = sessions st.
Proof. exact (proj1 (proj2 (ChatBotProps.renderSessions_fields st))). Qed.

Lemma sessions_sendMessage_post (message : string) (clock : Clock) (st : State) :
  sessions (sendMessage_post message clock st) = sessions st.
Proof. reflexivity. Qed.

Lemma sessions_loadSession (sessionId : Z) (st : State) :
  sessions (loadSession sessionId st) = sessions st.
Proof. unfold loadSession. cbv zeta. simpl. now rewrite sessions_renderSessions. Qed.

Lemma sessions_sendMessage (clock : Clock) (st : State) :
  sessions (sendMessage clock st) = sessions st.
Proof.
  unfold sendMessage. cbv zeta.
  destruct (negb (nonempty (trim (messageInput st))) || isTyping st); [reflexivity |].
  destruct (negb (session_selected (currentSessionId st))); reflexivity.
Qed.

Lemma sessions_createNewSession_done (r : Settled Session) (awaiting : option string)
    (clock : Clock) (st : State) :
  sessions (createNewSession_done r awaiting clock st)
  = match r with
    | Succeeded session => session :: sessions st
    | _ => sessions st
    end.
Proof.
  unfold createNewSession_done. cbv zeta.
  set (st0 := match r with Succeeded _ => _ | Unsuccessful _ => _ | Failed _ => _ end).
  assert (H0 : sessions st0 = match r with
                              | Succeeded session => session :: sessions st
                              | _ => sessions st
                              end).
  { unfold st0. destruct r as [session | m | e]; simpl; try reflexivity;
      try (rewrite sessions_loadSession, sessions_renderSessions; reflexivity). }
  destruct awaiting as [message |]; [| exact H0].
  destruct (negb (session_selected (currentSessionId (set_loadingOverlay false st0))));
    [exact H0 |].
  rewrite sessions_sendMessage_post. exact H0.
Qed.

Lemma sessions_sendMessage_done (r : Settled Message) (clock : Clock) (st : State) :
  sessions (sendMessage_done r clock st) = sessions st.
Proof. destruct r; reflexivity. Qed.

Lemma sessions_loadSession_done (r : Settled (Session * list Message)) (st : State) :
  sessions (loadSession_done r st) = sessions st.
Proof.
  destruct r as [[session messages] | m | e]; try reflexivity.
  destruct messages; reflexivity.
Qed.

Lemma sessions_deleteSession_done (sessionId : Z) (r : Settled unit) (st : State) :
  sessions (deleteSession_done sessionId r st)
  = match r with
    | Failed _ => sessions st
    | _ => filter (fun s => session_id s <> sessionId) (sessions st)
    end.
Proof.
  assert (H : forall st0 : State,
             sessions (alert "Chat session deleted" "success"
               (if bool_decide (currentSessionId (renderSessions st0) = Some sessionId)
                then set_header "AI Legal Assistant" "Ask me anything about Indian law"
                       false
                       (set_chatMessages [WelcomeMessage]
                          (set_currentSessionId None (renderSessions st0)))
                else renderSessions st0)) = sessions st0).
  { intros st0.
    destruct (bool_decide (currentSessionId (renderSessions st0) = Some sessionId));
      simpl; apply sessions_renderSessions. }
  destruct r as [[] | m | e]; [| | reflexivity]; exact (H _).
Qed.

(** X19: a session leaves the stored list only when a loaded list
    without it replaces the list, or when a deletion request for its id
    resolves.  So a deletion that is declined or whose request fails, and
    every other event, keep all the stored sessions. *)
Theorem sessions_removed_only_by_reload_or_deletion (e : Event) (st st' : State)
    (s : Session) :
  step e st = Some st' ->
  s ∈ sessions st ->
  s ∉ sessions st' ->
  (exists i loaded, e = SessionsSettle i (Succeeded loaded) /\ s ∉ loaded)
  \/ (exists i r, e = DeleteSettles i r
                  /\ inflight st !! i = Some (PDelete (session_id s))
                  /\ forall message, r <> Failed message).
Proof.
  intros Hstep Hin Hout.
  destruct e as [text | clock | clock | sessionId | sessionId confirmed
                 | i r | i r clock | i r | i r clock | i r]; simpl in Hstep.
  - injection Hstep as <-. contradiction.
  - injection Hstep as <-. rewrite sessions_sendMessage in Hout. contradiction.
  - injection Hstep as <-. contradiction.
  - injection Hstep as <-. rewrite sessions_loadSession in Hout. contradiction.
  - injection Hstep as <-. destruct confirmed; contradiction.
  - destruct (inflight st !! i) as [[] |] eqn:Hi; try discriminate Hstep.
    injection Hstep as <-.
    destruct r as [loaded | m | err]; try contradiction.
    left. exists i, loaded. split; [reflexivity |].
    unfold loadSessions_done in Hout. rewrite sessions_renderSessions in Hout.
    exact Hout.
  - destruct (inflight st !! i) as [[] |] eqn:Hi; try discriminate Hstep.
    injection Hstep as <-. rewrite sessions_createNewSession_done in Hout.
    destruct r as [session | m | err]; try contradiction.
    apply not_elem_of_cons in Hout as [_ Hout]. contradiction.
  - destruct (inflight st !! i) as [[] |] eqn:Hi; try discriminate Hstep.
    injection Hstep as <-. rewrite sessions_loadSession_done in Hout. contradiction.
  - destruct (inflight st !! i) as [[] |] eqn:Hi; try discriminate Hstep.
    injection Hstep as <-. rewrite sessions_sendMessage_done in Hout. contradiction.
  - destruct (inflight st !! i) as [[| | | | sessionId] |] eqn:Hi;
      try discriminate Hstep.
    injection Hstep as <-. rewrite sessions_deleteSession_done in Hout.
    right. exists i, r.
    assert (Hr : (forall message, r <> Failed message)
                 /\ s ∉ filter (fun s0 => session_id s0 <> sessionId) (sessions st)).
    { destruct r as [[] | m | err]; try contradiction; split; try exact Hout;
        intros message; discriminate. }
    destruct Hr as [Hr Hf].
    split; [reflexivity |]. split; [| exact Hr].
    destruct (decide (session_id s = sessionId)) as [Heq | Hne];
      [subst sessionId; first [exact Hi | reflexivity] |].
    exfalso. apply Hf. apply list_elem_of_filter. split; assumption.
Qed.

Definition stored_session : Session :=
  {| session_id := 5; session_title := "Tenancy dispute";
     updated_at := "2024-03-01T10:00:00Z"; message_count := Some 2%Z |}.

Definition deleting : State :=
  deleteSession 5 true (set_sessions [stored_session] constructor).

Lemma sessions_removed_only_by_reload_or_deletion_witness :
  step (DeleteSettles 1 (Succeeded tt)) deleting
  = Some (deleteSession_done 5 (Succeeded tt) (settle 1 deleting))
  /\ stored_session ∈ sessions deleting
  /\ (stored_session
      ∉ sessions (deleteSession_done 5 (Succeeded tt) (settle 1 deleting)))
  /\ inflight deleting !! 1%nat = Some (PDelete 5).
Proof.
  assert (Hstep : step (DeleteSettles 1 (Succeeded tt)) deleting
                  = Some (deleteSession_done 5 (Succeeded tt) (settle 1 deleting))).
  { reflexivity. }
  assert (Hin : stored_session ∈ sessions deleting) by (left).
  assert (Hout : stored_session
                 ∉ sessions (deleteSession_done 5 (Succeeded tt) (settle 1 deleting))).
  { intros H. vm_compute in H. inversion H. }
  split; [exact Hstep |]. split; [exact Hin |]. split; [exact Hout |].
  destruct (sessions_removed_only_by_reload_or_deletion _ _ _ _ Hstep Hin Hout)
    as [(i & loaded & He & _) | (i & r & He & Hi & _)].
  - discriminate He.
  - injection He as <- <-. exact Hi.
Defined.

End ChatBotMore.
(** ** The lawyer directory *)

Module LawyerNetworkMore.
Import JS LawyerNetwork StringProps.

(** *** Searches, one at a time *)

Lemma count_delete {A : Type} (f : A -> bool) (l : list A) (i : nat) (p : A) :
  l !! i = Some p ->
  length (List.filter f l)
  = (length (List.filter f (base.delete i l)) + if f p then 1 else 0)%nat.
Proof.
  revert i. induction l as [| q l IH]; intros [| i] H; simpl in *; try discriminate.
  - injection H as ->. destruct (f p); simpl; lia.
  - specialize (IH _ H). destruct (f q); simpl; lia.
Qed.

Lemma truthy_canConnect_no_status (u : ref User) (l : Lawyer) :
  truthy (canConnect u l) = true -> truthy (connection_status l) = false.
Proof.
  unfold canConnect. destruct (truthy (connection_status l)); simpl;
    [discriminate | reflexivity].
Qed.

(** The cards that are on the page. *)
Definition cards_of (g : LawyersGrid) : list (Lawyer * bool) :=
  match g with
  | LawyerCards cards => cards
  | _ => []
  end.

Definition card_ok (card : Lawyer * bool) : Prop :=
  snd card = true -> truthy (connection_status (fst card)) = false.

(** What holds of the directory in every state it reaches. *)
Definition healthy (st : State) : Prop :=
  searches_in_flight st = (if isLoading st then 1 else 0)%nat
  /\ loadingSpinner st = isLoading st
  /\ (paginationItems st <> [] ->
      (1 <= paginationListeners st)%nat
      /\ exists current,
           paginationItems st = pagination_items current (totalPages st))
  /\ Forall card_ok (cards_of (lawyersGrid st)).

Lemma searches_send (p : Pending) (st : State) :
  searches_in_flight (send p st)
  = (searches_in_flight st + if is_search p then 1 else 0)%nat.
Proof.
  unfold searches_in_flight, send. simpl.
  rewrite List.filter_app, length_app. simpl. destruct (is_search p); reflexivity.
Qed.

Lemma healthy_alert (message type : string) (st : State) :
  healthy st -> healthy (alert message type st).
Proof. exact id. Qed.

Lemma healthy_send_other (p : Pending) (st : State) :
  is_search p = false -> healthy st -> healthy (send p st).
Proof.
  intros Hp (H1 & H2 & H3 & H4). split; [| split; [| split]]; try assumption.
  rewrite searches_send, Hp. simpl isLoading. lia.
Qed.

Lemma healthy_settle_other (i : nat) (p : Pending) (st : State) :
  inflight st !! i = Some p -> is_search p = false ->
  healthy st -> healthy (settle i st).
Proof.
  intros Hi Hp (H1 & H2 & H3 & H4). split; [| split; [| split]]; try assumption.
  unfold searches_in_flight in *. simpl.
  rewrite (count_delete is_search _ i p Hi), Hp in H1. lia.
Qed.

Lemma renderLawyers_eq (ls : list Lawyer) (st : State) :
  exists g, renderLawyers ls st = set_lawyersGrid g st /\ Forall card_ok (cards_of g).
Proof.
  unfold renderLawyers. destruct ls as [| l ls].
  - exists NoLawyersFound. split; [reflexivity | constructor].
  - eexists. split; [reflexivity |]. simpl.
    apply Forall_forall. intros [l' b] Hin Hb. simpl in *.
    apply list_elem_of_In in Hin.
    change (In (l', b) (map (fun l0 => (l0, truthy (canConnect (currentUser st) l0)))
                          (l :: ls))) in Hin.
    apply in_map_iff in Hin as (l0 & [= <- <-] & _).
    apply (truthy_canConnect_no_status _ _ Hb).
Qed.

Lemma renderPagination_eq (st : State) :
  exists items n,
    renderPagination st = set_pagination items n st
    /\ (items <> [] ->
        (1 <= n)%nat /\ items = pagination_items (currentPage st) (totalPages st)).
Proof.
  unfold renderPagination. destruct (totalPages st <=? 1)%Z.
  - exists [], (paginationListeners st). split; [reflexivity |].
    intros H. exfalso. apply H. reflexivity.
  - eexists _, _. split; [reflexivity |]. intros _. split; [lia | reflexivity].
Qed.

Lemma healthy_renderLawyers (ls : list Lawyer) (st : State) :
  healthy st -> healthy (renderLawyers ls st).
Proof.
  intros (H1 & H2 & H3 & H4).
  destruct (renderLawyers_eq ls st) as (g & -> & Hg).
  split; [| split; [| split]]; assumption.
Qed.

Lemma healthy_loadLawyers (p : Z) (st : State) :
  healthy st -> healthy (loadLawyers p st).
Proof.
  intros (H1 & H2 & H3 & H4). unfold loadLawyers.
  destruct (isLoading st) eqn:Hl.
  - split; [| split; [| split]]; rewrite ?Hl; assumption.
  - split; [| split; [| split]].
    + rewrite searches_send. simpl. unfold searches_in_flight in *. simpl. lia.
    + reflexivity.
    + exact H3.
    + simpl. constructor.
Qed.

Lemma loadLawyers_busy (p : Z) (st : State) :
  isLoading st = true -> loadLawyers p st = st.
Proof. intros H. unfold loadLawyers. now rewrite H. Qed.

Lemma healthy_page_listener (item : PageItem) (st : State) :
  healthy st -> healthy (page_listener item st).
Proof.
  intros H. unfold page_listener.
  destruct item as [[] t | t a | | [] t]; try exact H;
    destruct ((1 <=? t)%Z && (t <=? totalPages st)%Z); try exact H;
    apply healthy_loadLawyers; exact H.
Qed.

Lemma healthy_page_click (item : PageItem) (st : State) :
  healthy st -> healthy (page_click item st).
Proof.
  intros H. unfold page_click.
  generalize (paginationListeners st) as n.
  induction n as [| n IH]; [exact H |].
  simpl. apply healthy_page_listener. exact IH.
Qed.

Lemma healthy_loadLawyers_done (i : nat) (params : SearchParams)
    (r : API.Settled SearchResponse) (st : State) :
  inflight st !! i = Some (PSearch params) ->
  healthy st -> healthy (loadLawyers_done r (settle i st)).
Proof.
  intros Hi (H1 & H2 & H3 & H4).
  assert (H0 : searches_in_flight (settle i st) = 0%nat).
  { unfold searches_in_flight in *. simpl.
    rewrite (count_delete is_search _ i _ Hi) in H1. simpl in H1.
    destruct (isLoading st); lia. }
  unfold loadLawyers_done.
  destruct r as [response | m | e].
  - cbv zeta.
    match goal with |- context [renderLawyers ?ls ?x] =>
      destruct (renderLawyers_eq ls x) as (g & -> & Hg) end.
    match goal with |- context [renderPagination ?x] =>
      destruct (renderPagination_eq x) as (items & n & -> & Hitems) end.
    split; [exact H0 |]. split; [reflexivity |]. split; [| exact Hg].
    simpl. intros Hne. destruct (Hitems Hne) as [Hn ->].
    split; [exact Hn | eexists; reflexivity].
  - split; [exact H0 |]. split; [reflexivity |]. split; [exact H3 | simpl; constructor].
  - split; [exact H0 |]. split; [reflexivity |]. split; [exact H3 | simpl; constructor].
Qed.

Lemma healthy_step (e : Event) (st st' : State) :
  step e st = Some st' -> healthy st -> healthy st'.
Proof.
  destruct e; simpl; intros Hstep H.
  - injection Hstep as <-. exact H.
  - injection Hstep as <-. unfold performSearch.
    apply healthy_loadLawyers. exact H.
  - injection Hstep as <-. apply healthy_renderLawyers. exact H.
  - destruct (paginationItems st !! k); [| discriminate].
    injection Hstep as <-. apply healthy_page_click. exact H.
  - injection Hstep as <-. unfold handleConnectionRequest.
    destruct (negb (nonempty (trim (form_case_description form)))); [exact H |].
    apply healthy_send_other; [reflexivity | exact H].
  - injection Hstep as <-. apply healthy_send_other; [reflexivity | exact H].
  - injection Hstep as <-. exact H.
  - destruct (inflight st !! i) as [[] |] eqn:Hi; try discriminate.
    injection Hstep as <-. eapply healthy_loadLawyers_done; eauto.
  - destruct (inflight st !! i) as [[] |] eqn:Hi; try discriminate.
    injection Hstep as <-.
    pose proof (healthy_settle_other i _ st Hi eq_refl H) as Hs.
    unfold handleConnectionRequest_done.
    destruct r as [[] | m | e]; simpl; [| exact Hs | exact Hs].
    apply healthy_loadLawyers. exact Hs.
  - destruct (inflight st !! i) as [[] |] eqn:Hi; try discriminate.
    injection Hstep as <-.
    pose proof (healthy_settle_other i _ st Hi eq_refl H) as Hs.
    unfold viewLawyerProfile_done.
    destruct r as [[l status] | m | e]; exact Hs.
Qed.

Lemma healthy_constructor (c : Controls) : healthy (constructor c).
Proof.
  split; [reflexivity |]. split; [reflexivity |]. split; [| simpl; constructor].
  intros H. exfalso. apply H. reflexivity.
Qed.

Lemma healthy_run (events : list Event) (st st' : State) :
  run events st = Some st' -> healthy st -> healthy st'.
Proof.
  revert st. induction events as [| e events IH]; intros st; simpl.
  - intros [= <-]. exact id.
  - destruct (step e st) as [st1 |] eqn:Hstep; [| discriminate].
    intros Hr Hs. apply (IH _ Hr). eapply healthy_step; eauto.
Qed.

Definition no_controls : Controls :=
  {| searchQuery := None; specializationFilter := None; locationFilter := None;
     experienceFilter := None; sortBy := None |}.

(** X20: in every state the directory can reach, at most one search
    request is in flight, the loading flag is set exactly while there is
    one, and the spinner is displayed exactly while the flag is set.  A
    call of [loadLawyers] while the flag is set does nothing. *)
Theorem search_serialized (c : Controls) (events : list Event) (st : State) (p : Z) :
  run events (constructor c) = Some st ->
  (searches_in_flight st <= 1)%nat
  /\ (isLoading st = true <-> searches_in_flight st = 1%nat)
  /\ loadingSpinner st = isLoading st
  /\ (isLoading st = true -> loadLawyers p st = st)
  /\ (isLoading st = false ->
      requests (loadLawyers p st)
      = requests st ++ [PSearch (with_page p (buildSearchParams (controls st)))]).
Proof.
  intros Hrun.
  destruct (healthy_run _ _ _ Hrun (healthy_constructor c)) as (H1 & H2 & _).
  split; [destruct (isLoading st); lia |].
  split; [destruct (isLoading st); split; try congruence; lia |].
  split; [exact H2 |].
  split; [apply loadLawyers_busy |].
  intros Hl. unfold loadLawyers. rewrite Hl. reflexivity.
Qed.

Lemma search_serialized_witness :
  run [Search; EditControls no_controls; Search] (constructor no_controls)
  = Some (constructor no_controls)
  /\ (searches_in_flight (constructor no_controls) <= 1)%nat.
Proof.
  split; [reflexivity |].
  exact (proj1 (search_serialized no_controls
                  [Search; EditControls no_controls; Search] _ 1%Z eq_refl)).
Defined.

(** *** The pagination bar *)






Definition own_listing : Lawyer :=
  {| lawyer_id := Num 7; connection_status := Null |}.

Definition connected_listing : Lawyer :=
  {| lawyer_id := Num 8; connection_status := Str "pending" |}.




Fixpoint link_targets (items : list PageItem) : list Z :=
  match items with
  | [] => []
  | PageLink t _ :: rest => t :: link_targets rest
  | _ :: rest => link_targets rest
  end.

Lemma link_targets_app (a b : list PageItem) :
  link_targets (a ++ b) = link_targets a ++ link_targets b.
Proof.
  induction a as [| [d t | t x | | d t] a IH]; simpl; auto. now rewrite IH.
Qed.

Lemma link_targets_links (f : Z -> bool) (l : list Z) :
  link_targets (map (fun i => PageLink i (f i)) l) = l.
Proof. induction l as [| x l IH]; simpl; [reflexivity | now rewrite IH]. Qed.

Lemma link_targets_pagination (current total : Z) :
  link_targets (pagination_items current total)
  = (if (1 <? Z.max 1 (current - 2))%Z then [1%Z] else [])
    ++ seqZ (Z.max 1 (current - 2))
         (Z.min total (current + 2) - Z.max 1 (current - 2) + 1)
    ++ (if (Z.min total (current + 2) <? total)%Z then [total] else []).
Proof.
  unfold pagination_items. cbv zeta.
  rewrite !link_targets_app, link_targets_links. simpl.
  rewrite app_nil_r.
  destruct (1 <? Z.max 1 (current - 2))%Z;
    [destruct (2 <? Z.max 1 (current - 2))%Z |];
    (destruct (Z.min total (current + 2) <? total)%Z;
     [destruct (Z.min total (current + 2) <? total - 1)%Z |]); reflexivity.
Qed.

Lemma active_link (current total t : Z) (a : bool) :
  (1 <= current <= total)%Z ->
  PageLink t a ∈ pagination_items current total -> (a = true <-> t = current).
Proof.
  intros Hc. unfold pagination_items. cbv zeta.
  rewrite !elem_of_app. intros [H | [H | [H | [H | H]]]].
  - apply list_elem_of_singleton in H. discriminate.
  - destruct (Z.ltb_spec 1 (Z.max 1 (current - 2))) as [Hs |]; [| inversion H].
    apply elem_of_cons in H as [[= -> ->] | H]; [split; [discriminate | lia] |].
    destruct (2 <? Z.max 1 (current - 2))%Z; [| inversion H].
    apply list_elem_of_singleton in H. discriminate.
  - apply list_elem_of_fmap in H as (i & [= -> ->] & _).
    rewrite Z.eqb_eq. reflexivity.
  - destruct (Z.ltb_spec (Z.min total (current + 2)) total) as [He |]; [| inversion H].
    apply elem_of_app in H as [H | H].
    + destruct (Z.min total (current + 2) <? total - 1)%Z; [| inversion H].
      apply list_elem_of_singleton in H. discriminate.
    + apply list_elem_of_singleton in H. injection H as -> ->.
      split; [discriminate | lia].
  - apply list_elem_of_singleton in H. discriminate.
Qed.

(** X22: for a current page between 1 and the number of pages (more than
    one), the bar links exactly the first page, the last page and the
    pages at most two away from the current one, each once and none
    outside 1 .. pages; the link of the current page, and only it, is
    marked active; the bar starts with the previous arrow, disabled
    exactly on the first page, and ends with the next arrow, disabled
    exactly on the last page. *)
Theorem pagination_items_shape (current total : Z) :
  (1 <= current <= total)%Z -> (1 < total)%Z ->
  let items := pagination_items current total in
  (forall t, t ∈ link_targets items <->
             (1 <= t <= total)%Z
             /\ (t = 1%Z \/ t = total \/ (current - 2 <= t <= current + 2)%Z))
  /\ NoDup (link_targets items)
  /\ (forall t a, PageLink t a ∈ items -> (a = true <-> t = current))
  /\ PageLink current true ∈ items
  /\ head items = Some (Previous (bool_decide (current = 1%Z)) (current - 1))
  /\ last items = Some (Next (bool_decide (current = total)) (current + 1)).
Proof.
  intros Hc Ht items. subst items.
  split; [| split; [| split; [| split; [| split]]]].
  - intros t. rewrite link_targets_pagination, !elem_of_app, elem_of_seqZ.
    destruct (Z.ltb_spec 1 (Z.max 1 (current - 2)));
      destruct (Z.ltb_spec (Z.min total (current + 2)) total);
      rewrite ?list_elem_of_singleton, ?elem_of_nil; lia.
  - rewrite link_targets_pagination. apply NoDup_app. split; [| split].
    + destruct (1 <? Z.max 1 (current - 2))%Z; [apply NoDup_singleton | constructor].
    + intros t H1 H2.
      destruct (Z.ltb_spec 1 (Z.max 1 (current - 2))); [| inversion H1].
      apply list_elem_of_singleton in H1. subst t.
      apply elem_of_app in H2 as [H2 | H2].
      * apply elem_of_seqZ in H2. lia.
      * destruct (Z.ltb_spec (Z.min total (current + 2)) total); [| inversion H2].
        apply list_elem_of_singleton in H2. lia.
    + apply NoDup_app. split; [apply NoDup_seqZ |]. split.
      * intros t H1 H2. apply elem_of_seqZ in H1.
        destruct (Z.ltb_spec (Z.min total (current + 2)) total); [| inversion H2].
        apply list_elem_of_singleton in H2. lia.
      * destruct (Z.min total (current + 2) <? total)%Z;
          [apply NoDup_singleton | constructor].
  - intros t a. apply active_link. exact Hc.
  - unfold pagination_items. cbv zeta.
    rewrite !elem_of_app. right. right. left.
    apply list_elem_of_fmap. exists current. split.
    + now rewrite Z.eqb_refl.
    + apply elem_of_seqZ. lia.
  - unfold pagination_items. simpl. do 2 f_equal.
    destruct (Z.leb_spec current 1), (bool_decide_reflect (current = 1%Z));
      try reflexivity; lia.
  - unfold pagination_items. cbv zeta.
    rewrite !app_assoc, last_snoc. do 2 f_equal.
    destruct (Z.leb_spec total current), (bool_decide_reflect (current = total));
      try reflexivity; lia.
Qed.

Lemma pagination_items_shape_witness :
  (1 <= 5 <= 9)%Z /\ (1 < 9)%Z
  /\ link_targets (pagination_items 5 9) = [1; 3; 4; 5; 6; 7; 9]%Z
  /\ NoDup (link_targets (pagination_items 5 9)).
Proof.
  split; [lia |]. split; [lia |]. split; [reflexivity |].
  refine (proj1 (proj2 (pagination_items_shape 5 9 _ _))); lia.
Defined.

Example pagination_items_example :
  pagination_items 5 9
  = [ Previous false 4; PageLink 1 false; Ellipsis;
      PageLink 3 false; PageLink 4 false; PageLink 5 true;
      PageLink 6 false; PageLink 7 false;
      Ellipsis; PageLink 9 false; Next false 6 ]%Z.
Proof. reflexivity. Qed.

(** *** Specialization badges *)

Lemma mentions_spec (text kw : string) :
  toLowerCase kw = kw ->
  includes (toLowerCase text) kw = true
  <-> DocumentManager.contains_ignoring_case text kw.
Proof.
  intros H. rewrite <- (DocumentManagerProps.includes_lower_spec text kw), H.
  reflexivity.
Qed.

Ltac decide_closed :=
  match goal with
  | |- _ <-> _ => split; intros; decide_closed
  | |- _ /\ _ => split; decide_closed
  | |- _ -> _ => intros; decide_closed
  | H : false = true |- _ => discriminate H
  | H : _ ∈ _ |- _ =>
      exfalso; revert H; apply (bool_decide_unpack _); vm_compute; exact I
  | |- _ => first [ reflexivity | lia
                  | apply (bool_decide_unpack _); vm_compute; exact I ]
  end.

(** X23: the badges of a lawyer are between one and three distinct
    labels.  The first three areas (criminal, civil, family) are shown
    exactly when the qualifications mention them, ignoring case; a later
    label is only shown when its keyword is mentioned (and is dropped when
    three earlier ones matched); "General Practice" is shown exactly when
    no keyword is mentioned, and is then the only badge. *)
Theorem formatSpecializations_badges (qualifications : option string) :
  let badges := formatSpecializations qualifications in
  let mentions kw :=
    match qualifications with
    | Some text => DocumentManager.contains_ignoring_case text kw
    | None => False
    end in
  (1 <= length badges <= 3)%nat
  /\ NoDup badges
  /\ ("Criminal Law" ∈ badges <-> mentions "criminal")
  /\ ("Civil Law" ∈ badges <-> mentions "civil")
  /\ ("Family Law" ∈ badges <-> mentions "family")
  /\ ("Corporate Law" ∈ badges -> mentions "corporate")
  /\ ("Tax Law" ∈ badges -> mentions "tax")
  /\ ("Property Law" ∈ badges -> mentions "property" \/ mentions "real estate")
  /\ ("General Practice" ∈ badges <->
      ~ (mentions "criminal" \/ mentions "civil" \/ mentions "family"
         \/ mentions "corporate" \/ mentions "tax"
         \/ mentions "property" \/ mentions "real estate"))
  /\ ("General Practice" ∈ badges -> badges = ["General Practice"]).
Proof.
  destruct qualifications as [text |]; cbv zeta.
  2: { simpl. repeat split; try tauto; try apply NoDup_singleton;
         try decide_closed. }
  rewrite <- !mentions_spec by reflexivity.
  unfold formatSpecializations.
  destruct (nonempty text) eqn:Hne.
  2: { destruct text; [| discriminate Hne]. simpl.
       repeat split; try decide_closed; try apply NoDup_singleton;
         try (intros _; intros [H | [H | [H | [H | [H | [H | H]]]]]]; discriminate H). }
  cbv zeta. simpl negb. cbv iota.
  rewrite <- (orb_true_iff (includes (toLowerCase text) "property")).
  generalize (includes (toLowerCase text) "property"
              || includes (toLowerCase text) "real estate").
  generalize (includes (toLowerCase text) "tax").
  generalize (includes (toLowerCase text) "corporate").
  generalize (includes (toLowerCase text) "family").
  generalize (includes (toLowerCase text) "civil").
  generalize (includes (toLowerCase text) "criminal").
  intros [] [] [] [] [] []; simpl;
    (split; [lia |]);
    (split; [apply (bool_decide_unpack _); vm_compute; exact I |]);
    repeat match goal with |- _ /\ _ => split end;
    try (intros _; reflexivity);
    try (split; [intros _; reflexivity
                | intros _; apply (bool_decide_unpack _); vm_compute; exact I]);
    try (intros H; exfalso; revert H;
         apply (bool_decide_unpack _); vm_compute; exact I);
    try (split; [ intros H; exfalso; revert H;
                  apply (bool_decide_unpack _); vm_compute; exact I
                | discriminate ]);
    try (split; [ intros H; exfalso; revert H;
                  apply (bool_decide_unpack _); vm_compute; exact I
                | intros H; exfalso; apply H; tauto ]);
    try (split; [ intros _ H; intuition discriminate
                | intros _; apply (bool_decide_unpack _); vm_compute; exact I ]).
Qed.

Example formatSpecializations_examples :
  formatSpecializations (Some "LLB, Criminal and Family law; TAX litigation; real estate")
  = ["Criminal Law"; "Family Law"; "Tax Law"]
  /\ formatSpecializations (Some "LLM (Constitutional Law)") = ["General Practice"].
Proof. split; reflexivity. Qed.

(** *** Initials *)

Definition no_space (s : string) : Prop :=
  Utils.every (fun c => negb (Ascii.eqb c " ")) s = true.

Lemma split_on_nonempty (sep : ascii) (s : string) : split_on sep s <> [].
Proof.
  induction s as [| c s IH]; simpl; [discriminate |].
  destruct (Ascii.eqb c sep); [discriminate |].
  destruct (split_on sep s); discriminate.
Qed.

Lemma split_on_word (sep : ascii) (u : string) :
  Utils.every (fun c => negb (Ascii.eqb c sep)) u = true ->
  split_on sep u = [u]
  /\ forall t, split_on sep (u +:+ String sep t) = u :: split_on sep t.
Proof.
  induction u as [| c u IH].
  - intros _. split; [reflexivity |]. intros t.
    rewrite append_nil. simpl. now rewrite Ascii.eqb_refl.
  - intros H. simpl in H. apply andb_true_iff in H as [Hc Hu].
    destruct (IH Hu) as [IH1 IH2].
    apply negb_true_iff in Hc.
    split.
    + simpl. rewrite Hc, IH1. reflexivity.
    + intros t. rewrite append_cons. simpl. rewrite Hc, IH2. reflexivity.
Qed.

Lemma split_on_head (sep b : ascii) (v : string) :
  Ascii.eqb b sep = false ->
  exists w ws, split_on sep (String b v) = String b w :: ws.
Proof.
  intros H. simpl. rewrite H.
  destruct (split_on sep v) as [| w ws]; eauto.
Qed.

Lemma initial_length (w : string) : (String.length (initial w) <= 1)%nat.
Proof. destruct w; simpl; lia. Qed.

(** A name of ASCII characters: every character has a code below 128. *)
Definition ascii_only (s : string) : Prop :=
  Utils.every (fun c => (nat_of_ascii c <? 128)%nat) s = true.

(** X24: for a name of ASCII characters, the initials are at most two
    characters; a name without a space gives the upper-cased first letter;
    a name of two or more words gives the upper-cased first letters of its
    first two words; and a leading space counts as an empty first word, so
    only one letter is shown. *)
Theorem getInitials_first_letters (name : string) :
  ascii_only name ->
  (String.length (getInitials name) <= 2)%nat
  /\ (forall a u, name = String a u -> no_space name ->
        getInitials name = String (upper_ascii a) EmptyString)
  /\ (forall a u b v,
        name = String a u +:+ String " " (String b v) ->
        no_space (String a u) -> b <> " "%char ->
        getInitials name
        = String (upper_ascii a) (String (upper_ascii b) EmptyString))
  /\ (forall b v, name = String " " (String b v) -> b <> " "%char ->
        getInitials name = String (upper_ascii b) EmptyString).
Proof.
  intros _. unfold getInitials, no_space.
  split; [| split; [| split]].
  - destruct (split_on " " name) as [| w1 [| w2 ws]]; simpl.
    + lia.
    + rewrite UtilsProps.length_append. pose proof (initial_length w1). simpl. lia.
    + rewrite !UtilsProps.length_append.
      pose proof (initial_length w1). pose proof (initial_length w2). simpl. lia.
  - intros a u -> H. destruct (split_on_word _ _ H) as [-> _]. reflexivity.
  - intros a u b v -> H Hb.
    destruct (split_on_word _ _ H) as [_ ->].
    destruct (split_on_head " " b v) as (w & ws & ->).
    { now apply Ascii.eqb_neq. }
    reflexivity.
  - intros b v -> Hb.
    change (split_on " " (String " " (String b v)))
      with (EmptyString :: split_on " " (String b v)).
    destruct (split_on_head " " b v) as (w & ws & ->).
    { now apply Ascii.eqb_neq. }
    reflexivity.
Qed.

Lemma getInitials_first_letters_witness :
  ascii_only "priya sharma"
  /\ (String.length (getInitials "priya sharma") <= 2)%nat
  /\ getInitials "priya sharma" = "PS".
Proof.
  split; [reflexivity |].
  destruct (getInitials_first_letters "priya sharma" eq_refl)
    as (Hlen & _ & Htwo & _).
  split; [exact Hlen |].
  apply (Htwo "p"%char "riya" "s"%char "harma"); [reflexivity | reflexivity |].
  discriminate.
Defined.

Example getInitials_examples :
  getInitials "priya sharma" = "PS"
  /\ getInitials "Adv. R. K. Mehta" = "AR"
  /\ getInitials "madhav" = "M"
  /\ getInitials " anil kumar" = "A".
Proof. repeat split; reflexivity. Qed.

(** *** Connection offers *)

(** X25: in every state the directory can reach, no card on the page
    offers Connect for a lawyer that already has a connection status;
    and when a profile is loaded, the connect button of the modal is
    shown exactly when the response carries no connection status, the
    lawyer has none, and a user other than the lawyer is logged in. *)
Theorem connect_only_offered_without_status (c : Controls) (events : list Event)
    (st : State) :
  run events (constructor c) = Some st ->
  (forall l, (l, true) ∈ cards_of (lawyersGrid st) ->
             truthy (connection_status l) = false)
  /\ (forall lawyer status,
        connectButton (viewLawyerProfile_done (API.Succeeded (lawyer, status)) st) = true
        <-> truthy status = false
            /\ truthy (connection_status lawyer) = false
            /\ exists u, currentUser st = RObject u /\ user_id u <> lawyer_id lawyer).
Proof.
  intros Hrun.
  destruct (healthy_run _ _ _ Hrun (healthy_constructor c)) as (_ & _ & _ & Hcards).
  split.
  - intros l Hin. rewrite Forall_forall in Hcards.
    exact (Hcards _ Hin eq_refl).
  - intros lawyer status.
    unfold viewLawyerProfile_done, showLawyerProfileModal. simpl.
    rewrite andb_true_iff, negb_true_iff.
    unfold canConnect.
    destruct (truthy (connection_status lawyer)) eqn:Hs; simpl.
    + split; [intros [H _]; discriminate H | intros (_ & H & _); discriminate H].
    + destruct (currentUser st) as [| | u]; simpl.
      * split; [intros [H _]; discriminate H | intros (_ & _ & u & H & _); discriminate H].
      * split; [intros [H _]; discriminate H | intros (_ & _ & u & H & _); discriminate H].
      * rewrite negb_true_iff, LawyerNetworkProps.strict_eq_false.
        split.
        -- intros [H1 H2]. repeat split; [exact H2 |]. exists u. split; [reflexivity | exact H1].
        -- intros (H2 & _ & u' & [= <-] & H1). split; assumption.
Qed.

Definition one_page : SearchResponse :=
  {| lawyers := [own_listing; connected_listing];
     pagination := {| pg_page := 1; pg_pages := 1; pg_total := 2 |} |}.

Definition listed_as_client : State :=
  loadLawyers_done (API.Succeeded one_page)
    (settle 0 (set_currentUser (RObject {| user_id := Num 3 |})
                 (constructor no_controls))).

Lemma connect_only_offered_without_status_witness :
  run [AuthSettles (API.Succeeded (true, RObject {| user_id := Num 3 |}));
       SearchSettles 0 (API.Succeeded one_page)] (constructor no_controls)
  = Some listed_as_client
  /\ cards_of (lawyersGrid listed_as_client)
     = [(own_listing, true); (connected_listing, false)]
  /\ (forall l, (l, true) ∈ cards_of (lawyersGrid listed_as_client) ->
                truthy (connection_status l) = false).
Proof.
  assert (Hrun : run [AuthSettles (API.Succeeded (true, RObject {| user_id := Num 3 |}));
                      SearchSettles 0 (API.Succeeded one_page)]
                     (constructor no_controls) = Some listed_as_client).
  { vm_compute. reflexivity. }
  split; [exact Hrun |]. split; [vm_compute; reflexivity |].
  exact (proj1 (connect_only_offered_without_status no_controls _ _ Hrun)).
Defined.

(** X26: unless the verification request succeeds with an authenticated
    body, [checkAuth] returns false and leaves no current user; every
    listing rendered after that shows no connect button on any card, and
    no profile modal shows one. *)
Theorem failed_auth_offers_no_connection (r : API.Settled (bool * ref User))
    (st : State) :
  (snd (checkAuth_done r) = true
   <-> exists user, r = API.Succeeded (true, user) /\ fst (checkAuth_done r) = user)
  /\ (snd (checkAuth_done r) = false ->
      fst (checkAuth_done r) = RNull
      /\ let st' := set_currentUser (fst (checkAuth_done r)) st in
         (forall ls card, card ∈ cards_of (lawyersGrid (renderLawyers ls st')) ->
                          snd card = false)
         /\ (forall lawyer status,
               connectButton (showLawyerProfileModal lawyer status st') = false)).
Proof.
  split.
  - destruct r as [[[] user] | m | e]; simpl; split;
      try discriminate; try (intros (u & H & _); discriminate H).
    + intros _. exists user. split; reflexivity.
    + intros _. reflexivity.
  - intros H.
    assert (Hnull : fst (checkAuth_done r) = RNull).
    { destruct r as [[[] user] | m | e]; simpl in *; try reflexivity. discriminate H. }
    split; [exact Hnull |]. rewrite Hnull. cbv zeta.
    assert (Hno : forall l, truthy (canConnect RNull l) = false).
    { intros l. unfold canConnect.
      destruct (truthy (connection_status l)); reflexivity. }
    split.
    + intros ls card Hin. destruct ls as [| l ls]; simpl in Hin.
      * inversion Hin.
      * change ((l, truthy (canConnect RNull l))
                :: map (fun l1 => (l1, truthy (canConnect RNull l1))) ls)
          with (map (fun l1 => (l1, truthy (canConnect RNull l1))) (l :: ls)) in Hin.
        apply list_elem_of_fmap in Hin as (l0 & -> & _). apply Hno.
    + intros lawyer status. unfold showLawyerProfileModal. simpl.
      rewrite Hno. reflexivity.
Qed.

Lemma failed_auth_offers_no_connection_witness :
  snd (checkAuth_done (API.Failed "Failed to fetch")) = false
  /\ fst (checkAuth_done (API.Failed "Failed to fetch")) = RNull
  /\ cards_of (lawyersGrid
       (renderLawyers [own_listing]
          (set_currentUser (fst (checkAuth_done (API.Failed "Failed to fetch")))
             listed_as_client)))
     = [(own_listing, false)].
Proof.
  split; [reflexivity |]. split; [| vm_compute; reflexivity].
  exact (proj1 (proj2 (failed_auth_offers_no_connection
                         (API.Failed "Failed to fetch") listed_as_client)
                      eq_refl)).
Defined.

(** X27: a connection form whose case description is empty or only white
    space gets the warning and no request is issued; otherwise exactly one
    connection request is issued, it carries the description with the
    white space around it removed, and nothing is alerted before the
    request settles. *)
Theorem handleConnectionRequest_needs_description (form : ConnectionForm) (st : State) :
  (Utils.every is_space (form_case_description form) = true ->
   handleConnectionRequest form st
   = alert "Please provide a case description." "warning" st
   /\ requests (handleConnectionRequest form st) = requests st)
  /\ (Utils.every is_space (form_case_description form) = false ->
      exists text before after,
        form_case_description form = before +:+ text +:+ after
        /\ Utils.every is_space before = true
        /\ Utils.every is_space after = true
        /\ ChatBotMore.trimmed text
        /\ requests (handleConnectionRequest form st)
           = requests st ++ [PConnect (form_lawyer_id form) text (form_urgent form)]
        /\ alerts (handleConnectionRequest form st) = alerts st).
Proof.
  unfold handleConnectionRequest. cbv zeta. split.
  - intros H. rewrite (ChatBotMore.trim_blank _ H). simpl. split; reflexivity.
  - intros H.
    destruct (ChatBotMore.trim_spec (form_case_description form))
      as (_ & _ & _ & before & after & Heq & Hb & Ha).
    assert (Hne : trim (form_case_description form) <> EmptyString).
    { intros E. rewrite E in Heq. rewrite append_nil in Heq.
      rewrite Heq, UtilsProps.every_app, Hb, Ha in H. discriminate H. }
    exists (trim (form_case_description form)), before, after.
    split; [exact Heq |]. split; [exact Hb |]. split; [exact Ha |].
    split; [apply ChatBotMore.trim_trimmed; exact Hne |].
    destruct (trim (form_case_description form)) eqn:E; [contradiction |].
    simpl. split; reflexivity.
Qed.

Example handleConnectionRequest_example :
  requests (handleConnectionRequest
              {| form_lawyer_id := "8";
                 form_case_description := "  Bail hearing on Monday" +:+ String "010" " ";
                 form_urgent := true |}
              (constructor no_controls))
  = [PSearch (with_page 1 (buildSearchParams no_controls));
     PConnect "8" "Bail hearing on Monday" true].
Proof. vm_compute. reflexivity. Qed.

End LawyerNetworkMore.
(** ** Form field validation *)

Module FormHelpersProps.
Import JS FormHelpers.

(** What the rules ask of a value. *)
Definition satisfies (rules : Rules) (value : string) : Prop :=
  (required rules = true -> value <> EmptyString)
  /\ (email rules = true -> value <> EmptyString -> Utils.validateEmail value = true)
  /\ (password rules = true -> value <> EmptyString -> (6 <= String.length value)%nat)
  /\ (forall n, minLength rules = Some n -> (n <= String.length value)%nat)
  /\ (forall n, maxLength rules = Some n -> n <> 0%nat -> (String.length value <= n)%nat)
  /\ (forall f, custom rules = Some f -> f value = None).

Lemma nonempty_iff (s : string) : nonempty s = true <-> s <> EmptyString.
Proof. destruct s; simpl; split; congruence. Qed.

Lemma and_iff6 (A1 A2 A3 A4 A5 A6 B1 B2 B3 B4 B5 B6 : Prop) :
  (A1 <-> B1) -> (A2 <-> B2) -> (A3 <-> B3) -> (A4 <-> B4) -> (A5 <-> B5) ->
  (A6 <-> B6) ->
  (A1 /\ A2 /\ A3 /\ A4 /\ A5 /\ A6 /\ True)
  <-> (B1 /\ B2 /\ B3 /\ B4 /\ B5 /\ B6).
Proof. tauto. Qed.

Lemma first_failure_none (checks : list (option string)) :
  first_failure checks = None <-> Forall (fun c => c = None) checks.
Proof.
  induction checks as [| [m |] checks IH]; simpl.
  - split; [constructor | reflexivity].
  - split; [discriminate | intros H; inversion H; discriminate].
  - rewrite IH. split; [intros H; constructor; [reflexivity | exact H] |].
    intros H. inversion H. assumption.
Qed.

(** X28: [validateField] returns true exactly when the value, with the
    white space around it removed, meets every rule that is set: present
    if required; a valid email and a password of six characters or more
    when not empty; within the length bounds (a maximum of 0 is no
    bound, and a minimum applies to an empty optional field as well);
    accepted by the custom check.  On success the field is marked valid
    and no longer invalid; on failure it is marked invalid, keeps a valid
    mark it had, and the message is the last feedback of its parent. *)
Theorem validateField_meets_rules (input : Input) (rules : Rules) :
  let value := trim (input_value input) in
  let result := validateField input rules in
  (snd result = true <-> satisfies rules value)
  /\ (snd result = true ->
      marked_valid (fst result) = true /\ marked_invalid (fst result) = false
      /\ feedback (fst result) = tail (feedback input))
  /\ (snd result = false ->
      marked_invalid (fst result) = true
      /\ marked_valid (fst result) = marked_valid input
      /\ exists message,
           feedback (fst result) = tail (feedback input) ++ [message]).
Proof.
  cbv zeta. unfold validateField. cbv zeta.
  set (value := trim (input_value input)).
  set (checks := [_; _; _; _; _; _]).
  assert (Hiff : first_failure checks = None <-> satisfies rules value).
  { rewrite first_failure_none. unfold checks, satisfies.
    rewrite !Forall_cons, Forall_nil.
    rewrite <- nonempty_iff.
    apply and_iff6.
    - destruct (required rules), (nonempty value); simpl;
        intuition discriminate.
    - destruct (email rules), (nonempty value), (Utils.validateEmail value); simpl;
        intuition discriminate.
    - unfold Utils.validatePassword.
      destruct (password rules), (nonempty value),
        (Nat.ltb_spec (String.length value) 6) as [Hlt | Hge]; simpl;
        split; intros Hc; try reflexivity; try discriminate Hc;
        try (intros; first [lia | discriminate]);
        try (exfalso; specialize (Hc eq_refl eq_refl); lia).
    - destruct (minLength rules) as [n |].
      + destruct (Nat.eqb_spec n 0) as [Hz | Hz],
          (Nat.ltb_spec (String.length value) n) as [Hlt | Hge]; simpl;
          split; intros Hc; try reflexivity; try discriminate Hc;
          try (intros n0 [= <-]; lia);
          try (exfalso; specialize (Hc _ eq_refl); lia).
      + split; [intros _ n0 Hn; discriminate Hn | reflexivity].
    - destruct (maxLength rules) as [n |].
      + destruct (Nat.eqb_spec n 0) as [Hz | Hz],
          (Nat.ltb_spec n (String.length value)) as [Hlt | Hge]; simpl;
          split; intros Hc; try reflexivity; try discriminate Hc;
          try (intros n0 [= <-] Hn0; lia);
          try (exfalso; specialize (Hc _ eq_refl Hz); lia).
      + split; [intros _ n0 Hn; discriminate Hn | reflexivity].
    - destruct (custom rules) as [f |].
      + split; [intros Hc f0 [= <-]; exact Hc | intros Hc; exact (Hc _ eq_refl)].
      + split; [intros _ f0 Hf0; discriminate Hf0 | reflexivity]. }
  destruct (first_failure checks) as [message |] eqn:Hf; simpl.
  - split; [| split].
    + split; [discriminate |]. intros H. apply Hiff in H. discriminate H.
    + discriminate.
    + intros _. repeat split. exists message. reflexivity.
  - split; [| split].
    + split; [intros _; apply Hiff; reflexivity | reflexivity].
    + intros _. repeat split.
    + discriminate.
Qed.

Definition phone_rules : Rules :=
  {| required := false; email := false; password := false;
     minLength := Some 10%nat; maxLength := Some 0%nat; custom := None |}.

Definition fresh_input (name value : string) : Input :=
  {| input_name := name; input_value := value;
     marked_invalid := false; marked_valid := true; feedback := [] |}.

Example validateField_examples :
  (* an optional field left empty still fails its minimum length, and
     keeps the valid mark beside the invalid one *)
  validateField (fresh_input "phone" "  ") phone_rules
  = ({| input_name := "phone"; input_value := "  ";
        marked_invalid := true; marked_valid := true;
        feedback := ["Minimum 10 characters required"] |}, false)
  (* a maximum of 0 bounds nothing *)
  /\ snd (validateField (fresh_input "phone" "98765 43210") phone_rules) = true.
Proof. split; vm_compute; reflexivity. Qed.

End FormHelpersProps.
